(** * LearnMate TestBuddy: the coding-evaluation workflow

    A shallow embedding of the run/submit/diagnose workflow of
    [components/TestBuddy.tsx], of the judge client [evaluateCodeWithAI]
    of [services/geminiService] and of the attempt recorder
    ([handleCodingAttempt] in [App], [saveCodingResult] in
    [services/firebaseService]), followed by the properties proved of them.
    The later parts cover the hint, the multiple-choice test, the problems
    solved of [getUserPerformanceSummary], [truncateText] and the clock of
    [Timer]. *)

From Stdlib Require Import List ZArith NArith Bool Lia String Ascii.
From Stdlib Require Import Floats.SpecFloat.
From Stdlib Require DecimalString.
Import ListNotations.

Set Implicit Arguments.

(** ** JavaScript strings

    A JavaScript string is a sequence of UTF-16 code units.  The model keeps
    the code units as numbers, so that the white space removed by
    [String.prototype.trim] is the whole class of the language, not only its
    ASCII part. *)
Module JS.

Definition code_unit := N.
Definition jsstring := list code_unit.

(** A string literal of the development, read as its code units. *)
Definition js (s : string) : jsstring :=
  List.map N_of_ascii (list_ascii_of_string s).

Definition LF : code_unit := 10%N.
Definition EQUALS : code_unit := 61%N.

(** WhiteSpace and LineTerminator code units, the ones [trim] strips. *)
Definition isWhiteSpace (c : code_unit) : bool :=
  ((9 <=? c) && (c <=? 13) || (c =? 32) || (c =? 160) || (c =? 5760)
   || (8192 <=? c) && (c <=? 8202) || (c =? 8232) || (c =? 8233)
   || (c =? 8239) || (c =? 8287) || (c =? 12288) || (c =? 65279))%N.

Fixpoint trimStart (s : jsstring) : jsstring :=
  match s with
  | [] => []
  | c :: r => if isWhiteSpace c then trimStart r else s
  end.

Definition trimEnd (s : jsstring) : jsstring := rev (trimStart (rev s)).

(** [s.trim()] *)
Definition trim (s : jsstring) : jsstring := trimEnd (trimStart s).

(** [s.split(sep)] for a separator of one code unit: never an empty array. *)
Fixpoint split (sep : code_unit) (s : jsstring) : list jsstring :=
  match s with
  | [] => [[]]
  | c :: r =>
      if (c =? sep)%N then [] :: split sep r
      else match split sep r with
           | [] => [[c]]
           | l :: ls => (c :: l) :: ls
           end
  end.

(** [parts.join(sep)] *)
Fixpoint join (sep : jsstring) (parts : list jsstring) : jsstring :=
  match parts with
  | [] => []
  | p :: ps =>
      match ps with
      | [] => p
      | _ :: _ => p ++ sep ++ join sep ps
      end
  end.

Fixpoint indexOf_from (c : code_unit) (s : jsstring) (i : Z) : Z :=
  match s with
  | [] => (-1)%Z
  | x :: r => if (x =? c)%N then i else indexOf_from c r (i + 1)%Z
  end.

(** [s.indexOf(c)] for a pattern of one code unit: the position of the first
    occurrence, or -1. *)
Definition indexOf (c : code_unit) (s : jsstring) : Z := indexOf_from c s 0%Z.

(** [s.substring(start)]: a start below 0 counts as 0, one beyond the
    length gives the empty string. *)
Definition substring (start : Z) (s : jsstring) : jsstring :=
  skipn (Z.to_nat start) s.

(** A JavaScript value used as a condition: the empty string is falsy, every
    other string is truthy. *)
Definition truthy (s : jsstring) : bool :=
  match s with [] => false | _ :: _ => true end.

End JS.
Import JS.

(** ** [extractInputValue] (TestBuddy.tsx)

    Strips variable names from a test-case input such as [nums = [1,2,3]]. *)

(** The function that [extractInputValue] maps over the lines. *)
Definition strippedLine (line : jsstring) : jsstring :=
  let eqIndex := indexOf EQUALS line in
  if (eqIndex >? -1)%Z then trim (substring (eqIndex + 1)%Z line)
  else trim line.

Definition extractInputValue (input : jsstring) : jsstring :=
  join [LF] (List.map strippedLine (split LF input)).

(** The stripping rule in the words of the specification: of a line that
    contains [=], the value after the first [=]. *)
Fixpoint valueAfterFirstEquals (line : jsstring) : option jsstring :=
  match line with
  | [] => None
  | c :: r => if (c =? EQUALS)%N then Some r else valueAfterFirstEquals r
  end.

(** A line with [=] forwards the trimmed value after the first [=]; a line
    without [=] is forwarded as it is, trimmed. *)
Definition forwardedLine (line : jsstring) : jsstring :=
  match valueAfterFirstEquals line with
  | Some v => trim v
  | None => trim line
  end.

(** ** JavaScript numbers

    A Number is an IEEE 754 binary64 value; the operations are the ones of
    the standard library's executable specification of binary floating
    point, at precision 53 and maximal exponent 1024. *)
Module Num.

Definition prec : Z := 53.
Definition emax : Z := 1024.
Definition number := spec_float.

Definition NaN : number := S754_nan.

(** The Number of a mathematical integer: the nearest binary64 value, the
    integer itself up to 2^53. *)
Definition ofZ (z : Z) : number := binary_normalize prec emax z 0 false.
Definition ofNat (n : nat) : number := ofZ (Z.of_nat n).

Definition div (x y : number) : number := SFdiv prec emax x y.
Definition mul (x y : number) : number := SFmul prec emax x y.

(** The integer [n] for which [n / 100 - m * 2^e] is as close to zero as
    possible, the larger one if there are two: the digits that
    [Number.prototype.toFixed(2)] prints for the positive value [m * 2^e]. *)
Definition hundredths (m : positive) (e : Z) : Z :=
  if (0 <=? e)%Z then Z.pos m * 2 ^ e * 100
  else (2 * (Z.pos m * 100) + 2 ^ (- e)) / (2 * 2 ^ (- e)).

(** [parseFloat(x.toFixed(2))].  [toFixed] prints "NaN" and "Infinity" for
    the values that are not finite and a value of 10^21 or more by
    [ToString]; these strings read back as the value itself.  A smaller value
    is printed as the decimal [n / 100] of [hundredths], with its sign (a
    negative zero prints "-0.00"), and [parseFloat] reads the decimal back as
    the nearest Number. *)
Definition parseFloat_toFixed2 (x : number) : number :=
  match x with
  | S754_finite s m e =>
      if (if 0 <=? e then 10 ^ 21 <=? Z.pos m * 2 ^ e
          else 10 ^ 21 * 2 ^ (- e) <=? Z.pos m)%Z
      then x
      else
        let q := div (ofZ (hundredths m e)) (ofZ 100) in
        if s then SFopp q else q
  | _ => x
  end.

End Num.

(** ** A backtracking matcher for the regular expressions of the source

    The pattern language and the matcher follow the ECMAScript semantics of
    the constructs that [parseError] uses: pattern characters, character
    classes, [\d], sequence, alternation with priority to the left, the
    greedy [+] and capturing groups, under the ignore-case flag. *)
Module Regex.

Inductive regex : Type :=
| Eps : regex
| Chr : code_unit -> regex
| Class : list (code_unit * code_unit) -> regex
| Digit : regex
| Seq : regex -> regex -> regex
| Alt : regex -> regex -> regex
| Plus : regex -> regex
| Group : nat -> regex -> regex.

(** Canonicalize of the ignore-case flag (without the unicode flag): a code
    unit is compared by its upper case.  On ASCII this is the folding below.
    A code unit of 128 or more is never folded onto an ASCII one, and every
    pattern of this program is ASCII, so that the folding among the other
    code units cannot be observed and is left as the identity. *)
Definition canonicalize (c : code_unit) : code_unit :=
  if ((97 <=? c) && (c <=? 122))%N then (c - 32)%N else c.

Definition range (lo hi : code_unit) : list code_unit :=
  List.map (fun i => (lo + N.of_nat i)%N) (seq 0 (N.to_nat (hi + 1 - lo))).

(** CharacterSetMatcher: some member of the class has the canonical form of
    the input character. *)
Definition classMatches (ranges : list (code_unit * code_unit))
    (ch : code_unit) : bool :=
  existsb
    (fun r : code_unit * code_unit =>
       existsb (fun a => (canonicalize a =? canonicalize ch)%N)
         (range (fst r) (snd r)))
    ranges.

Definition isDigit (ch : code_unit) : bool := ((48 <=? ch) && (ch <=? 57))%N.

(** The captures: group number and captured substring, latest first. *)
Definition captures := list (nat * jsstring).

Fixpoint capture (i : nat) (caps : captures) : option jsstring :=
  match caps with
  | [] => None
  | (j, v) :: rest => if Nat.eqb i j then Some v else capture i rest
  end.

Definition orElse {A} (x y : option A) : option A :=
  match x with Some _ => x | None => y end.

Section Matcher.
Variable A : Type.

Definition continuation := jsstring -> captures -> option A.
Definition matcher := jsstring -> captures -> continuation -> option A.

Definition oneChar (p : code_unit -> bool) : matcher :=
  fun s caps k =>
    match s with
    | ch :: s' => if p ch then k s' caps else None
    | [] => None
    end.

(** RepeatMatcher with min 0, max infinite, greedy: one more iteration
    first, which fails when it consumed nothing, then the continuation.
    Every iteration shortens the input, so the length of the input bounds
    their number. *)
Fixpoint star (fuel : nat) (m : matcher) (y : jsstring) (caps : captures)
    (c : continuation) : option A :=
  orElse
    (m y caps
       (fun y' caps' =>
          if Nat.eqb (List.length y') (List.length y) then None
          else match fuel with
               | O => None
               | S f => star f m y' caps' c
               end))
    (c y caps).

(** RepeatMatcher with min 1: one iteration, then [star]. *)
Definition plus (m : matcher) : matcher :=
  fun x caps c => m x caps (fun y caps' => star (List.length y) m y caps' c).

(** The groups of the patterns below lie outside every quantifier: an
    iteration has no capture to reset. *)
Fixpoint matchR (r : regex) (s : jsstring) (caps : captures)
    (k : continuation) {struct r} : option A :=
  match r with
  | Eps => k s caps
  | Chr c =>
      oneChar (fun ch => (canonicalize ch =? canonicalize c)%N) s caps k
  | Class ranges => oneChar (classMatches ranges) s caps k
  | Digit => oneChar isDigit s caps k
  | Seq r1 r2 => matchR r1 s caps (fun s1 c1 => matchR r2 s1 c1 k)
  | Alt r1 r2 => orElse (matchR r1 s caps k) (matchR r2 s caps k)
  | Plus r1 => plus (fun x cs c => matchR r1 x cs c) s caps k
  | Group i r1 =>
      matchR r1 s caps
        (fun s1 c1 =>
           k s1 ((i, firstn (List.length s - List.length s1) s) :: c1))
  end.
End Matcher.

(** RegExpBuiltinExec without the global flag, as [String.prototype.match]
    runs it: the pattern is tried at index 0, 1, ... up to the length of the
    string, and the first index with a match gives the result. *)
Fixpoint exec (r : regex) (s : jsstring) : option captures :=
  match matchR r s [] (fun _ caps => Some caps) with
  | Some caps => Some caps
  | None =>
      match s with
      | [] => None
      | _ :: s' => exec r s'
      end
  end.

(** The characters of a literal, in sequence. *)
Fixpoint lit (cs : jsstring) : regex :=
  match cs with
  | [] => Eps
  | c :: rest => Seq (Chr c) (lit rest)
  end.

End Regex.
Import Regex.

(** ** [parseError] (TestBuddy.tsx) *)

(** [[a-zA-Z0-9\/\._-]]: the last [-] is the character itself. *)
Definition pathClass : list (code_unit * code_unit) :=
  [(97, 122); (65, 90); (48, 57); (47, 47); (46, 46); (95, 95); (45, 45)]%N.

(** [/(?:[a-zA-Z0-9\/\._-]+):(\d+)|line (\d+)|\[Line (\d+)\]/i] *)
Definition lineNumberRegex : regex :=
  Alt (Seq (Plus (Class pathClass)) (Seq (Chr 58%N) (Group 1 (Plus Digit))))
    (Alt (Seq (lit (js "line ")) (Group 2 (Plus Digit)))
       (Seq (lit (js "[Line ")) (Seq (Group 3 (Plus Digit)) (Chr 93%N)))).

(** The value of a string of decimal digits. *)
Definition digitValue (ds : jsstring) : Z :=
  fold_left (fun acc d => (10 * acc + (Z.of_N d - 48))%Z) ds 0%Z.

(** [parseInt(v, 10)] on a value that is [undefined] or a string of decimal
    digits: [NaN] for [undefined] and for the empty string, the Number of
    the digits otherwise, which is their value up to 2^53 and the nearest
    Number beyond. *)
Definition parseInt10 (v : option jsstring) : Num.number :=
  match v with
  | None => Num.NaN
  | Some [] => Num.NaN
  | Some (d :: ds) => Num.ofZ (digitValue (d :: ds))
  end.

(** [a || b] when a value may be [undefined]. *)
Definition orUndefined (a b : option jsstring) : option jsstring :=
  match a with
  | Some (_ :: _) => a
  | _ => b
  end.

Record Diagnostic : Type := {
  lineNumber : Num.number;
  message : jsstring
}.

Definition parseError (errorMessage : jsstring) : option Diagnostic :=
  if negb (truthy errorMessage) then None
  else
    match exec lineNumberRegex errorMessage with
    | Some m =>
        let lineNumber :=
          parseInt10
            (orUndefined (orUndefined (capture 1 m) (capture 2 m))
               (capture 3 m)) in
        Some {| lineNumber := lineNumber; message := trim errorMessage |}
    | None =>
        Some {| lineNumber := Num.ofZ 1; message := trim errorMessage |}
    end.

(** The diagnostic extractor in the words of the specification.  The three
    shapes are looked for at the head of the remaining text: (a) a path, a
    colon and digits, (b) the word [line], a space and digits, (c) the same in
    brackets.  [fold] tells whether letters are compared without their case. *)
Section Reference.
Variable fold : bool.

Definition sameChar (a b : code_unit) : bool :=
  if fold then (canonicalize a =? canonicalize b)%N else (a =? b)%N.

Definition isPathChar (ch : code_unit) : bool :=
  ((97 <=? ch) && (ch <=? 122) || (65 <=? ch) && (ch <=? 90)
   || (48 <=? ch) && (ch <=? 57) || (ch =? 47) || (ch =? 46) || (ch =? 95)
   || (ch =? 45))%N.

(** The longest prefix of characters that satisfy [p], and the rest. *)
Fixpoint span (p : code_unit -> bool) (s : jsstring) : jsstring * jsstring :=
  match s with
  | [] => ([], [])
  | ch :: r =>
      if p ch then let (run, rest) := span p r in (ch :: run, rest)
      else ([], s)
  end.

(** The text after the literal [word], when the text starts with it. *)
Fixpoint afterLiteral (word s : jsstring) : option jsstring :=
  match word with
  | [] => Some s
  | w :: word' =>
      match s with
      | ch :: s' => if sameChar ch w then afterLiteral word' s' else None
      | [] => None
      end
  end.

(** Digits at the head of the text: the digit group and the rest. *)
Definition digitsAt (s : jsstring) : option (jsstring * jsstring) :=
  match span isDigit s with
  | (d :: ds, rest) => Some (d :: ds, rest)
  | ([], _) => None
  end.

Definition shapePath (s : jsstring) : option jsstring :=
  match span isPathChar s with
  | (_ :: _, colon :: rest) =>
      if (colon =? 58)%N then option_map fst (digitsAt rest) else None
  | _ => None
  end.

Definition shapeLine (s : jsstring) : option jsstring :=
  match afterLiteral (js "line ") s with
  | Some rest => option_map fst (digitsAt rest)
  | None => None
  end.

Definition shapeBracket (s : jsstring) : option jsstring :=
  match afterLiteral (js "[Line ") s with
  | Some rest =>
      match digitsAt rest with
      | Some (ds, close :: _) => if (close =? 93)%N then Some ds else None
      | _ => None
      end
  | None => None
  end.

(** The shapes in their priority order at one position. *)
Definition shapeAt (s : jsstring) : option jsstring :=
  orElse (shapePath s) (orElse (shapeLine s) (shapeBracket s)).

(** The first position of the text, from the left, with a shape. *)
Fixpoint firstShape (s : jsstring) : option jsstring :=
  match shapeAt s with
  | Some ds => Some ds
  | None =>
      match s with
      | [] => None
      | _ :: s' => firstShape s'
      end
  end.

Definition extractReference (rawErrorText : jsstring) : option Diagnostic :=
  match rawErrorText with
  | [] => None
  | _ :: _ =>
      Some {| lineNumber :=
                match firstShape rawErrorText with
                | Some ds => Num.ofZ (digitValue ds)
                | None => Num.ofZ 1
                end;
              message := trim rawErrorText |}
  end.
End Reference.

(** ** The data of the coding workflow ([types.ts]) *)

Inductive CodingProblemDifficulty : Type := Easy | Medium | Hard.
Inductive Language : Type := javascript | python | java | c.

Record Example : Type := {
  ex_input : jsstring;
  ex_output : jsstring;
  ex_explanation : option jsstring
}.

Record TestCase : Type := {
  tc_input : jsstring;
  tc_output : jsstring
}.

Record CodingProblem : Type := {
  id : jsstring;
  title : jsstring;
  difficulty : CodingProblemDifficulty;
  description : jsstring;
  constraints : list jsstring;
  examples : list Example;
  testCases : list TestCase;
  starterCode : Language -> jsstring;
  solution : Language -> jsstring
}.

Inductive SubmissionStatus : Type :=
| Accepted
| WrongAnswer
| RuntimeError
| TimeLimitExceeded
| CompilationError
| Pending
| Running.

Definition SubmissionStatus_eqb (a b : SubmissionStatus) : bool :=
  match a, b with
  | Accepted, Accepted
  | WrongAnswer, WrongAnswer
  | RuntimeError, RuntimeError
  | TimeLimitExceeded, TimeLimitExceeded
  | CompilationError, CompilationError
  | Pending, Pending
  | Running, Running => true
  | _, _ => false
  end.

(** The optional fields are [None] when the property is absent. *)
Record SubmissionResult : Type := {
  status : SubmissionStatus;
  stdout : option jsstring;
  expectedOutput : option jsstring;
  stderr : option jsstring;
  compile_output : option jsstring;
  time : option jsstring;
  memory : option Num.number
}.

(** An element of the [testCases] argument of the judge client. *)
Record EvaluationCase : Type := {
  stdin : jsstring;
  case_expectedOutput : option jsstring
}.

Inductive TestCaseStatus : Type := Passed | Failed.

Record TestCaseResult : Type := {
  run_input : jsstring;
  run_expectedOutput : jsstring;
  userOutput : jsstring;
  run_status : TestCaseStatus;
  error : option jsstring
}.

Record TestResult : Type := {
  testId : jsstring;
  test_title : jsstring;
  test_difficulty : CodingProblemDifficulty;
  test_language : Language;
  codeSubmitted : jsstring;
  test_status : TestCaseStatus;
  score : Num.number
}.

(** ** Exceptions

    A computation of the source either returns or throws; what it throws is
    never inspected, so that the model keeps the fact alone. *)
Inductive Outcome (A : Type) : Type :=
| Returned : A -> Outcome A
| Thrown : Outcome A.
Arguments Thrown {A}.

Definition bindOutcome {A B} (x : Outcome A) (f : A -> Outcome B) : Outcome B :=
  match x with
  | Returned a => f a
  | Thrown => Thrown
  end.

Notation "x <- e ;; k" := (bindOutcome e (fun x => k))
  (at level 61, e at next level, right associativity).

(** [try { body } catch { handler }] *)
Definition tryCatch {A} (body : Outcome A) (handler : A) : A :=
  match body with
  | Returned a => a
  | Thrown => handler
  end.

(** [array.map((x, index) => f(x, index))] with a callback that may throw:
    the elements are visited from index 0 and the first throw ends the map. *)
Fixpoint mapWithIndex {A B} (f : A -> nat -> Outcome B) (l : list A)
    (index : nat) : Outcome (list B) :=
  match l with
  | [] => Returned []
  | x :: rest =>
      y <- f x index ;;
      ys <- mapWithIndex f rest (S index) ;;
      Returned (y :: ys)
  end.

(** [array[index].field]: reading a property of [undefined] throws. *)
Definition element {A} (l : list A) (index : nat) : Outcome A :=
  match nth_error l index with
  | Some x => Returned x
  | None => Thrown
  end.

Fixpoint findIndex_from {A} (p : A -> bool) (l : list A) (i : Z) : Z :=
  match l with
  | [] => (-1)%Z
  | x :: rest => if p x then i else findIndex_from p rest (i + 1)%Z
  end.

(** [array.findIndex(p)]: the first index that satisfies [p], or -1. *)
Definition findIndex {A} (p : A -> bool) (l : list A) : Z :=
  findIndex_from p l 0%Z.

(** [a || b] with a string as the last operand. *)
Definition orString (a : option jsstring) (b : jsstring) : jsstring :=
  match a with
  | Some (x :: r) => x :: r
  | _ => b
  end.

(** ** The judge client [evaluateCodeWithAI] ([services/geminiService])

    What the model call gives back: a rejected call, a text that is not
    JSON or a JSON value without a [results] array all end in the same
    exception; otherwise the [results] array, of any length. *)
Inductive OracleReply : Type :=
| OracleFailure : OracleReply
| OracleResults : list SubmissionResult -> OracleReply.

Definition JudgeClient : Type :=
  Language -> jsstring -> list EvaluationCase -> CodingProblem ->
  OracleReply -> Outcome (list SubmissionResult).

(** The result of the [catch] branch: one per requested case. *)
Definition evaluationFailed : SubmissionResult :=
  {| status := CompilationError;
     stdout := Some [];
     expectedOutput := None;
     stderr := Some [];
     compile_output := Some (js "Evaluation failed due to AI error.");
     time := Some (js "0");
     memory := Some (Num.ofZ 0) |}.

(** The judge client that documents itself as "For TestBuddy: Evaluates
    code.": every result is completed with the expected output of the case at
    its index, and whatever is thrown on the way, by the call, by the parse
    or by a result without a case, is caught. *)
Module JudgeWithFallback.
Definition evaluateCodeWithAI : JudgeClient :=
  fun language sourceCode testCases problem reply =>
    Returned
      (tryCatch
         (match reply with
          | OracleFailure => Thrown
          | OracleResults results =>
              mapWithIndex
                (fun res index =>
                   tc <- element testCases index ;;
                   Returned
                     {| status := status res;
                        stdout := stdout res;
                        expectedOutput := case_expectedOutput tc;
                        stderr := stderr res;
                        compile_output := compile_output res;
                        time := time res;
                        memory := memory res |})
                results 0
          end)
         (List.map (fun _ => evaluationFailed) testCases)).
End JudgeWithFallback.

(** The other judge client of the repository, without a [try]: the
    [results] of the reply as they are. *)
Module JudgeDirect.
Definition evaluateCodeWithAI : JudgeClient :=
  fun language sourceCode testCases problem reply =>
    match reply with
    | OracleFailure => Thrown
    | OracleResults results => Returned results
    end.
End JudgeDirect.

(** ** The attempt recorder

    [handleCodingAttempt] ([App]) is the [onCodingAttempt] of TestBuddy,
    which calls it without awaiting it.  It awaits [saveCodingResult]
    ([services/firebaseService]) inside a [try] whose [catch] only logs, and
    [saveCodingResult] builds the document and awaits the [add] of the
    [codingResults] collection of the user.  Both are split at that [await].
    Up to it the [add] is called: the [codingResults] of a session are the
    documents handed to [add], in the order of the calls.  From it on the
    outcome of the [add] decides what the collection holds. *)
Definition Uid : Type := jsstring.

Inductive FieldValue : Type := serverTimestamp.

Record CodingResultDoc : Type := {
  doc_uid : Uid;
  doc_result : TestResult;
  attemptedAt : FieldValue
}.

Definition saveCodingResult_start (uid : Uid) (result : TestResult)
    (codingResults : list CodingResultDoc) : list CodingResultDoc :=
  let newCodingResult :=
    {| doc_uid := uid; doc_result := result; attemptedAt := serverTimestamp |} in
  codingResults ++ [newCodingResult].

(** [handleCodingAttempt] up to the [await]: nothing without a user. *)
Definition handleCodingAttempt_start (user : option Uid) (result : TestResult)
    (codingResults : list CodingResultDoc) : list CodingResultDoc :=
  match user with
  | None => codingResults
  | Some uid => saveCodingResult_start uid result codingResults
  end.

(** The promise of an [add]: fulfilled, and the document is in the
    collection, or rejected. *)
Inductive WriteOutcome : Type := Fulfilled | Rejected.

(** [saveCodingResult] from the [await] on, for the document [doc] handed to
    [add] and the collection as it is then: a rejection is thrown on. *)
Definition saveCodingResult_resume (outcome : WriteOutcome)
    (doc : CodingResultDoc) (collection : list CodingResultDoc)
    : Outcome (list CodingResultDoc) :=
  match outcome with
  | Fulfilled => Returned (collection ++ [doc])
  | Rejected => Thrown
  end.

(** [handleCodingAttempt] from the [await] on: the [catch] logs the
    rejection, and the collection is as it was. *)
Definition handleCodingAttempt_resume (outcome : WriteOutcome)
    (doc : CodingResultDoc) (collection : list CodingResultDoc)
    : list CodingResultDoc :=
  tryCatch (saveCodingResult_resume outcome doc collection) collection.

(** ** The component state of TestBuddy

    The [useState] cells that the coding handlers read or write, and the
    [user] of the authentication context. *)
Inductive ActiveResultTab : Type := RunTab | SubmitTab.

(** An element of [submissionResults]: the result of the judge with
    [passed], [input] and [expected]. *)
Record SubmissionDisplay : Type := {
  display_result : SubmissionResult;
  passed : bool;
  display_input : jsstring;
  display_expected : jsstring
}.

Record State : Type := {
  user : option Uid;
  activeCodingProblem : option CodingProblem;
  language : Language;
  code : jsstring;
  isExecuting : bool;
  runResults : option (list TestCaseResult);
  submissionResults : option (list SubmissionDisplay);
  overallSubmissionStatus : option SubmissionStatus;
  hint : option jsstring;
  failureExplanation : option jsstring;
  isExplanationLoading : bool;
  activeResultTab : ActiveResultTab;
  isCodingTimerRunning : bool;
  codeError : option Diagnostic;
  showSolution : bool
}.

(** An evaluation between its start and the answer of the oracle: the
    handler that awaits it and the values its closure holds. *)
Inductive CallKind : Type := RunCall | SubmitCall.

Record PendingCall : Type := {
  call_kind : CallKind;
  call_user : option Uid;
  call_problem : CodingProblem;
  call_language : Language;
  call_code : jsstring;
  call_cases : list EvaluationCase
}.

(** A request of [generateFailureExplanation]. *)
Record FailedTest : Type := {
  failed_input : jsstring;
  failed_expected : jsstring;
  failed_actual : jsstring
}.

(** The session: the component state, the evaluations in flight, the
    documents handed to the [add] of the [codingResults] collection and the
    explanations asked for. *)
Record World : Type := {
  ui : State;
  inflight : list PendingCall;
  codingResults : list CodingResultDoc;
  explanationRequests : list FailedTest
}.

Inductive Completion : Type := Completed | Threw.

(** ** [handleRunCode] and [handleSubmitCode] (TestBuddy.tsx)

    Each handler is an asynchronous function with one [await], on the judge
    client: [_start] is the handler up to the [await], [_resume] is the rest,
    run when the judge client has returned. *)

Definition handleRunCode_start (st : State) : option (State * PendingCall) :=
  match activeCodingProblem st with
  | None => None
  | Some problem =>
      if isExecuting st then None
      else
        let testCasesToRun :=
          List.map
            (fun example =>
               {| stdin := extractInputValue (ex_input example);
                  case_expectedOutput := Some (ex_output example) |})
            (examples problem) in
        Some
          ({| user := user st;
              activeCodingProblem := activeCodingProblem st;
              language := language st;
              code := code st;
              isExecuting := true;
              runResults := runResults st;
              submissionResults := None;
              overallSubmissionStatus := overallSubmissionStatus st;
              hint := None;
              failureExplanation := None;
              isExplanationLoading := isExplanationLoading st;
              activeResultTab := RunTab;
              isCodingTimerRunning := isCodingTimerRunning st;
              codeError := None;
              showSolution := showSolution st |},
           {| call_kind := RunCall;
              call_user := user st;
              call_problem := problem;
              call_language := language st;
              call_code := code st;
              call_cases := testCasesToRun |})
  end.

Definition isErrorStatus (res : SubmissionResult) : bool :=
  SubmissionStatus_eqb (status res) CompilationError
  || SubmissionStatus_eqb (status res) RuntimeError.

Definition handleRunCode_resume (call : PendingCall)
    (results : list SubmissionResult) (st : State) : Completion * State :=
  let problem := call_problem call in
  match
    mapWithIndex
      (fun res index =>
         example <- element (examples problem) index ;;
         Returned
           {| run_input := ex_input example;
              run_expectedOutput := ex_output example;
              userOutput :=
                orString (compile_output res)
                  (orString (stderr res)
                     (orString (stdout res) (js "No output")));
              run_status :=
                if SubmissionStatus_eqb (status res) Accepted then Passed
                else Failed;
              error := orUndefined (stderr res) (compile_output res) |})
      results 0
  with
  | Thrown => (Threw, st)
  | Returned newRunResults =>
      let firstError := List.find isErrorStatus results in
      (Completed,
       {| user := user st;
          activeCodingProblem := activeCodingProblem st;
          language := language st;
          code := code st;
          isExecuting := false;
          runResults := Some newRunResults;
          submissionResults := submissionResults st;
          overallSubmissionStatus := overallSubmissionStatus st;
          hint := hint st;
          failureExplanation := failureExplanation st;
          isExplanationLoading := isExplanationLoading st;
          activeResultTab := activeResultTab st;
          isCodingTimerRunning := isCodingTimerRunning st;
          codeError :=
            match firstError with
            | Some res =>
                parseError
                  (orString (compile_output res) (orString (stderr res) []))
            | None => codeError st
            end;
          showSolution := showSolution st |})
  end.

Definition handleSubmitCode_start (st : State) : option (State * PendingCall) :=
  match user st, activeCodingProblem st with
  | Some uid, Some problem =>
      if isExecuting st then None
      else
        let testCasesToSubmit :=
          List.map
            (fun tc =>
               {| stdin := extractInputValue (tc_input tc);
                  case_expectedOutput := Some (tc_output tc) |})
            (testCases problem) in
        Some
          ({| user := user st;
              activeCodingProblem := activeCodingProblem st;
              language := language st;
              code := code st;
              isExecuting := true;
              runResults := None;
              submissionResults := None;
              overallSubmissionStatus := Some Running;
              hint := None;
              failureExplanation := None;
              isExplanationLoading := isExplanationLoading st;
              activeResultTab := SubmitTab;
              isCodingTimerRunning := isCodingTimerRunning st;
              codeError := None;
              showSolution := showSolution st |},
           {| call_kind := SubmitCall;
              call_user := user st;
              call_problem := problem;
              call_language := language st;
              call_code := code st;
              call_cases := testCasesToSubmit |})
  | _, _ => None
  end.

(** [submissionDisplayResults] *)
Definition displayResults (problem : CodingProblem)
    (results : list SubmissionResult) : Outcome (list SubmissionDisplay) :=
  mapWithIndex
    (fun result index =>
       tc <- element (testCases problem) index ;;
       Returned
         {| display_result := result;
            passed := SubmissionStatus_eqb (status result) Accepted;
            display_input := tc_input tc;
            display_expected := tc_output tc |})
    results 0.

Definition firstFailureIndex (results : list SubmissionResult) : Z :=
  findIndex (fun r => negb (SubmissionStatus_eqb (status r) Accepted)) results.

(** [(passedCount / submissionDisplayResults.length) * 100] *)
Definition rawScore (submissionDisplayResults : list SubmissionDisplay)
    : Num.number :=
  let passedCount := List.length (List.filter passed submissionDisplayResults) in
  Num.mul
    (Num.div (Num.ofNat passedCount)
       (Num.ofNat (List.length submissionDisplayResults)))
    (Num.ofZ 100).

Definition resultData (call : PendingCall) (passedAll : bool)
    (submissionDisplayResults : list SubmissionDisplay) : TestResult :=
  {| testId := id (call_problem call);
     test_title := title (call_problem call);
     test_difficulty := difficulty (call_problem call);
     test_language := call_language call;
     codeSubmitted := call_code call;
     test_status := if passedAll then Passed else Failed;
     score := Num.parseFloat_toFixed2 (rawScore submissionDisplayResults) |}.

(** The state after the settings of the resumed [handleSubmitCode]: the
    arguments are the cells that it may set. *)
Definition submitted (st : State) (executing : bool)
    (overall : option SubmissionStatus) (explanationLoading timerRunning : bool)
    (submissionDisplayResults : list SubmissionDisplay)
    (error : option Diagnostic) : State :=
  {| user := user st;
     activeCodingProblem := activeCodingProblem st;
     language := language st;
     code := code st;
     isExecuting := executing;
     runResults := runResults st;
     submissionResults := Some submissionDisplayResults;
     overallSubmissionStatus := overall;
     hint := hint st;
     failureExplanation := failureExplanation st;
     isExplanationLoading := explanationLoading;
     activeResultTab := activeResultTab st;
     isCodingTimerRunning := timerRunning;
     codeError := error;
     showSolution := showSolution st |}.

Definition handleSubmitCode_resume (call : PendingCall)
    (results : list SubmissionResult) (w : World) : Completion * World :=
  let problem := call_problem call in
  let st := ui w in
  match displayResults problem results with
  | Thrown => (Threw, w)
  | Returned submissionDisplayResults =>
      let passedAll := (firstFailureIndex results =? -1)%Z in
      let recorded :=
        handleCodingAttempt_start (call_user call)
          (resultData call passedAll submissionDisplayResults)
          (codingResults w) in
      if passedAll then
        (Completed,
         {| ui := submitted st false (Some Accepted) (isExplanationLoading st)
                    false submissionDisplayResults (codeError st);
            inflight := inflight w;
            codingResults := recorded;
            explanationRequests := explanationRequests w |})
      else
        let index := Z.to_nat (firstFailureIndex results) in
        match nth_error results index with
        | None =>
            (Threw,
             {| ui := submitted st (isExecuting st) (overallSubmissionStatus st)
                        (isExplanationLoading st) (isCodingTimerRunning st)
                        submissionDisplayResults (codeError st);
                inflight := inflight w;
                codingResults := recorded;
                explanationRequests := explanationRequests w |})
        | Some failedResult =>
            let parsed :=
              parseError
                (orString (compile_output failedResult)
                   (orString (stderr failedResult) [])) in
            let error :=
              match parsed with
              | Some d => Some d
              | None => codeError st
              end in
            if SubmissionStatus_eqb (status failedResult) WrongAnswer then
              match nth_error (testCases problem) index with
              | None =>
                  (Threw,
                   {| ui := submitted st (isExecuting st)
                              (Some (status failedResult)) true
                              (isCodingTimerRunning st)
                              submissionDisplayResults error;
                      inflight := inflight w;
                      codingResults := recorded;
                      explanationRequests := explanationRequests w |})
              | Some failedTestCase =>
                  (Completed,
                   {| ui := submitted st false (Some (status failedResult))
                              true (isCodingTimerRunning st)
                              submissionDisplayResults error;
                      inflight := inflight w;
                      codingResults := recorded;
                      explanationRequests :=
                        explanationRequests w
                        ++ [{| failed_input := tc_input failedTestCase;
                               failed_expected := tc_output failedTestCase;
                               failed_actual :=
                                 orString (stdout failedResult) [] |}] |})
              end
            else
              (Completed,
               {| ui := submitted st false (Some (status failedResult))
                          (isExplanationLoading st) (isCodingTimerRunning st)
                          submissionDisplayResults error;
                  inflight := inflight w;
                  codingResults := recorded;
                  explanationRequests := explanationRequests w |})
        end
  end.

(** ** The other handlers that write the cells above *)

Definition Language_eqb (a b : Language) : bool :=
  match a, b with
  | javascript, javascript | python, python | java, java | c, c => true
  | _, _ => false
  end.

(** The effect on [activeCodingProblem, language]: the starter code is
    loaded and what was derived from the former code is cleared. *)
Definition problemOrLanguageChanged (st : State) : State :=
  match activeCodingProblem st with
  | None => st
  | Some problem =>
      {| user := user st;
         activeCodingProblem := activeCodingProblem st;
         language := language st;
         code := starterCode problem (language st);
         isExecuting := isExecuting st;
         runResults := None;
         submissionResults := None;
         overallSubmissionStatus := None;
         hint := None;
         failureExplanation := None;
         isExplanationLoading := isExplanationLoading st;
         activeResultTab := activeResultTab st;
         isCodingTimerRunning := isCodingTimerRunning st;
         codeError := None;
         showSolution := false |}
  end.

Definition setCells (st : State) (problem : option CodingProblem)
    (lang : Language) (newCode : jsstring) (executing timerRunning : bool)
    (explanation : option jsstring) (explanationLoading : bool) : State :=
  {| user := user st;
     activeCodingProblem := problem;
     language := lang;
     code := newCode;
     isExecuting := executing;
     runResults := runResults st;
     submissionResults := submissionResults st;
     overallSubmissionStatus := overallSubmissionStatus st;
     hint := hint st;
     failureExplanation := explanation;
     isExplanationLoading := explanationLoading;
     activeResultTab := activeResultTab st;
     isCodingTimerRunning := timerRunning;
     codeError := codeError st;
     showSolution := showSolution st |}.

(** [handleFetchCodingProblem] up to its [await]: [setIsExecuting(false)]. *)
Definition handleFetchCodingProblem_start (st : State) : State :=
  setCells st (activeCodingProblem st) (language st) (code st) false
    (isCodingTimerRunning st) (failureExplanation st) (isExplanationLoading st).

(** [handleFetchCodingProblem] with the problem generated: the problem is
    set, the timer started, and the effect above runs. *)
Definition handleFetchCodingProblem_resume (fetchedProblem : CodingProblem)
    (st : State) : State :=
  problemOrLanguageChanged
    (setCells st (Some fetchedProblem) (language st) (code st) (isExecuting st)
       true (failureExplanation st) (isExplanationLoading st)).

(** [setLanguage] of the selector: a new value runs the effect. *)
Definition languageSelected (lang : Language) (st : State) : State :=
  if Language_eqb lang (language st) then st
  else
    problemOrLanguageChanged
      (setCells st (activeCodingProblem st) lang (code st) (isExecuting st)
         (isCodingTimerRunning st) (failureExplanation st)
         (isExplanationLoading st)).

(** [setCode] of the editor. *)
Definition codeEdited (newCode : jsstring) (st : State) : State :=
  setCells st (activeCodingProblem st) (language st) newCode (isExecuting st)
    (isCodingTimerRunning st) (failureExplanation st) (isExplanationLoading st).

(** The [then] of the explanation request. *)
Definition explanationArrived (explanation : jsstring) (st : State) : State :=
  setCells st (activeCodingProblem st) (language st) (code st) (isExecuting st)
    (isCodingTimerRunning st) (Some explanation) false.

(** ** The session as a transition system

    One event is one handler run to its next [await], or one answer of the
    oracle with the rest of the handler that awaited it.  [SubmitInvoked] is
    the Submit button as well as the time-out of the coding timer. *)
Inductive Event : Type :=
| RunInvoked : Event
| SubmitInvoked : Event
| OracleReplied : nat -> OracleReply -> Event
| FetchProblemInvoked : Event
| ProblemFetched : CodingProblem -> Event
| LanguageSelected : Language -> Event
| CodeEdited : jsstring -> Event
| ExplanationArrived : jsstring -> Event.

Definition withUi (w : World) (st : State) : World :=
  {| ui := st;
     inflight := inflight w;
     codingResults := codingResults w;
     explanationRequests := explanationRequests w |}.

Definition started (w : World) (r : option (State * PendingCall)) : World :=
  match r with
  | None => w
  | Some (st, call) =>
      {| ui := st;
         inflight := inflight w ++ [call];
         codingResults := codingResults w;
         explanationRequests := explanationRequests w |}
  end.

Fixpoint removeAt {A} (i : nat) (l : list A) : list A :=
  match l, i with
  | [], _ => []
  | _ :: rest, O => rest
  | x :: rest, S j => x :: removeAt j rest
  end.

(** The rest of the handler that awaits [call], once the judge client has
    returned [results]. *)
Definition resume (call : PendingCall) (results : list SubmissionResult)
    (w : World) : Completion * World :=
  match call_kind call with
  | RunCall =>
      let (completion, st) := handleRunCode_resume call results (ui w) in
      (completion, withUi w st)
  | SubmitCall => handleSubmitCode_resume call results w
  end.

(** The answer of the oracle to the evaluation at position [i]: the judge
    client returns or throws, and a throw ends the handler at its [await]. *)
Definition oracleReplied (judge : JudgeClient) (i : nat) (reply : OracleReply)
    (w : World) : Completion * World :=
  match nth_error (inflight w) i with
  | None => (Completed, w)
  | Some call =>
      let w' :=
        {| ui := ui w;
           inflight := removeAt i (inflight w);
           codingResults := codingResults w;
           explanationRequests := explanationRequests w |} in
      match
        judge (call_language call) (call_code call) (call_cases call)
          (call_problem call) reply
      with
      | Thrown => (Threw, w')
      | Returned results => resume call results w'
      end
  end.

Definition step (judge : JudgeClient) (w : World) (e : Event) : World :=
  match e with
  | RunInvoked => started w (handleRunCode_start (ui w))
  | SubmitInvoked => started w (handleSubmitCode_start (ui w))
  | OracleReplied i reply => snd (oracleReplied judge i reply w)
  | FetchProblemInvoked => withUi w (handleFetchCodingProblem_start (ui w))
  | ProblemFetched p => withUi w (handleFetchCodingProblem_resume p (ui w))
  | LanguageSelected lang => withUi w (languageSelected lang (ui w))
  | CodeEdited newCode => withUi w (codeEdited newCode (ui w))
  | ExplanationArrived text => withUi w (explanationArrived text (ui w))
  end.

Definition run (judge : JudgeClient) (w : World) (events : list Event) : World :=
  fold_left (step judge) events w.

(** One Submit from its invocation to the answer of the oracle, with nothing
    in between: [None] when the guard of the handler rejects the invocation. *)
Definition submit (judge : JudgeClient) (w : World) (reply : OracleReply)
    : option (Completion * World) :=
  match handleSubmitCode_start (ui w) with
  | None => None
  | Some (st, call) =>
      let w' := withUi w st in
      match
        judge (call_language call) (call_code call) (call_cases call)
          (call_problem call) reply
      with
      | Thrown => Some (Threw, w')
      | Returned results => Some (handleSubmitCode_resume call results w')
      end
  end.

Definition nl : string := String (ascii_of_nat 10) EmptyString.

(** ** Definitions for the statements

    The notions in which the properties below are stated, and the sample
    session on which they are tried. *)

(** A text without a newline. *)
Definition lineFree (s : jsstring) : Prop := Forall (fun ch => ch <> LF) s.

(** [r.status === 'Accepted'] *)
Definition accepted (r : SubmissionResult) : bool :=
  SubmissionStatus_eqb (status r) Accepted.

(** The overall status in the words of the specification: the status of the
    first result that is not Accepted, and Accepted when there is none. *)
Definition firstFailureStatus (results : list SubmissionResult)
    : SubmissionStatus :=
  match List.find (fun r => negb (accepted r)) results with
  | Some r => status r
  | None => Accepted
  end.

(** Every hidden case of the problem has a result, the one at its index, and
    this result is Accepted. *)
Definition everyHiddenCaseAccepted (problem : CodingProblem)
    (results : list SubmissionResult) : Prop :=
  forall k tc,
    nth_error (testCases problem) k = Some tc ->
    exists r, nth_error results k = Some r /\ status r = Accepted.

(** A result completed with the expected output of the case at its index. *)
Definition withExpectedOutput (cases : list EvaluationCase)
    (res : SubmissionResult) (index : nat) : SubmissionResult :=
  {| status := status res;
     stdout := stdout res;
     expectedOutput :=
       match nth_error cases index with
       | Some tc => case_expectedOutput tc
       | None => None
       end;
     stderr := stderr res;
     compile_output := compile_output res;
     time := time res;
     memory := memory res |}.

(** A result of the oracle with the status [s] and no output. *)
Definition resultOf (s : SubmissionStatus) : SubmissionResult :=
  {| status := s;
     stdout := Some [];
     expectedOutput := None;
     stderr := Some [];
     compile_output := Some [];
     time := Some (js "0.01");
     memory := Some (Num.ofZ 0) |}.

(** A problem with the hidden test cases [cases]. *)
Definition problemWith (cases : list TestCase) : CodingProblem :=
  {| id := js "squares";
     title := js "Square of a number";
     difficulty := Easy;
     description := js "Return the square of n.";
     constraints := [js "0 <= n <= 1000"];
     examples := [{| ex_input := js "n = 2"; ex_output := js "4";
                     ex_explanation := None |}];
     testCases := cases;
     starterCode := fun _ => js "";
     solution := fun _ => js "" |}.

(** A problem with three hidden test cases. *)
Definition squares : CodingProblem :=
  problemWith
    [{| tc_input := js "n = 2"; tc_output := js "4" |};
     {| tc_input := js "n = 3"; tc_output := js "9" |};
     {| tc_input := js "n = 4"; tc_output := js "16" |}].

(** The workspace of a signed-in user on [problem], with nothing running. *)
Definition idleState (problem : CodingProblem) : State :=
  {| user := Some (js "uid-1");
     activeCodingProblem := Some problem;
     language := javascript;
     code := js "return n * n;";
     isExecuting := false;
     runResults := None;
     submissionResults := None;
     overallSubmissionStatus := None;
     hint := None;
     failureExplanation := None;
     isExplanationLoading := false;
     activeResultTab := RunTab;
     isCodingTimerRunning := true;
     codeError := None;
     showSolution := false |}.

Definition idleWorld (problem : CodingProblem) : World :=
  {| ui := idleState problem;
     inflight := [];
     codingResults := [];
     explanationRequests := [] |}.

(** The same Number, bit for bit. *)
Definition sameNumber (x y : Num.number) : bool :=
  match x, y with
  | S754_zero a, S754_zero b => Bool.eqb a b
  | S754_infinity a, S754_infinity b => Bool.eqb a b
  | S754_nan, S754_nan => true
  | S754_finite a m e, S754_finite b m' e' =>
      Bool.eqb a b && Pos.eqb m m' && Z.eqb e e'
  | _, _ => false
  end.

(** The score that the handler computes from the number of passed results
    and the number of results. *)
Definition scoreOf (passedCount total : nat) : Num.number :=
  Num.parseFloat_toFixed2
    (Num.mul (Num.div (Num.ofNat passedCount) (Num.ofNat total)) (Num.ofZ 100)).

(** [passedCount / total * 100] as a real number, rounded to the nearest
    hundredth, a tie upwards: the number of hundredths. *)
Definition roundedHundredths (passedCount total : nat) : Z :=
  (2 * (10000 * Z.of_nat passedCount) + Z.of_nat total) / (2 * Z.of_nat total).

(** The Number that a decimal with two digits after the point denotes. *)
Definition twoDecimals (h : Z) : Num.number := Num.div (Num.ofZ h) (Num.ofZ 100).

Definition scoreAgrees (passedCount total : nat) : bool :=
  sameNumber (scoreOf passedCount total)
    (twoDecimals (roundedHundredths passedCount total)).

(** [f passedCount total] for every total from 1 to [bound] and every count
    up to the total. *)
Definition agreeUpTo (f : nat -> nat -> bool) (bound : nat) : bool :=
  forallb
    (fun total => forallb (fun passedCount => f passedCount total)
                    (seq 0 (S total)))
    (seq 1 bound).

Definition isSubmitCall (call : PendingCall) : bool :=
  match call_kind call with SubmitCall => true | RunCall => false end.

Definition isSubmitInvoked (e : Event) : bool :=
  match e with SubmitInvoked => true | _ => false end.

Definition isFetchProblemInvoked (e : Event) : bool :=
  match e with FetchProblemInvoked => true | _ => false end.

(** Along the events, [handleFetchCodingProblem] is invoked only while no
    evaluation is in flight. *)
Fixpoint fetchesWhileIdle (judge : JudgeClient) (w : World)
    (events : list Event) : bool :=
  match events with
  | [] => true
  | e :: rest =>
      (negb (isFetchProblemInvoked e)
       || match inflight w with [] => true | _ :: _ => false end)
      && fetchesWhileIdle judge (step judge w e) rest
  end.

(** The evaluations in flight are covered by [isExecuting]: there is at most
    one, and the flag is set while there is one. *)
Definition singleFlight (w : World) : Prop :=
  List.length (inflight w) <= 1
  /\ (inflight w <> [] -> isExecuting (ui w) = true).

(** The attempts recorded and the submissions still awaited. *)
Definition attemptsDue (w : World) : nat :=
  List.length (codingResults w)
  + List.length (List.filter isSubmitCall (inflight w)).

(** Another problem, with one hidden test case. *)
Definition cubes : CodingProblem :=
  {| id := js "cubes";
     title := js "Cube of a number";
     difficulty := Medium;
     description := js "Return the cube of n.";
     constraints := [];
     examples := [];
     testCases := [{| tc_input := js "n = 2"; tc_output := js "8" |}];
     starterCode := fun _ => js "";
     solution := fun _ => js "" |}.

(** The trace of C8: a Submit, the way back to the choice of a difficulty,
    where [handleFetchCodingProblem] resets [isExecuting], a new problem and
    a Submit on it; then the first answer arrives and a third Submit
    follows. *)
Definition overlappingSubmits : list Event :=
  [SubmitInvoked; FetchProblemInvoked; ProblemFetched cubes;
   SubmitInvoked].

Definition overlappingSubmitsOfOneProblem : list Event :=
  overlappingSubmits
  ++ [OracleReplied 0
        (OracleResults [resultOf Accepted; resultOf Accepted; resultOf Accepted])].

(** The greedy iteration of a one-character matcher, written directly: the
    longer run is tried before the continuation at the present position. *)
Fixpoint tryRun {A} (p : code_unit -> bool)
    (c : jsstring -> captures -> option A) (caps : captures) (y : jsstring)
    : option A :=
  match y with
  | ch :: y' =>
      if p ch then orElse (tryRun p c caps y') (c y caps) else c y caps
  | [] => c y caps
  end.

(** The match of the whole pattern at the head of a text, as the captures
    that it leaves. *)
Definition capturesAt (s : jsstring) : option captures :=
  match shapePath s with
  | Some ds => Some [(1, ds)]
  | None =>
      match shapeLine true s with
      | Some ds => Some [(2, ds)]
      | None =>
          match shapeBracket true s with
          | Some ds => Some [(3, ds)]
          | None => None
          end
      end
  end.

(** The continuation at the end of the pattern: the match succeeds. *)
Definition finalContinuation : jsstring -> captures -> option captures :=
  fun _ caps => Some caps.

Definition pathClassAgrees (n : nat) : bool :=
  Bool.eqb (classMatches pathClass (N.of_nat n)) (isPathChar (N.of_nat n)).

(** The characters that the class of the expression lists. *)
Definition pathClassMembers : list code_unit :=
  flat_map (fun r : code_unit * code_unit => range (fst r) (snd r)) pathClass.

(** The line number that [parseError] reads from the groups of a match. *)
Definition lineOf (m : captures) : Num.number :=
  parseInt10
    (orUndefined (orUndefined (capture 1 m) (capture 2 m)) (capture 3 m)).

(** ** Further code of the repository

    The remaining definitions embed code that the properties of the second
    part are about: [truncateText] of the Gemini service, the performance
    summary of the Firestore service, the hint handler and the quiz handlers
    of TestBuddy, and the clock of the timer. *)

(** A text that does not begin with white space. *)
Definition startsClean (s : jsstring) : Prop :=
  match s with
  | [] => True
  | ch :: _ => isWhiteSpace ch = false
  end.

(** A text without white space at either end. *)
Definition trimmedText (s : jsstring) : Prop :=
  startsClean s /\ startsClean (rev s).

(** [s.slice(start)]: a negative start counts from the end. *)
Definition slice (start : Z) (s : jsstring) : jsstring :=
  let len := Z.of_nat (List.length s) in
  let from := if (start <? 0)%Z then Z.max (len + start) 0 else Z.min start len in
  skipn (Z.to_nat from) s.

(** [truncateText] ([services/geminiService]): "Truncates text to a maximum
    length, taking the end of the string." *)
Definition truncateText (text : jsstring) (maxLength : Z) : jsstring :=
  if (Z.of_nat (List.length text) <=? maxLength)%Z then text
  else slice (- maxLength) text.

(** The [truncateText] of the other Gemini service, which returns the empty
    string for a falsy text first. *)
Definition truncateTextGuarded (text : jsstring) (maxLength : Z) : jsstring :=
  if negb (truthy text) then []
  else if (Z.of_nat (List.length text) <=? maxLength)%Z then text
  else slice (- maxLength) text.

(** One Run from its invocation to the answer of the oracle, with nothing in
    between: [None] when the guard of the handler rejects the invocation. *)
Definition runExamples (judge : JudgeClient) (w : World) (reply : OracleReply)
    : option (Completion * World) :=
  match handleRunCode_start (ui w) with
  | None => None
  | Some (st, call) =>
      match
        judge (call_language call) (call_code call) (call_cases call)
          (call_problem call) reply
      with
      | Thrown => Some (Threw, withUi w st)
      | Returned results =>
          let (completion, st') := handleRunCode_resume call results st in
          Some (completion, withUi w st')
      end
  end.

(** [firstError.compile_output || firstError.stderr || ''], the text that
    both handlers give to [parseError]. *)
Definition errorText (res : SubmissionResult) : jsstring :=
  orString (compile_output res) (orString (stderr res) []).

(** The element of [runResults] for the result [res] and the example
    [example]. *)
Definition runResultOf (example : Example) (res : SubmissionResult)
    : TestCaseResult :=
  {| run_input := ex_input example;
     run_expectedOutput := ex_output example;
     userOutput :=
       orString (compile_output res)
         (orString (stderr res) (orString (stdout res) (js "No output")));
     run_status :=
       if SubmissionStatus_eqb (status res) Accepted then Passed else Failed;
     error := orUndefined (stderr res) (compile_output res) |}.

(** The element of [submissionResults] for the result [res] and the hidden
    case [tc]. *)
Definition displayOf (tc : TestCase) (res : SubmissionResult)
    : SubmissionDisplay :=
  {| display_result := res;
     passed := SubmissionStatus_eqb (status res) Accepted;
     display_input := tc_input tc;
     display_expected := tc_output tc |}.

(** The events of the editor and of the advisory call: they start and end no
    evaluation. *)
Definition isEdit (e : Event) : bool :=
  match e with
  | CodeEdited _ | LanguageSelected _ | ExplanationArrived _ => true
  | _ => false
  end.

(** ** [getUserPerformanceSummary] ([services/firebaseService]): the
       problems solved

    [codingResultsRef.get()] reads the documents of the collection of one
    user; a [Set] of strings holds each string once. *)
Definition sameString (a b : jsstring) : bool :=
  if list_eq_dec N.eq_dec a b then true else false.

(** [new Set(values).size] *)
Definition setSize (values : list jsstring) : nat :=
  List.length (nodup (list_eq_dec N.eq_dec) values).

Definition codingTestsOf (uid : Uid) (docs : list CodingResultDoc)
    : list TestResult :=
  List.map doc_result
    (List.filter (fun d => sameString (doc_uid d) uid) docs).

(** [test.status === 'Passed'] *)
Definition isPassed (test : TestResult) : bool :=
  match test_status test with
  | Passed => true
  | Failed => false
  end.

Definition problemsSolved (uid : Uid) (docs : list CodingResultDoc) : nat :=
  let codingTests := codingTestsOf uid docs in
  let passedTests := List.filter isPassed codingTests in
  setSize (List.map testId passedTests).

(** The user [uid] has a Passed attempt at the problem [problemId]. *)
Definition solvedBefore (uid : Uid) (problemId : jsstring)
    (docs : list CodingResultDoc) : bool :=
  existsb (fun test => isPassed test && sameString (testId test) problemId)
    (codingTestsOf uid docs).

(** ** [handleGetHint] (TestBuddy.tsx) and [generateCodeHint]
       ([services/geminiService])

    [isHintLoading] is the cell of that name; the handler is followed up to
    its [await]. *)
Record HintCall : Type := {
  hint_problem : CodingProblem;
  hint_userCode : jsstring;
  hint_failedTest : FailedTest
}.

Definition setHint (st : State) (text : option jsstring) : State :=
  {| user := user st;
     activeCodingProblem := activeCodingProblem st;
     language := language st;
     code := code st;
     isExecuting := isExecuting st;
     runResults := runResults st;
     submissionResults := submissionResults st;
     overallSubmissionStatus := overallSubmissionStatus st;
     hint := text;
     failureExplanation := failureExplanation st;
     isExplanationLoading := isExplanationLoading st;
     activeResultTab := activeResultTab st;
     isCodingTimerRunning := isCodingTimerRunning st;
     codeError := codeError st;
     showSolution := showSolution st |}.

(** The handler up to its [await]: the cells after [setIsHintLoading(true)]
    and [setHint('')], and the call of [generateCodeHint]; [None] when it
    returns before. *)
Definition handleGetHint_start (st : State) (isHintLoading : bool)
    : option (State * bool * HintCall) :=
  match activeCodingProblem st with
  | None => None
  | Some problem =>
      if isHintLoading then None
      else
        match submissionResults st with
        | None => None
        | Some results =>
            if (List.length results =? 0)%nat then None
            else
              match List.find (fun r => negb (passed r)) results with
              | None => None
              | Some failedTest =>
                  Some
                    (setHint st (Some []), true,
                     {| hint_problem := problem;
                        hint_userCode := code st;
                        hint_failedTest :=
                          {| failed_input := display_input failedTest;
                             failed_expected := display_expected failedTest;
                             failed_actual :=
                               orString (stdout (display_result failedTest))
                                 [] |} |})
              end
        end
  end.

(** ** The multiple-choice test of TestBuddy (TestBuddy.tsx, [App],
       [services/firebaseService])

    [userAnswers] is a [Record<number, string>]: an object whose keys are
    array indices, enumerated in ascending order of the index.  A value is
    the [selectedAnswer] of the moment, [null] or a string; reading a key
    that is not there gives [undefined]. *)
Record QuizQuestion : Type := {
  questionText : jsstring;
  options : list jsstring;
  correctAnswer : jsstring;
  question_explanation : jsstring
}.

Definition Answers : Type := list (nat * option jsstring).

(** [{ ...answers, [key]: value }] *)
Fixpoint withAnswer (answers : Answers) (key : nat) (value : option jsstring)
    : Answers :=
  match answers with
  | [] => [(key, value)]
  | (k, v) :: rest =>
      if key <? k then (key, value) :: (k, v) :: rest
      else if key =? k then (key, value) :: rest
      else (k, v) :: withAnswer rest key value
  end.

(** [answers[index]] *)
Fixpoint answerAt (answers : Answers) (index : nat)
    : option (option jsstring) :=
  match answers with
  | [] => None
  | (k, v) :: rest => if index =? k then Some v else answerAt rest index
  end.

(** [Object.values(answers)] *)
Definition objectValues (answers : Answers) : list (option jsstring) :=
  List.map snd answers.

(** [answer === correct] for an answer that is [null] or a string. *)
Definition isAnswer (answer : option jsstring) (correct : jsstring) : bool :=
  match answer with
  | Some s => sameString s correct
  | None => false
  end.

(** The text of an integer in a template literal. *)
Definition integerText (z : Z) : jsstring :=
  js (DecimalString.NilZero.string_of_int (Z.to_int z)).

(** What [finishMcq] hands to [onMcqComplete]: a [QuizResult] without
    [quizId] and [attemptedAt]. *)
Record QuizResultData : Type := {
  quiz_title : jsstring;
  quiz_difficulty : CodingProblemDifficulty;
  questions : nat;
  correctAnswers : nat;
  wrongAnswers : Z;
  quiz_score : Num.number;
  timeTaken : jsstring
}.

Record QuizResultDoc : Type := {
  quiz_uid : Uid;
  quiz_result : QuizResultData;
  quiz_attemptedAt : FieldValue
}.

(** [saveQuizResult] and [handleMcqCompletion] ([App], the [onMcqComplete]
    of TestBuddy, not awaited) are split at the [await] of the [add] like
    the recorder of the attempts: the [quizResults] of a session are the
    documents handed to [add]. *)
Definition saveQuizResult_start (uid : Uid) (result : QuizResultData)
    (quizResults : list QuizResultDoc) : list QuizResultDoc :=
  let newQuizResult :=
    {| quiz_uid := uid; quiz_result := result;
       quiz_attemptedAt := serverTimestamp |} in
  quizResults ++ [newQuizResult].

Definition handleMcqCompletion_start (user : option Uid)
    (result : QuizResultData) (quizResults : list QuizResultDoc)
    : list QuizResultDoc :=
  match user with
  | None => quizResults
  | Some uid => saveQuizResult_start uid result quizResults
  end.

Definition saveQuizResult_resume (outcome : WriteOutcome)
    (doc : QuizResultDoc) (collection : list QuizResultDoc)
    : Outcome (list QuizResultDoc) :=
  match outcome with
  | Fulfilled => Returned (collection ++ [doc])
  | Rejected => Thrown
  end.

(** The [catch] of [handleMcqCompletion] logs the rejection. *)
Definition handleMcqCompletion_resume (outcome : WriteOutcome)
    (doc : QuizResultDoc) (collection : list QuizResultDoc)
    : list QuizResultDoc :=
  tryCatch (saveQuizResult_resume outcome doc collection) collection.

Inductive TestBuddyView : Type :=
| initial | mcq | mcq_results | coding_difficulty | coding_workspace.

(** The cells of the multiple-choice test and the [user] of the
    authentication context; a time is a number of milliseconds, the
    [getTime()] of a [Date]. *)
Record McqState : Type := {
  view : TestBuddyView;
  mcq_user : option Uid;
  mcqQuestions : list QuizQuestion;
  mcqTopic : jsstring;
  mcqDifficulty : CodingProblemDifficulty;
  currentMcqIndex : nat;
  selectedAnswer : option jsstring;
  userAnswers : Answers;
  isMcqTimerRunning : bool;
  mcqStartTime : option Z
}.

Record McqWorld : Type := {
  mcq_ui : McqState;
  quizResults : list QuizResultDoc
}.

(** The state with the cells that the handlers of a running test set. *)
Definition mcqCells (st : McqState) (v : TestBuddyView) (index : nat)
    (selected : option jsstring) (answers : Answers) (timerRunning : bool)
    : McqState :=
  {| view := v;
     mcq_user := mcq_user st;
     mcqQuestions := mcqQuestions st;
     mcqTopic := mcqTopic st;
     mcqDifficulty := mcqDifficulty st;
     currentMcqIndex := index;
     selectedAnswer := selected;
     userAnswers := answers;
     isMcqTimerRunning := timerRunning;
     mcqStartTime := mcqStartTime st |}.

(** [handleStartMcq] after its [await], when [generateQuiz] has returned. *)
Definition handleStartMcq_resume (generated : list QuizQuestion)
    (topic : jsstring) (difficulty : CodingProblemDifficulty) (now : Z)
    (st : McqState) : McqState :=
  {| view := mcq;
     mcq_user := mcq_user st;
     mcqQuestions := generated;
     mcqTopic := topic;
     mcqDifficulty := difficulty;
     currentMcqIndex := 0;
     selectedAnswer := None;
     userAnswers := [];
     isMcqTimerRunning := true;
     mcqStartTime := Some now |}.

(** The [forEach] of [finishMcq]: [score++] for each question whose answer
    is the correct one. *)
Fixpoint countCorrect (remaining : list QuizQuestion) (index : nat)
    (finalAnswers : Answers) (score : nat) : nat :=
  match remaining with
  | [] => score
  | q :: rest =>
      countCorrect rest (S index) finalAnswers
        (match answerAt finalAnswers index with
         | Some answer =>
             if isAnswer answer (correctAnswer q) then S score else score
         | None => score
         end)
  end.

(** [`${minutes}m ${seconds}s`] *)
Definition timeTakenText (minutes seconds : Z) : jsstring :=
  integerText minutes ++ js "m " ++ integerText seconds ++ js "s".

(** [endTime.getTime() - (mcqStartTime?.getTime() || endTime.getTime())]:
    a start time of 0 is as good as none. *)
Definition timeDiffOf (startTime : option Z) (endTime : Z) : Z :=
  (endTime
   - match startTime with
     | Some t => if t =? 0 then endTime else t
     | None => endTime
     end)%Z.

(** [finishMcq(finalAnswers)] at the time [endTime].  The divisions and
    [Math.floor] are the ones of the integers, the remainder has the sign of
    the dividend. *)
Definition finishMcq (finalAnswers : Answers) (endTime : Z) (w : McqWorld)
    : McqWorld :=
  let st := mcq_ui w in
  let score := countCorrect (mcqQuestions st) 0 finalAnswers 0 in
  let recorded :=
    match mcq_user st with
    | Some _ =>
        let timeDiff := timeDiffOf (mcqStartTime st) endTime in
        let minutes := (timeDiff / 60000)%Z in
        let seconds := (Z.rem timeDiff 60000 / 1000)%Z in
        let result :=
          {| quiz_title := mcqTopic st;
             quiz_difficulty := mcqDifficulty st;
             questions := List.length (mcqQuestions st);
             correctAnswers := score;
             wrongAnswers :=
               (Z.of_nat (List.length (mcqQuestions st)) - Z.of_nat score)%Z;
             quiz_score :=
               Num.parseFloat_toFixed2
                 (Num.mul
                    (Num.div (Num.ofNat score)
                       (Num.ofNat (List.length (mcqQuestions st))))
                    (Num.ofZ 100));
             timeTaken := timeTakenText minutes seconds |} in
        handleMcqCompletion_start (mcq_user st) result (quizResults w)
    | None => quizResults w
    end in
  {| mcq_ui :=
       mcqCells st mcq_results (currentMcqIndex st) (selectedAnswer st)
         (userAnswers st) false;
     quizResults := recorded |}.

Definition handleNextQuestion (now : Z) (w : McqWorld) : McqWorld :=
  let st := mcq_ui w in
  let newAnswers :=
    withAnswer (userAnswers st) (currentMcqIndex st) (selectedAnswer st) in
  if (Z.of_nat (currentMcqIndex st)
      <? Z.of_nat (List.length (mcqQuestions st)) - 1)%Z
  then
    {| mcq_ui :=
         mcqCells st (view st) (S (currentMcqIndex st)) None newAnswers
           (isMcqTimerRunning st);
       quizResults := quizResults w |}
  else
    finishMcq newAnswers now
      {| mcq_ui :=
           mcqCells st (view st) (currentMcqIndex st) None newAnswers
             (isMcqTimerRunning st);
         quizResults := quizResults w |}.

(** [array.filter((x, index) => f(x, index))] with a callback that may
    throw. *)
Fixpoint filterWithIndex {A} (f : A -> nat -> Outcome bool) (l : list A)
    (index : nat) : Outcome (list A) :=
  match l with
  | [] => Returned []
  | x :: rest =>
      keep <- f x index ;;
      kept <- filterWithIndex f rest (S index) ;;
      Returned (if keep then x :: kept else kept)
  end.

(** The [score] of [renderMcqResults]. *)
Definition renderMcqResults_score (st : McqState) : Outcome nat :=
  kept <-
    filterWithIndex
      (fun answer index =>
         q <- element (mcqQuestions st) index ;;
         Returned (isAnswer answer (correctAnswer q)))
      (objectValues (userAnswers st)) 0 ;;
  Returned (List.length kept).

(** The events of the test.  [renderMcq] shows a question, its options, the
    Next button and the timer when the view is [mcq] and there is a
    question; the button is disabled while no answer is selected, and the
    timer calls [finishMcq(userAnswers)] when it runs out while
    [isMcqTimerRunning] is set.  [BackToHome] is the button of the results
    page, [resetState]. *)
Inductive McqEvent : Type :=
| QuizGenerated :
    list QuizQuestion -> jsstring -> CodingProblemDifficulty -> Z -> McqEvent
| OptionSelected : jsstring -> McqEvent
| NextClicked : Z -> McqEvent
| McqTimedOut : Z -> McqEvent
| BackToHome : McqEvent.

Definition questionShown (st : McqState) : option QuizQuestion :=
  match view st, mcqQuestions st with
  | mcq, _ :: _ => nth_error (mcqQuestions st) (currentMcqIndex st)
  | _, _ => None
  end.

Definition truthyAnswer (answer : option jsstring) : bool :=
  match answer with
  | Some s => truthy s
  | None => false
  end.

Definition mcqStep (w : McqWorld) (e : McqEvent) : McqWorld :=
  let st := mcq_ui w in
  match e with
  | QuizGenerated generated topic difficulty now =>
      {| mcq_ui := handleStartMcq_resume generated topic difficulty now st;
         quizResults := quizResults w |}
  | OptionSelected option =>
      match questionShown st with
      | Some question =>
          if existsb (sameString option) (options question) then
            {| mcq_ui :=
                 mcqCells st (view st) (currentMcqIndex st) (Some option)
                   (userAnswers st) (isMcqTimerRunning st);
               quizResults := quizResults w |}
          else w
      | None => w
      end
  | NextClicked now =>
      match questionShown st with
      | Some _ =>
          if truthyAnswer (selectedAnswer st) then handleNextQuestion now w
          else w
      | None => w
      end
  | McqTimedOut now =>
      match questionShown st with
      | Some _ =>
          if isMcqTimerRunning st then finishMcq (userAnswers st) now w else w
      | None => w
      end
  | BackToHome =>
      match view st with
      | mcq_results =>
          {| mcq_ui :=
               mcqCells st initial (currentMcqIndex st) (selectedAnswer st)
                 (userAnswers st) (isMcqTimerRunning st);
             quizResults := quizResults w |}
      | _ => w
      end
  end.

Definition mcqRun (w : McqWorld) (events : list McqEvent) : McqWorld :=
  fold_left mcqStep events w.

(** TestBuddy as it is mounted: the initial values of the cells. *)
Definition mounted (user : option Uid) : McqWorld :=
  {| mcq_ui :=
       {| view := initial;
          mcq_user := user;
          mcqQuestions := [];
          mcqTopic := [];
          mcqDifficulty := Easy;
          currentMcqIndex := 0;
          selectedAnswer := None;
          userAnswers := [];
          isMcqTimerRunning := false;
          mcqStartTime := None |};
     quizResults := [] |}.

(** The answers given are the ones to the questions before [count]. *)
Definition answeredUpTo (answers : Answers) (count : nat) : Prop :=
  List.map fst answers = seq 0 count.

Definition mcqConsistent (st : McqState) : Prop :=
  match view st with
  | mcq =>
      answeredUpTo (userAnswers st) (currentMcqIndex st)
      /\ (mcqQuestions st = []
          \/ currentMcqIndex st < List.length (mcqQuestions st))
  | mcq_results =>
      exists count,
        answeredUpTo (userAnswers st) count
        /\ count <= List.length (mcqQuestions st)
  | _ => True
  end.

Definition isQuizGenerated (e : McqEvent) : bool :=
  match e with
  | QuizGenerated _ _ _ _ => true
  | _ => false
  end.

(** A question with the options a, b and c, of which [correct] is right. *)
Definition questionWith (correct : string) : QuizQuestion :=
  {| questionText := js "Which one?";
     options := [js "a"; js "b"; js "c"];
     correctAnswer := js correct;
     question_explanation := js "" |}.

(** The number of positions at which the value is the correct answer of the
    question at that position. *)
Fixpoint matching (values : list (option jsstring))
    (remaining : list QuizQuestion) : nat :=
  match values, remaining with
  | answer :: values', q :: rest =>
      (if isAnswer answer (correctAnswer q) then 1 else 0)
      + matching values' rest
  | _, _ => 0
  end.

(** ** The clock of [Timer] ([components/Timer]) *)

(** [s.padStart(2, '0')] *)
Definition padStart2 (s : jsstring) : jsstring :=
  match s with
  | [] => js "00"
  | [ch] => js "0" ++ [ch]
  | _ => s
  end.

(** [formatTime()] for the value [seconds] of the cell, an integer. *)
Definition formatTime (seconds : Z) : jsstring :=
  let minutes := (seconds / 60)%Z in
  let remainingSeconds := Z.rem seconds 60 in
  padStart2 (integerText minutes) ++ js ":"
  ++ padStart2 (integerText remainingSeconds).

(** The code unit of a decimal digit. *)
Definition digit (d : Z) : code_unit := Z.to_N (48 + d).

Definition COLON : code_unit := 58%N.

Definition twoDigits (n : nat) : bool :=
  sameString (padStart2 (integerText (Z.of_nat n)))
    [digit (Z.of_nat n / 10); digit (Z.of_nat n mod 10)].

(** The answers recorded are options of their questions, and the answer
    selected is an option of the question shown. *)
Definition answersValid (st : McqState) : Prop :=
  (forall k answer,
      In (k, answer) (userAnswers st) ->
      exists q s,
        nth_error (mcqQuestions st) k = Some q
        /\ answer = Some s /\ s <> [] /\ In s (options q))
  /\ (view st = mcq ->
      forall s,
        selectedAnswer st = Some s ->
        exists q,
          nth_error (mcqQuestions st) (currentMcqIndex st) = Some q
          /\ In s (options q)).

(** * Properties *)

Unset Implicit Arguments.

(** ** Strings: [split], [join] and [trim] *)

Lemma split_not_nil (sep : code_unit) (s : jsstring) : split sep s <> [].
Proof.
  induction s as [|ch r IH]; simpl; [discriminate|].
  destruct (ch =? sep)%N; [discriminate|].
  destruct (split sep r); [contradiction | discriminate].
Qed.

Lemma split_app (sep : code_unit) (a b : jsstring) :
  split sep (a ++ sep :: b) = split sep a ++ split sep b.
Proof.
  induction a as [|ch r IH]; simpl.
  - now rewrite N.eqb_refl.
  - destruct (ch =? sep)%N.
    + now rewrite IH.
    + rewrite IH.
      pose proof (split_not_nil sep r) as Hnil.
      destruct (split sep r); [contradiction | reflexivity].
Qed.

Lemma split_lineFree (s : jsstring) : Forall lineFree (split LF s).
Proof.
  induction s as [|ch r IH]; simpl.
  - repeat constructor.
  - destruct (N.eqb_spec ch LF) as [->|Hne].
    + constructor; [constructor | exact IH].
    + destruct (split LF r) as [|l ls]; [repeat constructor; assumption|].
      inversion IH; subst. constructor; [constructor|]; assumption.
Qed.

Lemma split_of_lineFree (s : jsstring) : lineFree s -> split LF s = [s].
Proof.
  induction 1 as [|ch r Hch _ IH]; simpl; [reflexivity|].
  destruct (N.eqb_spec ch LF) as [->|_]; [contradiction|].
  now rewrite IH.
Qed.

Lemma join_cons (sep : jsstring) (p : jsstring) (ps : list jsstring) :
  ps <> [] -> join sep (p :: ps) = p ++ sep ++ join sep ps.
Proof. destruct ps; [contradiction | reflexivity]. Qed.

Lemma join_app (sep : jsstring) (l1 l2 : list jsstring) :
  l1 <> [] -> l2 <> [] ->
  join sep (l1 ++ l2) = join sep l1 ++ sep ++ join sep l2.
Proof.
  induction l1 as [|p ps IH]; intros H1 H2; [contradiction|].
  destruct ps as [|q qs].
  - simpl app. rewrite join_cons by assumption. reflexivity.
  - change ((p :: q :: qs) ++ l2) with (p :: ((q :: qs) ++ l2)).
    rewrite join_cons by discriminate.
    rewrite IH by (assumption || discriminate).
    rewrite (join_cons sep p (q :: qs)) by discriminate.
    now rewrite <- !app_assoc.
Qed.

Lemma split_join (ls : list jsstring) :
  ls <> [] -> Forall lineFree ls -> split LF (join [LF] ls) = ls.
Proof.
  induction ls as [|p ps IH]; intros Hne Hall; [contradiction|].
  inversion Hall as [|? ? Hp Hps]; subst.
  destruct ps as [|q qs].
  - simpl. now apply split_of_lineFree.
  - rewrite join_cons by discriminate.
    change (p ++ [LF] ++ join [LF] (q :: qs))
      with (p ++ LF :: join [LF] (q :: qs)).
    rewrite split_app, IH by (assumption || discriminate).
    now rewrite split_of_lineFree.
Qed.

Lemma trimStart_lineFree (s : jsstring) : lineFree s -> lineFree (trimStart s).
Proof.
  induction 1 as [|ch r Hch Hr IH]; simpl; [constructor|].
  destruct (isWhiteSpace ch); [exact IH | now constructor].
Qed.

Lemma rev_lineFree (s : jsstring) : lineFree s -> lineFree (rev s).
Proof.
  unfold lineFree. rewrite !Forall_forall.
  intros H x Hx. apply H. now apply in_rev.
Qed.

Lemma trim_lineFree (s : jsstring) : lineFree s -> lineFree (trim s).
Proof.
  intros H. unfold trim, trimEnd.
  now apply rev_lineFree, trimStart_lineFree, rev_lineFree, trimStart_lineFree.
Qed.

Lemma skipn_lineFree (n : nat) (s : jsstring) :
  lineFree s -> lineFree (skipn n s).
Proof.
  revert s. induction n as [|n IH]; intros s H; [exact H|].
  destruct s as [|ch r]; [constructor|].
  simpl. apply IH. now inversion H.
Qed.

(** ** [extractInputValue] *)

Lemma indexOf_from_value (line : jsstring) (i : Z) :
  (0 <= i)%Z ->
  match valueAfterFirstEquals line with
  | Some v =>
      (i <= indexOf_from EQUALS line i)%Z
      /\ skipn (Z.to_nat (indexOf_from EQUALS line i + 1 - i)) line = v
  | None => indexOf_from EQUALS line i = (-1)%Z
  end.
Proof.
  revert i. induction line as [|ch r IH]; intros i Hi; simpl; [reflexivity|].
  destruct (ch =? EQUALS)%N.
  - split; [lia|]. replace (i + 1 - i)%Z with 1%Z by lia. reflexivity.
  - specialize (IH (i + 1)%Z ltac:(lia)).
    destruct (valueAfterFirstEquals r) as [v|]; [|exact IH].
    destruct IH as [Hle Hskip]. split; [lia|].
    replace (Z.to_nat (indexOf_from EQUALS r (i + 1) + 1 - i))
      with (S (Z.to_nat (indexOf_from EQUALS r (i + 1) + 1 - (i + 1))))
      by lia.
    exact Hskip.
Qed.

Lemma strippedLine_forwardedLine (line : jsstring) :
  strippedLine line = forwardedLine line.
Proof.
  unfold strippedLine, forwardedLine, indexOf, substring.
  pose proof (indexOf_from_value line 0 ltac:(lia)) as H.
  destruct (valueAfterFirstEquals line) as [v|].
  - destruct H as [Hle Hskip].
    destruct (Z.gtb_spec (indexOf_from EQUALS line 0) (-1)); [|lia].
    rewrite Z.sub_0_r in Hskip. now rewrite Hskip.
  - rewrite H. reflexivity.
Qed.

Lemma extractInputValue_lines (input : jsstring) :
  extractInputValue input
  = join [LF] (List.map forwardedLine (split LF input)).
Proof.
  unfold extractInputValue. f_equal.
  apply map_ext. exact strippedLine_forwardedLine.
Qed.

Lemma valueAfterFirstEquals_found (pre post : jsstring) :
  ~ In EQUALS pre ->
  valueAfterFirstEquals (pre ++ EQUALS :: post) = Some post.
Proof.
  induction pre as [|ch r IH]; intros Hnot; simpl.
  - reflexivity.
  - destruct (N.eqb_spec ch EQUALS) as [->|_].
    + exfalso. apply Hnot. now left.
    + apply IH. intros Hin. apply Hnot. now right.
Qed.

Lemma valueAfterFirstEquals_none (line : jsstring) :
  ~ In EQUALS line -> valueAfterFirstEquals line = None.
Proof.
  induction line as [|ch r IH]; intros Hnot; simpl; [reflexivity|].
  destruct (N.eqb_spec ch EQUALS) as [->|_].
  - exfalso. apply Hnot. now left.
  - apply IH. intros Hin. apply Hnot. now right.
Qed.

Lemma forwardedLine_lineFree (line : jsstring) :
  lineFree line -> lineFree (forwardedLine line).
Proof.
  intros H. rewrite <- strippedLine_forwardedLine.
  unfold strippedLine, substring.
  destruct (_ >? _)%Z; now apply trim_lineFree; try apply skipn_lineFree.
Qed.

(** C9: every line of the input is forwarded by the rule of the
    specification: of a line with [=] the trimmed value after the first [=],
    of a line without [=] the trimmed line; the lines of the input joined by
    a newline are stripped one by one; and the two inputs of the
    specification give the two outputs it states. *)
Theorem C9_input_stripping :
  (forall input : jsstring,
     extractInputValue input
     = join [LF] (List.map forwardedLine (split LF input)))
  /\ (forall lines : list jsstring,
        lines <> [] -> Forall lineFree lines ->
        extractInputValue (join [LF] lines)
        = join [LF] (List.map forwardedLine lines))
  /\ (forall pre post : jsstring,
        ~ In EQUALS pre -> forwardedLine (pre ++ EQUALS :: post) = trim post)
  /\ (forall line : jsstring, ~ In EQUALS line -> forwardedLine line = trim line)
  /\ extractInputValue (js ("nums = [1,2,3]" ++ nl ++ "target = 5"))
     = js ("[1,2,3]" ++ nl ++ "5")
  /\ extractInputValue (js "[1,2,3]") = js "[1,2,3]".
Proof.
  split; [exact extractInputValue_lines|].
  split.
  { intros lines Hne Hall.
    now rewrite extractInputValue_lines, split_join. }
  split.
  { intros pre post Hnot. unfold forwardedLine.
    now rewrite valueAfterFirstEquals_found. }
  split.
  { intros line Hnot. unfold forwardedLine.
    now rewrite valueAfterFirstEquals_none. }
  split; reflexivity.
Qed.

Lemma C9_input_stripping_witness :
  extractInputValue (join [LF] [js "a = 1"; js " b "])
  = join [LF] (List.map forwardedLine [js "a = 1"; js " b "])
  /\ forwardedLine (js "nums " ++ EQUALS :: js " [1,2,3]") = js "[1,2,3]"
  /\ forwardedLine (js " 42 ") = js "42".
Proof.
  destruct C9_input_stripping as (_ & Hlines & Hvalue & Hbare & _).
  split.
  { apply Hlines; [discriminate|].
    repeat constructor; discriminate. }
  split.
  { rewrite Hvalue; [reflexivity|].
    simpl. intros [H|[H|[H|[H|[H|H]]]]]; try discriminate; exact H. }
  rewrite Hbare; [reflexivity|].
  simpl. intros [H|[H|[H|[H|H]]]]; try discriminate; exact H.
Defined.

(** C10: the output of [extractInputValue] has as many lines as its input,
    and stripping two texts joined by a newline is stripping each of them. *)
Theorem C10_line_structure :
  (forall input : jsstring,
     List.length (split LF (extractInputValue input))
     = List.length (split LF input))
  /\ (forall a b : jsstring,
        extractInputValue (a ++ LF :: b)
        = extractInputValue a ++ LF :: extractInputValue b).
Proof.
  split.
  - intros input. rewrite extractInputValue_lines, split_join.
    + apply length_map.
    + intros H. apply map_eq_nil in H. now apply split_not_nil in H.
    + pose proof (split_lineFree input) as Hall.
      induction Hall; simpl; constructor; auto using forwardedLine_lineFree.
  - intros a b. rewrite !extractInputValue_lines, split_app, map_app.
    rewrite join_app.
    + reflexivity.
    + intros H. apply map_eq_nil in H. now apply split_not_nil in H.
    + intros H. apply map_eq_nil in H. now apply split_not_nil in H.
Qed.

(** ** [handleSubmitCode]: the aggregation of the results *)

Lemma SubmissionStatus_eqb_eq (a b : SubmissionStatus) :
  SubmissionStatus_eqb a b = true <-> a = b.
Proof. destruct a, b; simpl; split; intros H; congruence. Qed.

Lemma mapWithIndex_returned {A B} (f : A -> nat -> Outcome B) (g : A -> nat -> B)
    (l : list A) (bound : nat) :
  (forall x i, i < bound -> f x i = Returned (g x i)) ->
  forall index, index + List.length l <= bound ->
  exists ys,
    mapWithIndex f l index = Returned ys
    /\ List.length ys = List.length l
    /\ forall k x, nth_error l k = Some x ->
                   nth_error ys k = Some (g x (index + k)).
Proof.
  intros Hf. induction l as [|x rest IH]; intros index Hlen; simpl in *.
  - exists []. repeat split; auto. intros [|k] x H; discriminate.
  - rewrite Hf by lia. simpl.
    destruct (IH (S index) ltac:(lia)) as (ys & -> & Hl & Hnth). simpl.
    exists (g x index :: ys). repeat split; [simpl; lia|].
    intros [|k] y Hy; simpl in *.
    + injection Hy as <-. now rewrite Nat.add_0_r.
    + rewrite (Hnth k y Hy). f_equal. f_equal. lia.
Qed.

Lemma mapWithIndex_thrown {A B} (f : A -> nat -> Outcome B) (l : list A)
    (bound : nat) :
  (forall x i, bound <= i -> f x i = Thrown) ->
  forall index, index <= bound -> bound < index + List.length l ->
  mapWithIndex f l index = Thrown.
Proof.
  intros Hf. induction l as [|x rest IH]; intros index Hle0 Hlen; simpl in *.
  - lia.
  - destruct (f x index) as [y|] eqn:Hy; [|reflexivity]. simpl.
    destruct (Nat.le_gt_cases bound index) as [Hle|Hgt].
    + rewrite Hf in Hy by assumption. discriminate.
    + rewrite IH by lia. reflexivity.
Qed.

Lemma element_in_range {A} (l : list A) (i : nat) :
  i < List.length l -> exists x, element l i = Returned x /\ nth_error l i = Some x.
Proof.
  intros H. unfold element.
  destruct (nth_error l i) as [x|] eqn:E; [now exists x|].
  apply nth_error_None in E. lia.
Qed.

Lemma element_out_of_range {A} (l : list A) (i : nat) :
  List.length l <= i -> element l i = Thrown.
Proof.
  intros H. unfold element. now apply nth_error_None in H as ->.
Qed.

(** [submissionDisplayResults] exists exactly when the judge returned no more
    results than the problem has hidden cases. *)
Lemma displayResults_returned (problem : CodingProblem)
    (results : list SubmissionResult) :
  List.length results <= List.length (testCases problem) ->
  exists ds,
    displayResults problem results = Returned ds
    /\ List.map passed ds = List.map accepted results.
Proof.
  revert results.
  enough (H : forall results index,
             index + List.length results <= List.length (testCases problem) ->
             exists ds,
               mapWithIndex
                 (fun result index =>
                    tc <- element (testCases problem) index ;;
                    Returned
                      {| display_result := result;
                         passed := SubmissionStatus_eqb (status result) Accepted;
                         display_input := tc_input tc;
                         display_expected := tc_output tc |})
                 results index = Returned ds
               /\ List.map passed ds = List.map accepted results).
  { intros results Hlen. exact (H results 0 Hlen). }
  induction results as [|r rest IH]; intros index Hlen; simpl in *.
  - exists []. split; reflexivity.
  - destruct (element_in_range (testCases problem) index ltac:(lia))
      as (tc & -> & _). simpl.
    destruct (IH (S index) ltac:(lia)) as (ds & -> & Hmap). simpl.
    eexists. split; [reflexivity|]. simpl. now rewrite Hmap.
Qed.

Lemma displayResults_thrown (problem : CodingProblem)
    (results : list SubmissionResult) :
  List.length (testCases problem) < List.length results ->
  displayResults problem results = Thrown.
Proof.
  intros Hlen. unfold displayResults.
  apply mapWithIndex_thrown with (bound := List.length (testCases problem)).
  - intros x i Hi. now rewrite element_out_of_range.
  - lia.
  - simpl. exact Hlen.
Qed.

Lemma findIndex_from_find {A} (p : A -> bool) (l : list A) (i : Z) :
  (0 <= i)%Z ->
  match List.find p l with
  | Some x =>
      (i <= findIndex_from p l i)%Z
      /\ nth_error l (Z.to_nat (findIndex_from p l i - i)) = Some x
  | None => findIndex_from p l i = (-1)%Z
  end.
Proof.
  revert i. induction l as [|x rest IH]; intros i Hi; simpl; [reflexivity|].
  destruct (p x).
  - split; [lia|]. now rewrite Z.sub_diag.
  - specialize (IH (i + 1)%Z ltac:(lia)).
    destruct (List.find p rest) as [y|]; [|exact IH].
    destruct IH as [Hle Hnth]. split; [lia|].
    replace (Z.to_nat (findIndex_from p rest (i + 1) - i))
      with (S (Z.to_nat (findIndex_from p rest (i + 1) - (i + 1)))) by lia.
    exact Hnth.
Qed.

Lemma firstFailureIndex_find (results : list SubmissionResult) :
  match List.find (fun r => negb (accepted r)) results with
  | Some r =>
      (firstFailureIndex results =? -1)%Z = false
      /\ nth_error results (Z.to_nat (firstFailureIndex results)) = Some r
  | None => (firstFailureIndex results =? -1)%Z = true
  end.
Proof.
  unfold firstFailureIndex, findIndex.
  pose proof (findIndex_from_find (fun r => negb (accepted r)) results 0
                ltac:(lia)) as H.
  unfold accepted in *.
  destruct (List.find _ results) as [r|].
  - destruct H as [Hle Hnth]. rewrite Z.sub_0_r in Hnth.
    split; [apply Z.eqb_neq; lia | exact Hnth].
  - rewrite H. reflexivity.
Qed.

Lemma find_none_all_accepted (results : list SubmissionResult) :
  List.find (fun r => negb (accepted r)) results = None
  <-> Forall (fun r => status r = Accepted) results.
Proof.
  induction results as [|r rest IH]; simpl.
  - split; intros; constructor.
  - unfold accepted at 1.
    destruct (SubmissionStatus_eqb (status r) Accepted) eqn:E; simpl.
    + apply SubmissionStatus_eqb_eq in E. rewrite IH.
      split; intros H; [constructor; assumption | now inversion H].
    + split; [discriminate|]. intros H. inversion H as [|? ? Hr _]; subst.
      apply SubmissionStatus_eqb_eq in Hr. congruence.
Qed.

Lemma firstFailureStatus_first (pre post : list SubmissionResult)
    (r : SubmissionResult) :
  Forall (fun x => status x = Accepted) pre -> status r <> Accepted ->
  firstFailureStatus (pre ++ r :: post) = status r.
Proof.
  intros Hpre Hr. unfold firstFailureStatus.
  induction Hpre as [|x pre Hx _ IH]; simpl.
  - unfold accepted.
    destruct (SubmissionStatus_eqb (status r) Accepted) eqn:E; [|reflexivity].
    apply SubmissionStatus_eqb_eq in E. contradiction.
  - unfold accepted at 1. rewrite Hx. simpl. exact IH.
Qed.

Lemma firstFailureStatus_all_accepted (results : list SubmissionResult) :
  Forall (fun r => status r = Accepted) results ->
  firstFailureStatus results = Accepted.
Proof.
  intros H. apply find_none_all_accepted in H.
  unfold firstFailureStatus. now rewrite H.
Qed.

Lemma firstFailureStatus_accepted_iff (results : list SubmissionResult) :
  firstFailureStatus results = Accepted
  <-> Forall (fun r => status r = Accepted) results.
Proof.
  split; [|apply firstFailureStatus_all_accepted].
  rewrite <- find_none_all_accepted. unfold firstFailureStatus.
  destruct (List.find _ results) as [r|] eqn:E; [|reflexivity].
  apply find_some in E as [_ Hr]. unfold accepted in Hr.
  intros Hs. rewrite Hs in Hr. discriminate.
Qed.

Lemma passedAll_iff (results : list SubmissionResult) :
  (firstFailureIndex results =? -1)%Z = true
  <-> Forall (fun r => status r = Accepted) results.
Proof.
  rewrite <- find_none_all_accepted.
  pose proof (firstFailureIndex_find results) as H.
  destruct (List.find _ results) as [r|].
  - destruct H as [-> _]. split; discriminate.
  - rewrite H. split; reflexivity.
Qed.

(** The resumed [handleSubmitCode] runs to its end whenever
    [submissionDisplayResults] could be built, and then: the overall status is
    the first failure's, the recorder was called once with [resultData], and
    the evaluation is over. *)
Lemma handleSubmitCode_resume_completed (call : PendingCall)
    (results : list SubmissionResult) (w : World) :
  List.length results <= List.length (testCases (call_problem call)) ->
  exists ds w',
    displayResults (call_problem call) results = Returned ds
    /\ handleSubmitCode_resume call results w = (Completed, w')
    /\ overallSubmissionStatus (ui w') = Some (firstFailureStatus results)
    /\ codingResults w'
       = handleCodingAttempt_start (call_user call)
           (resultData call (firstFailureIndex results =? -1)%Z ds)
           (codingResults w)
    /\ submissionResults (ui w') = Some ds
    /\ isExecuting (ui w') = false
    /\ inflight w' = inflight w.
Proof.
  intros Hlen.
  destruct (displayResults_returned (call_problem call) results Hlen)
    as (ds & Hds & _).
  exists ds. unfold handleSubmitCode_resume. rewrite Hds.
  pose proof (firstFailureIndex_find results) as Hfind.
  unfold firstFailureStatus.
  destruct (List.find _ results) as [r|].
  - destruct Hfind as [-> Hnth]. rewrite Hnth.
    assert (Hcase : exists tc,
               nth_error (testCases (call_problem call))
                 (Z.to_nat (firstFailureIndex results)) = Some tc).
    { destruct (nth_error (testCases (call_problem call))
                  (Z.to_nat (firstFailureIndex results))) as [tc|] eqn:E;
        [now exists tc|].
      apply nth_error_None in E.
      assert (Z.to_nat (firstFailureIndex results) < List.length results)
        by (apply nth_error_Some; congruence).
      lia. }
    destruct Hcase as (tc & ->).
    destruct (SubmissionStatus_eqb (status r) WrongAnswer);
      eexists; repeat split; reflexivity.
  - rewrite Hfind. eexists; repeat split; reflexivity.
Qed.

(** With more results than hidden cases the handler throws while it builds
    [submissionDisplayResults]: nothing is set and nothing is recorded. *)
Lemma handleSubmitCode_resume_threw (call : PendingCall)
    (results : list SubmissionResult) (w : World) :
  List.length (testCases (call_problem call)) < List.length results ->
  handleSubmitCode_resume call results w = (Threw, w).
Proof.
  intros Hlen. unfold handleSubmitCode_resume.
  now rewrite displayResults_thrown.
Qed.

Lemma handleSubmitCode_resume_completed_length (call : PendingCall)
    (results : list SubmissionResult) (w w' : World) :
  handleSubmitCode_resume call results w = (Completed, w') ->
  List.length results <= List.length (testCases (call_problem call)).
Proof.
  intros H.
  destruct (Nat.le_gt_cases (List.length results)
              (List.length (testCases (call_problem call)))) as [Hle|Hgt];
    [exact Hle|].
  rewrite handleSubmitCode_resume_threw in H by assumption. discriminate.
Qed.

(** ** The judge client with the fallback *)

(** The three ways of the judge client with the fallback: a failed call or a
    reply with more results than cases gives one synthetic result per case; a
    reply with no more results than cases is returned result by result. *)
Lemma fallback_cases (lang : Language) (sourceCode : jsstring)
    (cases : list EvaluationCase) (problem : CodingProblem)
    (reply : OracleReply) :
  exists results,
    JudgeWithFallback.evaluateCodeWithAI lang sourceCode cases problem reply
    = Returned results
    /\ match reply with
       | OracleFailure => results = List.map (fun _ => evaluationFailed) cases
       | OracleResults replied =>
           if List.length replied <=? List.length cases then
             List.length results = List.length replied
             /\ forall k res, nth_error replied k = Some res ->
                  nth_error results k = Some (withExpectedOutput cases res k)
           else results = List.map (fun _ => evaluationFailed) cases
       end.
Proof.
  unfold JudgeWithFallback.evaluateCodeWithAI.
  eexists. split; [reflexivity|].
  destruct reply as [|replied]; simpl; [reflexivity|].
  destruct (Nat.leb_spec (List.length replied) (List.length cases))
    as [Hle|Hgt].
  - edestruct (@mapWithIndex_returned SubmissionResult SubmissionResult)
      with (g := withExpectedOutput cases) (l := replied)
           (bound := List.length cases) (index := 0)
      as (ys & Hys & Hl & Hnth); [| exact Hle | rewrite Hys; simpl; auto].
    intros x i Hi. unfold withExpectedOutput.
    destruct (element_in_range cases i Hi) as (tc & -> & ->). reflexivity.
  - rewrite mapWithIndex_thrown with (bound := List.length cases).
    + reflexivity.
    + intros x i Hi. now rewrite element_out_of_range.
    + lia.
    + exact Hgt.
Qed.

Lemma fallback_returns (lang : Language) (sourceCode : jsstring)
    (cases : list EvaluationCase) (problem : CodingProblem)
    (reply : OracleReply) :
  exists results,
    JudgeWithFallback.evaluateCodeWithAI lang sourceCode cases problem reply
    = Returned results
    /\ List.length results <= List.length cases.
Proof.
  destruct (fallback_cases lang sourceCode cases problem reply)
    as (results & Hret & Hcases).
  exists results. split; [exact Hret|].
  destruct reply as [|replied].
  - subst. now rewrite length_map.
  - destruct (Nat.leb_spec (List.length replied) (List.length cases)).
    + destruct Hcases as [-> _]. assumption.
    + subst. now rewrite length_map.
Qed.

Lemma submit_start_cases (st st' : State) (call : PendingCall) :
  handleSubmitCode_start st = Some (st', call) ->
  exists uid,
    user st = Some uid
    /\ activeCodingProblem st = Some (call_problem call)
    /\ isExecuting st = false
    /\ call_user call = Some uid
    /\ call_kind call = SubmitCall
    /\ List.length (call_cases call)
       = List.length (testCases (call_problem call))
    /\ isExecuting st' = true
    /\ overallSubmissionStatus st' = Some Running.
Proof.
  unfold handleSubmitCode_start. intros H.
  destruct (user st) as [uid|]; [|discriminate].
  destruct (activeCodingProblem st) as [problem|]; [|discriminate].
  destruct (isExecuting st); [discriminate|].
  injection H as <- <-. exists uid. simpl.
  repeat split; auto. now rewrite length_map.
Qed.

(** ** A sample session *)

(** ** C1 and C2: the overall status and the recorded attempt *)

Lemma submit_fallback_completed (w : World) (reply : OracleReply)
    (st : State) (call : PendingCall) :
  handleSubmitCode_start (ui w) = Some (st, call) ->
  exists results ds w',
    JudgeWithFallback.evaluateCodeWithAI (call_language call) (call_code call)
      (call_cases call) (call_problem call) reply = Returned results
    /\ displayResults (call_problem call) results = Returned ds
    /\ submit JudgeWithFallback.evaluateCodeWithAI w reply
       = Some (Completed, w')
    /\ overallSubmissionStatus (ui w') = Some (firstFailureStatus results)
    /\ codingResults w'
       = handleCodingAttempt_start (call_user call)
           (resultData call (firstFailureIndex results =? -1)%Z ds)
           (codingResults w)
    /\ inflight w' = inflight w.
Proof.
  intros Hstart.
  destruct (submit_start_cases _ _ _ Hstart)
    as (uid & _ & _ & _ & _ & _ & Hlen & _).
  destruct (fallback_returns (call_language call) (call_code call)
              (call_cases call) (call_problem call) reply)
    as (results & Hjudge & Hle).
  rewrite Hlen in Hle.
  destruct (handleSubmitCode_resume_completed call results (withUi w st) Hle)
    as (ds & w' & Hds & Hres & Hov & Hrec & _ & _ & Hin).
  exists results, ds, w'. unfold submit. rewrite Hstart, Hjudge, Hres.
  simpl in Hrec, Hin. repeat split; assumption.
Qed.

Lemma submit_completed_inv (judge : JudgeClient) (w w' : World)
    (reply : OracleReply) :
  submit judge w reply = Some (Completed, w') ->
  exists uid st call results ds,
    handleSubmitCode_start (ui w) = Some (st, call)
    /\ user (ui w) = Some uid
    /\ judge (call_language call) (call_code call) (call_cases call)
         (call_problem call) reply = Returned results
    /\ displayResults (call_problem call) results = Returned ds
    /\ codingResults w'
       = codingResults w
         ++ [{| doc_uid := uid;
                doc_result :=
                  resultData call (firstFailureIndex results =? -1)%Z ds;
                attemptedAt := serverTimestamp |}]
    /\ overallSubmissionStatus (ui w') = Some (firstFailureStatus results).
Proof.
  unfold submit. intros H.
  destruct (handleSubmitCode_start (ui w)) as [[st call]|] eqn:Hstart;
    [|discriminate].
  destruct (submit_start_cases _ _ _ Hstart)
    as (uid & Huser & _ & _ & Hcu & _).
  destruct (judge _ _ _ _ reply) as [results|] eqn:Hjudge; [|discriminate].
  injection H as H.
  pose proof (handleSubmitCode_resume_completed_length _ _ _ _ H) as Hlen.
  destruct (handleSubmitCode_resume_completed call results (withUi w st) Hlen)
    as (ds & w2 & Hds & Hres & Hov & Hrec & _).
  rewrite H in Hres. injection Hres as <-.
  exists uid, st, call, results, ds.
  rewrite Hcu in Hrec. simpl in Hrec.
  repeat split; assumption.
Qed.

(** C1: the overall status that a Submit ends with is the status of the
    first result, in the order of the response of the judge client, that is
    not Accepted, and Accepted when every result is.  A Submit runs to its
    end whenever the judge client returns no more results than the problem
    has hidden cases, which the judge client with the fallback always does;
    and the results Accepted, Wrong Answer, Runtime Error give Wrong
    Answer. *)
Theorem C1_first_failure_status :
  (forall (judge : JudgeClient) (w w' : World) (reply : OracleReply),
     submit judge w reply = Some (Completed, w') ->
     exists st call results,
       handleSubmitCode_start (ui w) = Some (st, call)
       /\ judge (call_language call) (call_code call) (call_cases call)
            (call_problem call) reply = Returned results
       /\ overallSubmissionStatus (ui w') = Some (firstFailureStatus results))
  /\ (forall (call : PendingCall) (results : list SubmissionResult) (w : World),
     List.length results <= List.length (testCases (call_problem call)) ->
     exists w',
       handleSubmitCode_resume call results w = (Completed, w')
       /\ overallSubmissionStatus (ui w') = Some (firstFailureStatus results))
  /\ (forall (w : World) (reply : OracleReply) st call,
        handleSubmitCode_start (ui w) = Some (st, call) ->
        exists results w',
          JudgeWithFallback.evaluateCodeWithAI (call_language call)
            (call_code call) (call_cases call) (call_problem call) reply
          = Returned results
          /\ submit JudgeWithFallback.evaluateCodeWithAI w reply
             = Some (Completed, w')
          /\ overallSubmissionStatus (ui w')
             = Some (firstFailureStatus results))
  /\ (forall pre post r,
        Forall (fun x => status x = Accepted) pre -> status r <> Accepted ->
        firstFailureStatus (pre ++ r :: post) = status r)
  /\ (forall results,
        Forall (fun r => status r = Accepted) results ->
        firstFailureStatus results = Accepted)
  /\ (exists w',
        submit JudgeWithFallback.evaluateCodeWithAI (idleWorld squares)
          (OracleResults
             [resultOf Accepted; resultOf WrongAnswer; resultOf RuntimeError])
        = Some (Completed, w')
        /\ overallSubmissionStatus (ui w') = Some WrongAnswer).
Proof.
  split.
  { intros judge w w' reply H.
    destruct (submit_completed_inv judge w w' reply H)
      as (uid & st & call & results & ds & Hstart & _ & Hj & _ & _ & Hov).
    now exists st, call, results. }
  split.
  { intros call results w Hlen.
    destruct (handleSubmitCode_resume_completed call results w Hlen)
      as (ds & w' & _ & Hres & Hov & _).
    now exists w'. }
  split.
  { intros w reply st call Hstart.
    destruct (submit_fallback_completed w reply st call Hstart)
      as (results & ds & w' & Hj & _ & Hs & Hov & _).
    now exists results, w'. }
  split; [intros; now apply firstFailureStatus_first|].
  split; [exact firstFailureStatus_all_accepted|].
  eexists. split; reflexivity.
Qed.

Lemma C1_first_failure_status_witness :
  (exists w',
     handleSubmitCode_resume
       {| call_kind := SubmitCall; call_user := Some (js "uid-1");
          call_problem := squares; call_language := javascript;
          call_code := js "return n * n;"; call_cases := [] |}
       [resultOf Accepted; resultOf TimeLimitExceeded; resultOf WrongAnswer]
       (idleWorld squares) = (Completed, w')
     /\ overallSubmissionStatus (ui w') = Some TimeLimitExceeded)
  /\ firstFailureStatus
       ([resultOf Accepted] ++ resultOf RuntimeError :: [resultOf WrongAnswer])
     = RuntimeError.
Proof.
  destruct C1_first_failure_status as (_ & Hresume & _ & Hfirst & _).
  split.
  - apply (Hresume
             {| call_kind := SubmitCall; call_user := Some (js "uid-1");
                call_problem := squares; call_language := javascript;
                call_code := js "return n * n;"; call_cases := [] |}
             [resultOf Accepted; resultOf TimeLimitExceeded;
              resultOf WrongAnswer]
             (idleWorld squares)).
    simpl. lia.
  - apply (Hfirst [resultOf Accepted] [resultOf WrongAnswer]
             (resultOf RuntimeError)).
    + repeat constructor.
    + discriminate.
Defined.

Lemma hiddenCases_accepted (problem : CodingProblem)
    (results : list SubmissionResult) :
  List.length results <= List.length (testCases problem) ->
  everyHiddenCaseAccepted problem results ->
  Forall (fun r => status r = Accepted) results.
Proof.
  intros Hlen Hall. apply Forall_forall. intros r Hin.
  apply In_nth_error in Hin as (k & Hk).
  assert (Hlt : k < List.length results)
    by (apply nth_error_Some; congruence).
  destruct (nth_error (testCases problem) k) as [tc|] eqn:Htc;
    [|apply nth_error_None in Htc; lia].
  destruct (Hall k tc Htc) as (r' & Hr' & Hacc). congruence.
Qed.

Lemma accepted_hiddenCases (problem : CodingProblem)
    (results : list SubmissionResult) :
  List.length results = List.length (testCases problem) ->
  Forall (fun r => status r = Accepted) results ->
  everyHiddenCaseAccepted problem results.
Proof.
  intros Hlen Hall k tc Htc.
  assert (Hlt : k < List.length (testCases problem))
    by (apply nth_error_Some; congruence).
  destruct (nth_error results k) as [r|] eqn:Hr;
    [|apply nth_error_None in Hr; lia].
  exists r. split; [reflexivity|].
  rewrite Forall_forall in Hall. apply Hall.
  eapply nth_error_In. exact Hr.
Qed.

(** Against C2 as stated: on a problem with three hidden cases and a reply
    of the oracle without any result, the judge client returns no result,
    the Submit runs to its end and the one attempt handed to the recorder
    has the status Passed, although no hidden case has an Accepted result. *)
Lemma C2_counterexample_unanswered_cases_pass :
  exists st call results w' doc,
    handleSubmitCode_start (ui (idleWorld squares)) = Some (st, call)
    /\ JudgeWithFallback.evaluateCodeWithAI (call_language call)
         (call_code call) (call_cases call) (call_problem call)
         (OracleResults []) = Returned results
    /\ List.length (testCases (call_problem call)) = 3
    /\ submit JudgeWithFallback.evaluateCodeWithAI (idleWorld squares)
         (OracleResults []) = Some (Completed, w')
    /\ codingResults w' = [doc]
    /\ test_status (doc_result doc) = Passed
    /\ ~ everyHiddenCaseAccepted (call_problem call) results.
Proof.
  do 5 eexists. repeat (split; [reflexivity|]).
  intros Hall. destruct (Hall 0 _ eq_refl) as (r & Hr & _). discriminate Hr.
Qed.

(** C2: a Submit that runs to its end hands exactly one document to the
    recorder, for the user and the problem of the submission, with the
    submitted code; its status is Passed exactly when every result that the
    judge client returned is Accepted, which is when the overall status is
    Accepted, and Failed otherwise.  The judge client returns at most one
    result per hidden case: the status is Passed whenever every hidden case
    has an Accepted result, and when there is a result for every hidden
    case it is Passed exactly then.  The document is in the collection when
    its [add] is fulfilled; a rejected [add] is caught and leaves the
    collection as it was.  With the judge client with the fallback every
    Submit that passes the guard of the handler runs to its end. *)
Theorem C2_one_attempt_per_submit :
  (forall (judge : JudgeClient) (w w' : World) (reply : OracleReply),
     submit judge w reply = Some (Completed, w') ->
     exists uid st call results doc,
       handleSubmitCode_start (ui w) = Some (st, call)
       /\ user (ui w) = Some uid
       /\ judge (call_language call) (call_code call) (call_cases call)
            (call_problem call) reply = Returned results
       /\ codingResults w' = codingResults w ++ [doc]
       /\ doc_uid doc = uid
       /\ testId (doc_result doc) = id (call_problem call)
       /\ codeSubmitted (doc_result doc) = code (ui w)
       /\ (test_status (doc_result doc) = Passed
           <-> Forall (fun r => status r = Accepted) results)
       /\ (test_status (doc_result doc) = Failed
           <-> ~ Forall (fun r => status r = Accepted) results)
       /\ (test_status (doc_result doc) = Passed
           <-> overallSubmissionStatus (ui w') = Some Accepted)
       /\ List.length results <= List.length (testCases (call_problem call))
       /\ (everyHiddenCaseAccepted (call_problem call) results ->
           test_status (doc_result doc) = Passed)
       /\ (List.length results = List.length (testCases (call_problem call)) ->
           (test_status (doc_result doc) = Passed
            <-> everyHiddenCaseAccepted (call_problem call) results))
       /\ (forall collection : list CodingResultDoc,
             handleCodingAttempt_resume Fulfilled doc collection
             = collection ++ [doc]
             /\ handleCodingAttempt_resume Rejected doc collection
                = collection))
  /\ (forall (w : World) (reply : OracleReply) st call,
        handleSubmitCode_start (ui w) = Some (st, call) ->
        exists w',
          submit JudgeWithFallback.evaluateCodeWithAI w reply
          = Some (Completed, w')).
Proof.
  split.
  - intros judge w w' reply H.
    destruct (submit_completed_inv judge w w' reply H)
      as (uid & st & call & results & ds & Hstart & Huser & Hj & Hds & Hrec
          & Hov).
    assert (Hlen : List.length results
                   <= List.length (testCases (call_problem call))).
    { destruct (Nat.le_gt_cases (List.length results)
                  (List.length (testCases (call_problem call))))
        as [Hle|Hgt]; [exact Hle|].
      rewrite (displayResults_thrown _ _ Hgt) in Hds. discriminate Hds. }
    exists uid, st, call, results. eexists.
    split; [exact Hstart|]. split; [exact Huser|]. split; [exact Hj|].
    split; [exact Hrec|]. simpl.
    split; [reflexivity|]. split; [reflexivity|].
    split.
    { unfold handleSubmitCode_start in Hstart.
      destruct (user (ui w)); [|discriminate].
      destruct (activeCodingProblem (ui w)); [|discriminate].
      destruct (isExecuting (ui w)); [discriminate|].
      now injection Hstart as <- <-. }
    rewrite Hov.
    assert (Hacc : Some (firstFailureStatus results) = Some Accepted
                   <-> Forall (fun r => status r = Accepted) results).
    { rewrite <- firstFailureStatus_accepted_iff.
      split; [now intros [= ->] | now intros ->]. }
    assert (Hthree :
              ((if (firstFailureIndex results =? -1)%Z then Passed else Failed)
               = Passed
               <-> Forall (fun r => status r = Accepted) results)
              /\ ((if (firstFailureIndex results =? -1)%Z
                   then Passed else Failed) = Failed
                  <-> ~ Forall (fun r => status r = Accepted) results)
              /\ ((if (firstFailureIndex results =? -1)%Z
                   then Passed else Failed) = Passed
                  <-> Some (firstFailureStatus results) = Some Accepted)).
    { rewrite Hacc, <- passedAll_iff.
      destruct (firstFailureIndex results =? -1)%Z; repeat split;
        congruence. }
    destruct Hthree as (Hpassed & Hfailed & Hoverall).
    split; [exact Hpassed|]. split; [exact Hfailed|].
    split; [exact Hoverall|]. split; [exact Hlen|].
    split.
    { intros Hall. apply Hpassed.
      now apply hiddenCases_accepted with (problem := call_problem call). }
    split.
    { intros Heq. rewrite Hpassed. split.
      - now apply accepted_hiddenCases.
      - now apply hiddenCases_accepted. }
    intros collection. split; reflexivity.
  - intros w reply st call Hstart.
    destruct (submit_fallback_completed w reply st call Hstart)
      as (results & ds & w' & _ & _ & Hs & _).
    now exists w'.
Qed.

Lemma C2_one_attempt_per_submit_witness :
  exists w' doc,
    submit JudgeWithFallback.evaluateCodeWithAI (idleWorld squares)
      (OracleResults
         [resultOf Accepted; resultOf Accepted; resultOf WrongAnswer])
    = Some (Completed, w')
    /\ codingResults w' = codingResults (idleWorld squares) ++ [doc]
    /\ test_status (doc_result doc) = Failed.
Proof.
  destruct C2_one_attempt_per_submit as [Hone _].
  eexists.
  destruct (Hone JudgeWithFallback.evaluateCodeWithAI (idleWorld squares) _
              (OracleResults
                 [resultOf Accepted; resultOf Accepted; resultOf WrongAnswer])
              eq_refl)
    as (uid & st & call & results & doc & Hstart & _ & Hj & Hrec & _ & _ & _
        & _ & Hfailed & _).
  exists doc. split; [reflexivity|]. split; [exact Hrec|].
  apply Hfailed.
  injection Hstart as <- <-. injection Hj as <-.
  intros Hall. inversion Hall as [|? ? _ H1]; subst.
  inversion H1 as [|? ? _ H2]; subst.
  inversion H2 as [|? ? H3 _]; subst. discriminate H3.
Defined.

(** ** C3: a problem without hidden cases *)

(** C3: on a problem whose list of hidden cases is empty, whatever the oracle
    answers, Submit runs to its end with the overall status Accepted and
    records one attempt with the status Passed; the score of the attempt is
    [0 / 0 * 100], which is NaN and not 100. *)
Theorem C3_empty_hidden_cases_score_is_NaN :
  forall reply : OracleReply,
  exists w' doc,
    submit JudgeWithFallback.evaluateCodeWithAI (idleWorld (problemWith []))
      reply = Some (Completed, w')
    /\ overallSubmissionStatus (ui w') = Some Accepted
    /\ codingResults w' = [doc]
    /\ test_status (doc_result doc) = Passed
    /\ score (doc_result doc) = Num.NaN
    /\ score (doc_result doc) <> Num.ofZ 100.
Proof.
  intros [|[|r rest]]; do 2 eexists;
    (split; [reflexivity|]); (split; [reflexivity|]);
    (split; [reflexivity|]); (split; [reflexivity|]);
    (split; [reflexivity|]); discriminate.
Qed.

(** ** C5: the oracle fails *)

(** Against C5 as stated: on a problem without hidden cases a failed call of
    the oracle ends in one attempt with the status Passed. *)
Lemma C5_counterexample_empty_list_passes :
  exists w' doc,
    submit JudgeWithFallback.evaluateCodeWithAI (idleWorld (problemWith []))
      OracleFailure = Some (Completed, w')
    /\ codingResults w' = [doc]
    /\ test_status (doc_result doc) = Passed
    /\ test_status (doc_result doc) <> Failed.
Proof.
  do 2 eexists. repeat split; try reflexivity. discriminate.
Qed.

Lemma firstFailureStatus_synthetic (cases : list EvaluationCase) :
  cases <> [] ->
  firstFailureStatus (List.map (fun _ => evaluationFailed) cases)
  = CompilationError
  /\ (firstFailureIndex (List.map (fun _ => evaluationFailed) cases) =? -1)%Z
     = false.
Proof.
  destruct cases as [|tc rest]; [contradiction|]. intros _.
  split; reflexivity.
Qed.

(** C5: when the call of the oracle fails, the judge client with the
    fallback returns one result per requested case, each with the status
    Compilation Error and the compile output "Evaluation failed due to AI
    error."; a Submit on a problem with at least one hidden case then runs to
    its end with the overall status Compilation Error and records exactly one
    attempt, with the status Failed. *)
Theorem C5_oracle_failure_synthetic_results :
  (forall lang sourceCode (cases : list EvaluationCase) problem,
     exists results,
       JudgeWithFallback.evaluateCodeWithAI lang sourceCode cases problem
         OracleFailure = Returned results
       /\ List.length results = List.length cases
       /\ Forall
            (fun r =>
               status r = CompilationError
               /\ compile_output r
                  = Some (js "Evaluation failed due to AI error."))
            results)
  /\ (forall (w : World) st call,
        handleSubmitCode_start (ui w) = Some (st, call) ->
        testCases (call_problem call) <> [] ->
        exists w' doc,
          submit JudgeWithFallback.evaluateCodeWithAI w OracleFailure
          = Some (Completed, w')
          /\ overallSubmissionStatus (ui w') = Some CompilationError
          /\ codingResults w' = codingResults w ++ [doc]
          /\ test_status (doc_result doc) = Failed).
Proof.
  split.
  - intros lang sourceCode cases problem. eexists.
    split; [reflexivity|]. split; [apply length_map|].
    induction cases; simpl; constructor; auto.
  - intros w st call Hstart Hne.
    destruct (submit_fallback_completed w OracleFailure st call Hstart)
      as (results & ds & w' & Hj & _ & Hs & Hov & Hrec & _).
    destruct (submit_start_cases _ _ _ Hstart)
      as (uid & _ & _ & _ & Hcu & _ & Hlen & _).
    assert (Hcases : call_cases call <> []).
    { intros E. rewrite E in Hlen. simpl in Hlen.
      destruct (testCases (call_problem call)); [contradiction|discriminate]. }
    injection Hj as <-.
    destruct (firstFailureStatus_synthetic _ Hcases) as [Hst Hidx].
    rewrite Hst in Hov. rewrite Hidx, Hcu in Hrec.
    exists w'. eexists. split; [exact Hs|]. split; [exact Hov|].
    split; [exact Hrec|]. reflexivity.
Qed.

Lemma C5_oracle_failure_synthetic_results_witness :
  exists w' doc,
    submit JudgeWithFallback.evaluateCodeWithAI (idleWorld squares)
      OracleFailure = Some (Completed, w')
    /\ overallSubmissionStatus (ui w') = Some CompilationError
    /\ codingResults w' = codingResults (idleWorld squares) ++ [doc]
    /\ test_status (doc_result doc) = Failed.
Proof.
  destruct C5_oracle_failure_synthetic_results as [_ Hsubmit].
  eapply (Hsubmit (idleWorld squares)).
  - reflexivity.
  - discriminate.
Defined.

(** ** C6: the length of the response *)

(** Against C6 as stated: for three requested cases and a reply of one
    result the judge client returns one result, and the Submit runs to its
    end on it, with the overall status Accepted and a Passed attempt. *)
Lemma C6_counterexample_short_reply_is_processed :
  exists results w' doc,
    JudgeWithFallback.evaluateCodeWithAI javascript (js "return n * n;")
      (List.map
         (fun tc =>
            {| stdin := extractInputValue (tc_input tc);
               case_expectedOutput := Some (tc_output tc) |})
         (testCases squares))
      squares (OracleResults [resultOf Accepted]) = Returned results
    /\ List.length results = 1
    /\ List.length (testCases squares) = 3
    /\ submit JudgeWithFallback.evaluateCodeWithAI (idleWorld squares)
         (OracleResults [resultOf Accepted]) = Some (Completed, w')
    /\ overallSubmissionStatus (ui w') = Some Accepted
    /\ codingResults w' = [doc]
    /\ test_status (doc_result doc) = Passed.
Proof.
  do 3 eexists. repeat split; reflexivity.
Qed.

(** C6: the judge client with the fallback keeps the order of the reply: a
    reply with no more results than requested cases is returned with the same
    length, the result at every index being the replied one completed with
    the expected output of the case at that index, so that a reply of N
    results for N cases gives N results; a failed call and a reply with more
    results than cases give one synthetic result per case.  The handler of
    Submit has no check of the length: it runs to its end on a list that is
    not longer than the list of hidden cases, also on a shorter one, and it
    throws on a longer one with nothing set and nothing recorded. *)
Theorem C6_response_length :
  (forall lang sourceCode (cases : list EvaluationCase) problem reply,
     exists results,
       JudgeWithFallback.evaluateCodeWithAI lang sourceCode cases problem reply
       = Returned results
       /\ match reply with
          | OracleFailure =>
              results = List.map (fun _ => evaluationFailed) cases
          | OracleResults replied =>
              if List.length replied <=? List.length cases then
                List.length results = List.length replied
                /\ forall k res, nth_error replied k = Some res ->
                     nth_error results k
                     = Some (withExpectedOutput cases res k)
              else results = List.map (fun _ => evaluationFailed) cases
          end)
  /\ (forall (call : PendingCall) (results : list SubmissionResult) (w : World),
        (List.length results <= List.length (testCases (call_problem call)) ->
         exists w', handleSubmitCode_resume call results w = (Completed, w'))
        /\ (List.length (testCases (call_problem call)) < List.length results ->
            handleSubmitCode_resume call results w = (Threw, w))).
Proof.
  split; [exact fallback_cases|].
  intros call results w. split.
  - intros Hlen.
    destruct (handleSubmitCode_resume_completed call results w Hlen)
      as (ds & w' & _ & Hres & _).
    now exists w'.
  - apply handleSubmitCode_resume_threw.
Qed.

Lemma C6_response_length_witness :
  (exists w',
     handleSubmitCode_resume
       {| call_kind := SubmitCall; call_user := Some (js "uid-1");
          call_problem := squares; call_language := javascript;
          call_code := js "return n * n;"; call_cases := [] |}
       [resultOf Accepted; resultOf Accepted] (idleWorld squares)
     = (Completed, w'))
  /\ handleSubmitCode_resume
       {| call_kind := SubmitCall; call_user := Some (js "uid-1");
          call_problem := problemWith []; call_language := javascript;
          call_code := js "return n * n;"; call_cases := [] |}
       [resultOf Accepted] (idleWorld (problemWith []))
     = (Threw, idleWorld (problemWith [])).
Proof.
  destruct C6_response_length as [_ Hhandler].
  split.
  - apply (proj1 (Hhandler _ _ _)). simpl. lia.
  - apply (proj2 (Hhandler _ _ _)). simpl. lia.
Defined.

(** ** C4: the score *)

Lemma sameNumber_eq (x y : Num.number) : sameNumber x y = true -> x = y.
Proof.
  destruct x as [a|a| |a m e], y as [b|b| |b m' e']; simpl;
    try discriminate; try reflexivity.
  - intros H. apply Bool.eqb_prop in H. now subst.
  - intros H. apply Bool.eqb_prop in H. now subst.
  - intros H. apply andb_prop in H as [H He]. apply andb_prop in H as [Hs Hm].
    apply Bool.eqb_prop in Hs. apply Pos.eqb_eq in Hm. apply Z.eqb_eq in He.
    now subst.
Qed.

Lemma agreeUpTo_spec (f : nat -> nat -> bool) (bound : nat) :
  agreeUpTo f bound = true ->
  forall passedCount total,
    0 < total <= bound -> passedCount <= total -> f passedCount total = true.
Proof.
  unfold agreeUpTo. intros H passedCount total Ht Hp.
  rewrite forallb_forall in H.
  specialize (H total ltac:(apply in_seq; lia)).
  rewrite forallb_forall in H.
  apply (H passedCount). apply in_seq. lia.
Qed.

Lemma scoresAgree_159 : agreeUpTo scoreAgrees 159 = true.
Proof. vm_compute. reflexivity. Qed.

Lemma scoreOf_exact (passedCount total : nat) :
  0 < total < 160 -> passedCount <= total ->
  scoreOf passedCount total
  = twoDecimals (roundedHundredths passedCount total).
Proof.
  intros Ht Hp. apply sameNumber_eq.
  change (scoreAgrees passedCount total = true).
  apply (agreeUpTo_spec scoreAgrees 159 scoresAgree_159); lia.
Qed.

Lemma filter_length_map {A B} (f : A -> bool) (g : B -> bool)
    (l1 : list A) (l2 : list B) :
  List.map f l1 = List.map g l2 ->
  List.length (List.filter f l1) = List.length (List.filter g l2)
  /\ List.length l1 = List.length l2.
Proof.
  revert l2. induction l1 as [|x r IH]; intros [|y r2] H; simpl in *;
    try discriminate; [split; reflexivity|].
  injection H as Hxy Hr. destruct (IH r2 Hr) as [Hf Hl].
  rewrite Hxy. destruct (g y); simpl; split; congruence.
Qed.

Lemma rawScore_results (problem : CodingProblem)
    (results : list SubmissionResult) (ds : list SubmissionDisplay) :
  displayResults problem results = Returned ds ->
  Num.parseFloat_toFixed2 (rawScore ds)
  = scoreOf (List.length (List.filter accepted results)) (List.length results).
Proof.
  intros Hds.
  destruct (Nat.le_gt_cases (List.length results)
              (List.length (testCases problem))) as [Hle|Hgt].
  - destruct (displayResults_returned problem results Hle) as (ds' & Hds' & Hmap).
    rewrite Hds in Hds'. injection Hds' as <-.
    destruct (filter_length_map _ _ _ _ Hmap) as [Hf Hl].
    unfold scoreOf, rawScore. now rewrite Hf, Hl.
  - rewrite displayResults_thrown in Hds by assumption. discriminate.
Qed.

(** Against C4 as stated: three hidden cases answered by one Accepted
    result score 100 and not 33.33; and 23 Accepted results out of 160 score
    14.37, while 14.375 rounds to 14.38. *)
Lemma C4_counterexample_score :
  (exists w' doc,
     submit JudgeWithFallback.evaluateCodeWithAI (idleWorld squares)
       (OracleResults [resultOf Accepted]) = Some (Completed, w')
     /\ codingResults w' = [doc]
     /\ List.length (testCases squares) = 3
     /\ score (doc_result doc) = twoDecimals 10000
     /\ score (doc_result doc) <> twoDecimals (roundedHundredths 1 3))
  /\ (exists w' doc,
        submit JudgeWithFallback.evaluateCodeWithAI
          (idleWorld
             (problemWith
                (repeat {| tc_input := js "n = 2"; tc_output := js "4" |} 160)))
          (OracleResults
             (repeat (resultOf Accepted) 23 ++ repeat (resultOf WrongAnswer) 137))
        = Some (Completed, w')
        /\ codingResults w' = [doc]
        /\ score (doc_result doc) = twoDecimals 1437
        /\ roundedHundredths 23 160 = 1438%Z
        /\ score (doc_result doc) <> twoDecimals (roundedHundredths 23 160)).
Proof.
  split.
  - do 2 eexists. split; [vm_compute; reflexivity|].
    split; [reflexivity|]. split; [reflexivity|].
    split; [vm_compute; reflexivity|]. vm_compute. discriminate.
  - do 2 eexists. split; [vm_compute; reflexivity|].
    split; [reflexivity|].
    split; [vm_compute; reflexivity|].
    split; [vm_compute; reflexivity|]. vm_compute. discriminate.
Qed.

(** C4: the score of the attempt that a Submit records is computed from all
    the results that the judge returned, those after the first failure
    included: with [p] the number of Accepted results and [n] the number of
    results it is [p / n * 100] in binary64 arithmetic, printed with two
    decimals and read back.  When there are fewer than 160 results this is
    the exact value of [p / n * 100] rounded to two decimals, a tie upwards;
    5 Accepted results out of 7 give 71.43, also when failures lie between
    the Accepted results. *)
Theorem C4_score_over_all_results :
  (forall (judge : JudgeClient) (w w' : World) (reply : OracleReply),
     submit judge w reply = Some (Completed, w') ->
     exists st call results doc,
       handleSubmitCode_start (ui w) = Some (st, call)
       /\ judge (call_language call) (call_code call) (call_cases call)
            (call_problem call) reply = Returned results
       /\ codingResults w' = codingResults w ++ [doc]
       /\ score (doc_result doc)
          = scoreOf (List.length (List.filter accepted results))
              (List.length results)
       /\ (0 < List.length results < 160 ->
           score (doc_result doc)
           = twoDecimals
               (roundedHundredths
                  (List.length (List.filter accepted results))
                  (List.length results))))
  /\ scoreOf 5 7 = twoDecimals 7143
  /\ (exists w' doc,
        submit JudgeWithFallback.evaluateCodeWithAI
          (idleWorld
             (problemWith
                (repeat {| tc_input := js "n = 2"; tc_output := js "4" |} 7)))
          (OracleResults
             [resultOf Accepted; resultOf WrongAnswer; resultOf Accepted;
              resultOf Accepted; resultOf RuntimeError; resultOf Accepted;
              resultOf Accepted])
        = Some (Completed, w')
        /\ codingResults w' = [doc]
        /\ score (doc_result doc) = twoDecimals 7143).
Proof.
  split.
  - intros judge w w' reply H.
    destruct (submit_completed_inv judge w w' reply H)
      as (uid & st & call & results & ds & Hstart & _ & Hj & Hds & Hrec & _).
    exists st, call, results. eexists.
    split; [exact Hstart|]. split; [exact Hj|]. split; [exact Hrec|].
    simpl. rewrite (rawScore_results _ _ _ Hds).
    split; [reflexivity|].
    intros Hn. apply scoreOf_exact; [exact Hn|]. apply filter_length_le.
  - split; [vm_compute; reflexivity|].
    do 2 eexists. split; [vm_compute; reflexivity|].
    split; [reflexivity|]. vm_compute. reflexivity.
Qed.

Lemma C4_score_over_all_results_witness :
  exists w' doc,
    submit JudgeWithFallback.evaluateCodeWithAI (idleWorld squares)
      (OracleResults [resultOf Accepted; resultOf Accepted; resultOf WrongAnswer])
    = Some (Completed, w')
    /\ codingResults w' = codingResults (idleWorld squares) ++ [doc]
    /\ score (doc_result doc) = twoDecimals 6667.
Proof.
  destruct C4_score_over_all_results as [Hscore _].
  eexists.
  destruct (Hscore JudgeWithFallback.evaluateCodeWithAI (idleWorld squares) _
              (OracleResults
                 [resultOf Accepted; resultOf Accepted; resultOf WrongAnswer])
              eq_refl)
    as (st & call & results & doc & Hstart & Hj & Hrec & _ & Hexact).
  exists doc. split; [reflexivity|]. split; [exact Hrec|].
  injection Hstart as <- <-. injection Hj as <-.
  rewrite Hexact; [reflexivity|]. simpl. lia.
Defined.

(** ** The judge client without the [try], and [submit] as two events *)

(** With the judge client that has no [try], a failed call of the oracle
    ends the handler at its [await]: no attempt is recorded and [isExecuting]
    stays set. *)
Lemma judgeDirect_failure_throws (w : World) (st : State) (call : PendingCall) :
  handleSubmitCode_start (ui w) = Some (st, call) ->
  submit JudgeDirect.evaluateCodeWithAI w OracleFailure
  = Some (Threw, withUi w st)
  /\ codingResults (withUi w st) = codingResults w
  /\ isExecuting (ui (withUi w st)) = true.
Proof.
  intros Hstart. unfold submit. rewrite Hstart. simpl.
  destruct (submit_start_cases _ _ _ Hstart)
    as (uid & _ & _ & _ & _ & _ & _ & Hbusy & _).
  repeat split. exact Hbusy.
Qed.

(** [submit] is the invocation of Submit followed by the answer of the
    oracle, in a session without another evaluation in flight. *)
Lemma submit_as_events (judge : JudgeClient) (w w' : World)
    (reply : OracleReply) (completion : Completion) :
  inflight w = [] ->
  submit judge w reply = Some (completion, w') ->
  run judge w [SubmitInvoked; OracleReplied 0 reply] = w'.
Proof.
  intros Hnil. unfold submit, run. cbn [fold_left step].
  destruct (handleSubmitCode_start (ui w)) as [[st call]|] eqn:Hstart;
    [|discriminate].
  destruct (submit_start_cases _ _ _ Hstart)
    as (uid & _ & _ & _ & _ & Hkind & _).
  unfold started, oracleReplied.
  cbn [inflight ui codingResults explanationRequests].
  rewrite Hnil. cbn [app nth_error removeAt].
  unfold withUi. rewrite Hnil.
  destruct (judge _ _ _ _ reply) as [results|]; intros H.
  - injection H as H. unfold resume. rewrite Hkind, H. reflexivity.
  - injection H as _ <-. reflexivity.
Qed.

(** ** C8: the guard against a second evaluation *)

Lemma handleRunCode_start_cases (st st' : State) (call : PendingCall) :
  handleRunCode_start st = Some (st', call) ->
  isExecuting st = false /\ isExecuting st' = true /\ call_kind call = RunCall.
Proof.
  unfold handleRunCode_start. intros H.
  destruct (activeCodingProblem st); [|discriminate].
  destruct (isExecuting st); [discriminate|].
  injection H as <- <-. repeat split.
Qed.

Lemma handleRunCode_start_rejected (st : State) :
  isExecuting st = true -> handleRunCode_start st = None.
Proof.
  intros H. unfold handleRunCode_start.
  destruct (activeCodingProblem st); [|reflexivity]. now rewrite H.
Qed.

Lemma handleSubmitCode_start_rejected (st : State) :
  isExecuting st = true -> handleSubmitCode_start st = None.
Proof.
  intros H. unfold handleSubmitCode_start.
  destruct (user st); [|reflexivity].
  destruct (activeCodingProblem st); [|reflexivity]. now rewrite H.
Qed.

Lemma handleSubmitCode_resume_frame (call : PendingCall)
    (results : list SubmissionResult) (w : World) :
  inflight (snd (handleSubmitCode_resume call results w)) = inflight w
  /\ List.length (codingResults (snd (handleSubmitCode_resume call results w)))
     <= S (List.length (codingResults w)).
Proof.
  assert (Hrec : forall r,
             List.length
               (handleCodingAttempt_start (call_user call) r (codingResults w))
             <= S (List.length (codingResults w))).
  { intros r. unfold handleCodingAttempt_start, saveCodingResult_start.
    destruct (call_user call); [rewrite length_app; simpl|]; lia. }
  unfold handleSubmitCode_resume.
  destruct (displayResults _ results) as [ds|];
    [|simpl; split; [reflexivity | lia]].
  destruct (firstFailureIndex results =? -1)%Z;
    [simpl; split; [reflexivity | apply Hrec]|].
  destruct (nth_error results _) as [r|];
    [|simpl; split; [reflexivity | apply Hrec]].
  destruct (SubmissionStatus_eqb (status r) WrongAnswer);
    [|simpl; split; [reflexivity | apply Hrec]].
  destruct (nth_error (testCases _) _); simpl;
    (split; [reflexivity | apply Hrec]).
Qed.

Lemma resume_frame (call : PendingCall) (results : list SubmissionResult)
    (w : World) :
  inflight (snd (resume call results w)) = inflight w
  /\ List.length (codingResults (snd (resume call results w)))
     <= (if isSubmitCall call then 1 else 0) + List.length (codingResults w).
Proof.
  unfold resume, isSubmitCall. destruct (call_kind call).
  - destruct (handleRunCode_resume call results (ui w)). simpl.
    split; [reflexivity | lia].
  - apply handleSubmitCode_resume_frame.
Qed.

Lemma oracleReplied_frame (judge : JudgeClient) (i : nat) (reply : OracleReply)
    (w : World) :
  match nth_error (inflight w) i with
  | None => snd (oracleReplied judge i reply w) = w
  | Some call =>
      inflight (snd (oracleReplied judge i reply w)) = removeAt i (inflight w)
      /\ List.length (codingResults (snd (oracleReplied judge i reply w)))
         <= (if isSubmitCall call then 1 else 0)
            + List.length (codingResults w)
  end.
Proof.
  unfold oracleReplied.
  destruct (nth_error (inflight w) i) as [call|]; [|reflexivity].
  destruct (judge _ _ _ _ reply) as [results|].
  - apply (resume_frame call results
             {| ui := ui w; inflight := removeAt i (inflight w);
                codingResults := codingResults w;
                explanationRequests := explanationRequests w |}).
  - simpl. split; [reflexivity|lia].
Qed.

Lemma removeAt_submit_count (i : nat) (l : list PendingCall) (call : PendingCall) :
  nth_error l i = Some call ->
  List.length (List.filter isSubmitCall (removeAt i l))
  + (if isSubmitCall call then 1 else 0)
  = List.length (List.filter isSubmitCall l)
  /\ S (List.length (removeAt i l)) = List.length l.
Proof.
  revert i. induction l as [|x rest IH]; intros [|i] H; simpl in *;
    try discriminate.
  - injection H as ->. destruct (isSubmitCall call); simpl; split; lia.
  - destruct (IH i H) as [Hc Hl].
    destruct (isSubmitCall x); simpl; split; lia.
Qed.

Lemma problemOrLanguageChanged_isExecuting (st : State) :
  isExecuting (problemOrLanguageChanged st) = isExecuting st.
Proof.
  unfold problemOrLanguageChanged.
  now destruct (activeCodingProblem st).
Qed.

(** An invocation of [handleFetchCodingProblem] while nothing is in flight
    leaves nothing in flight. *)
Lemma fetch_singleFlight (judge : JudgeClient) (w : World) :
  inflight w = [] -> singleFlight (step judge w FetchProblemInvoked).
Proof.
  intros Hidle. unfold singleFlight. cbn [step withUi inflight].
  rewrite Hidle. simpl. split; [lia | congruence].
Qed.

Lemma step_singleFlight (judge : JudgeClient) (w : World) (e : Event) :
  isFetchProblemInvoked e = false ->
  singleFlight w -> singleFlight (step judge w e).
Proof.
  intros He [Hlen Hflag].
  destruct e; cbn [step isFetchProblemInvoked] in *; try discriminate.
  - (* Run *)
    destruct (handleRunCode_start (ui w)) as [[st call]|] eqn:Hs;
      [|now split].
    destruct (handleRunCode_start_cases _ _ _ Hs) as (Hidle & Hbusy & _).
    assert (Hnil : inflight w = []).
    { destruct (inflight w); [reflexivity|].
      rewrite Hflag in Hidle by discriminate. discriminate. }
    unfold singleFlight. simpl. rewrite Hnil. simpl. split; auto.
  - (* Submit *)
    destruct (handleSubmitCode_start (ui w)) as [[st call]|] eqn:Hs;
      [|now split].
    destruct (submit_start_cases _ _ _ Hs)
      as (uid & _ & _ & Hidle & _ & _ & _ & Hbusy & _).
    assert (Hnil : inflight w = []).
    { destruct (inflight w); [reflexivity|].
      rewrite Hflag in Hidle by discriminate. discriminate. }
    unfold singleFlight. simpl. rewrite Hnil. simpl. split; auto.
  - (* the oracle answers *)
    pose proof (oracleReplied_frame judge n o w) as Hframe.
    destruct (nth_error (inflight w) n) as [call|] eqn:Hnth.
    + destruct Hframe as [Hin _].
      destruct (removeAt_submit_count _ _ _ Hnth) as [_ Hl].
      assert (Hnil : removeAt n (inflight w) = []).
      { destruct (removeAt n (inflight w)); [reflexivity|]. simpl in Hl. lia. }
      unfold singleFlight. rewrite Hin, Hnil. simpl. split; [lia|congruence].
    + rewrite Hframe. now split.
  - (* a problem arrives *)
    unfold singleFlight. cbn [step withUi ui inflight].
    split; [exact Hlen|].
    unfold handleFetchCodingProblem_resume.
    rewrite problemOrLanguageChanged_isExecuting. exact Hflag.
  - (* the language *)
    unfold singleFlight. cbn [step withUi ui inflight].
    split; [exact Hlen|].
    unfold languageSelected. destruct (Language_eqb l (language (ui w)));
      [exact Hflag|].
    rewrite problemOrLanguageChanged_isExecuting. exact Hflag.
  - split; assumption.
  - split; assumption.
Qed.

Lemma run_singleFlight (judge : JudgeClient) (events : list Event) :
  forall w : World,
    fetchesWhileIdle judge w events = true ->
    singleFlight w -> singleFlight (run judge w events).
Proof.
  unfold run. induction events as [|e rest IH]; intros w Hev Hw; simpl in *;
    [exact Hw|].
  apply andb_prop in Hev as [He Hrest].
  apply IH; [exact Hrest|].
  destruct (isFetchProblemInvoked e) eqn:Hfetch.
  - destruct e; try discriminate Hfetch.
    apply fetch_singleFlight.
    simpl in He. now destruct (inflight w).
  - now apply step_singleFlight.
Qed.

Lemma step_attemptsDue (judge : JudgeClient) (w : World) (e : Event) :
  attemptsDue (step judge w e)
  <= (if isSubmitInvoked e then 1 else 0) + attemptsDue w.
Proof.
  unfold attemptsDue. destruct e; simpl; try lia.
  - destruct (handleRunCode_start (ui w)) as [[st call]|] eqn:Hs;
      simpl; [|lia].
    destruct (handleRunCode_start_cases _ _ _ Hs) as (_ & _ & Hkind).
    rewrite filter_app, length_app. simpl. unfold isSubmitCall at 2.
    rewrite Hkind. simpl. lia.
  - destruct (handleSubmitCode_start (ui w)) as [[st call]|]; simpl; [|lia].
    rewrite filter_app, length_app. simpl.
    destruct (isSubmitCall call); simpl; lia.
  - pose proof (oracleReplied_frame judge n o w) as Hframe.
    destruct (nth_error (inflight w) n) as [call|] eqn:Hnth.
    + destruct Hframe as [Hin Hrec].
      destruct (removeAt_submit_count _ _ _ Hnth) as [Hc _].
      rewrite Hin. destruct (isSubmitCall call); lia.
    + rewrite Hframe. lia.
Qed.

Lemma run_attemptsDue (judge : JudgeClient) (events : list Event) :
  forall w : World,
    attemptsDue (run judge w events)
    <= List.length (List.filter isSubmitInvoked events) + attemptsDue w.
Proof.
  unfold run. induction events as [|e rest IH]; intros w; simpl; [lia|].
  specialize (IH (step judge w e)).
  pose proof (step_attemptsDue judge w e) as Hstep.
  destruct (isSubmitInvoked e); simpl in *; lia.
Qed.

(** Against C8 as stated: a Submit invoked while an evaluation is pending
    starts a second one, after a new problem was fetched, and also for one
    and the same problem once the older evaluation has answered. *)
Lemma C8_counterexample_two_evaluations_in_flight :
  (let w := run JudgeWithFallback.evaluateCodeWithAI (idleWorld squares)
              [SubmitInvoked; FetchProblemInvoked; ProblemFetched cubes] in
   List.length (inflight w) = 1
   /\ List.length
        (inflight (step JudgeWithFallback.evaluateCodeWithAI w SubmitInvoked))
      = 2)
  /\ (let w := run JudgeWithFallback.evaluateCodeWithAI (idleWorld squares)
                 overlappingSubmitsOfOneProblem in
      List.map (fun call => id (call_problem call)) (inflight w) = [js "cubes"]
      /\ List.map (fun call => id (call_problem call))
           (inflight (step JudgeWithFallback.evaluateCodeWithAI w SubmitInvoked))
         = [js "cubes"; js "cubes"]
      /\ step JudgeWithFallback.evaluateCodeWithAI w SubmitInvoked <> w).
Proof.
  split.
  - split; reflexivity.
  - split; [reflexivity|]. split; [reflexivity|].
    intros H. apply (f_equal (fun w => List.length (inflight w))) in H.
    vm_compute in H. discriminate.
Qed.

(** C8: Submit and Run invoked while [isExecuting] is set change nothing:
    no call of the oracle starts and no attempt is recorded.  As long as
    [handleFetchCodingProblem], which clears the flag, is not invoked while
    an evaluation is in flight, the flag is set while an evaluation is in
    flight, and at most one evaluation is in flight.  In every session the
    attempts recorded, together with the submissions still awaited, never
    exceed the invocations of Submit. *)
Theorem C8_single_flight :
  (forall (judge : JudgeClient) (w : World),
     isExecuting (ui w) = true ->
     step judge w SubmitInvoked = w /\ step judge w RunInvoked = w)
  /\ (forall (judge : JudgeClient) (w : World) (events : list Event),
        inflight w = [] ->
        fetchesWhileIdle judge w events = true ->
        List.length (inflight (run judge w events)) <= 1
        /\ (inflight (run judge w events) <> [] ->
            isExecuting (ui (run judge w events)) = true))
  /\ (forall (judge : JudgeClient) (w : World) (events : list Event),
        List.length (codingResults (run judge w events))
        + List.length (List.filter isSubmitCall (inflight (run judge w events)))
        <= List.length (List.filter isSubmitInvoked events)
           + (List.length (codingResults w)
              + List.length (List.filter isSubmitCall (inflight w)))).
Proof.
  split.
  { intros judge w Hbusy. simpl.
    rewrite handleSubmitCode_start_rejected, handleRunCode_start_rejected
      by assumption.
    split; reflexivity. }
  split.
  { intros judge w events Hnil Hev.
    apply (run_singleFlight judge events); [exact Hev|].
    unfold singleFlight. rewrite Hnil. simpl. split; [lia|congruence]. }
  intros judge w events. apply (run_attemptsDue judge events w).
Qed.

Lemma C8_single_flight_witness :
  (let w := run JudgeWithFallback.evaluateCodeWithAI (idleWorld squares)
              [SubmitInvoked] in
   step JudgeWithFallback.evaluateCodeWithAI w SubmitInvoked = w
   /\ step JudgeWithFallback.evaluateCodeWithAI w RunInvoked = w)
  /\ List.length
       (inflight
          (run JudgeWithFallback.evaluateCodeWithAI (idleWorld squares)
             [RunInvoked; SubmitInvoked; CodeEdited (js "return 0;");
              SubmitInvoked; OracleReplied 0 OracleFailure;
              FetchProblemInvoked; ProblemFetched cubes; SubmitInvoked;
              RunInvoked])) <= 1.
Proof.
  destruct C8_single_flight as (Hguard & Hsingle & _).
  split.
  - apply Hguard. reflexivity.
  - apply Hsingle; reflexivity.
Defined.

(** ** C7: [parseError] and the reference extractor *)

Lemma orElse_None_r {A} (x : option A) : orElse x None = x.
Proof. now destruct x. Qed.

Lemma star_oneChar {A} (p : code_unit -> bool)
    (c : jsstring -> captures -> option A) :
  forall fuel y caps,
    List.length y <= fuel ->
    star fuel (oneChar (A:=A) p) y caps c = tryRun p c caps y.
Proof.
  induction fuel as [|fuel IH]; intros [|ch y] caps Hlen; simpl in *;
    try reflexivity; try lia.
  destruct (p ch); [|reflexivity].
  destruct (Nat.eqb_spec (List.length y) (S (List.length y))) as [E|_]; [lia|].
  rewrite IH by lia. reflexivity.
Qed.

Lemma plus_oneChar {A} (p : code_unit -> bool)
    (c : jsstring -> captures -> option A) (s : jsstring) (caps : captures) :
  plus (oneChar (A:=A) p) s caps c
  = match s with
    | ch :: y => if p ch then tryRun p c caps y else None
    | [] => None
    end.
Proof.
  unfold plus. destruct s as [|ch y]; simpl; [reflexivity|].
  destruct (p ch); [|reflexivity]. now apply star_oneChar.
Qed.

Lemma tryRun_blocked {A} (p : code_unit -> bool)
    (c : jsstring -> captures -> option A) (caps : captures) (y : jsstring) :
  (forall ch s', p ch = true -> c (ch :: s') caps = None) ->
  tryRun p c caps y = c (snd (span p y)) caps.
Proof.
  intros Hblocked. induction y as [|ch y IH]; simpl; [reflexivity|].
  destruct (p ch) eqn:Hp.
  - rewrite IH, (Hblocked ch y Hp), orElse_None_r.
    now destruct (span p y).
  - reflexivity.
Qed.

Lemma tryRun_longest {A} (p : code_unit -> bool)
    (c : jsstring -> captures -> option A) (caps : captures) (y : jsstring) :
  c (snd (span p y)) caps <> None ->
  tryRun p c caps y = c (snd (span p y)) caps.
Proof.
  induction y as [|ch y IH]; [reflexivity|].
  cbn [tryRun]. destruct (p ch) eqn:Hp.
  - assert (E : snd (span p (ch :: y)) = snd (span p y))
      by (simpl; rewrite Hp; now destruct (span p y)).
    rewrite E. intros H. rewrite (IH H).
    destruct (c (snd (span p y)) caps); [reflexivity | contradiction].
  - intros _. simpl. now rewrite Hp.
Qed.

Lemma span_app (p : code_unit -> bool) (s : jsstring) :
  fst (span p s) ++ snd (span p s) = s.
Proof.
  induction s as [|ch r IH]; simpl; [reflexivity|].
  destruct (p ch); [|reflexivity].
  destruct (span p r) as [run rest]. simpl in *. now rewrite IH.
Qed.

Lemma firstn_consumed (run rest : jsstring) :
  firstn (List.length (run ++ rest) - List.length rest) (run ++ rest) = run.
Proof.
  rewrite length_app.
  replace (List.length run + List.length rest - List.length rest)
    with (List.length run + 0) by lia.
  rewrite firstn_app_2. simpl. apply app_nil_r.
Qed.

(** The pattern characters of the expression fold onto themselves only. *)
Lemma canonicalize_colon (ch : code_unit) :
  (canonicalize ch =? canonicalize 58)%N = (ch =? 58)%N.
Proof.
  unfold canonicalize. simpl.
  destruct (N.leb_spec 97 ch); destruct (N.leb_spec ch 122); simpl;
    destruct (N.eqb_spec ch 58); try lia;
    try (apply N.eqb_neq; lia); try (apply N.eqb_eq; lia).
Qed.

Lemma canonicalize_bracket (ch : code_unit) :
  (canonicalize ch =? canonicalize 93)%N = (ch =? 93)%N.
Proof.
  unfold canonicalize. simpl.
  destruct (N.leb_spec 97 ch); destruct (N.leb_spec ch 122); simpl;
    destruct (N.eqb_spec ch 93); try lia;
    try (apply N.eqb_neq; lia); try (apply N.eqb_eq; lia).
Qed.

Lemma forallb_seq_spec (f : nat -> bool) (start len : nat) :
  forallb f (seq start len) = true ->
  forall i, start <= i < start + len -> f i = true.
Proof.
  intros H i Hi. rewrite forallb_forall in H. apply H, in_seq. exact Hi.
Qed.

Lemma pathClassAgrees_ascii : forallb pathClassAgrees (seq 0 128) = true.
Proof. vm_compute. reflexivity. Qed.

Lemma pathClassMembers_ascii :
  forallb (fun a => (a <? 128)%N) pathClassMembers = true.
Proof. vm_compute. reflexivity. Qed.

Lemma existsb_flat_map {A B} (f : B -> bool) (g : A -> list B) (l : list A) :
  existsb f (flat_map g l) = existsb (fun x => existsb f (g x)) l.
Proof.
  induction l as [|x r IH]; simpl; [reflexivity|].
  now rewrite existsb_app, IH.
Qed.

Lemma canonicalize_below (a : code_unit) :
  (a < 128)%N -> (canonicalize a < 128)%N.
Proof.
  intros H. unfold canonicalize.
  destruct (N.leb_spec 97 a); destruct (N.leb_spec a 122); simpl; lia.
Qed.

Lemma canonicalize_above (ch : code_unit) :
  (128 <= ch)%N -> canonicalize ch = ch.
Proof.
  intros H. unfold canonicalize.
  destruct (N.leb_spec 97 ch); destruct (N.leb_spec ch 122); simpl;
    try reflexivity; lia.
Qed.

(** The class of the expression under the ignore-case flag is the class of
    the path characters. *)
Lemma classMatches_pathClass (ch : code_unit) :
  classMatches pathClass ch = isPathChar ch.
Proof.
  destruct (N.ltb_spec ch 128) as [Hlt|Hge].
  - pose proof (forallb_seq_spec pathClassAgrees 0 128 pathClassAgrees_ascii
                  (N.to_nat ch) ltac:(lia)) as H.
    unfold pathClassAgrees in H. rewrite N2Nat.id in H.
    now apply Bool.eqb_prop in H.
  - transitivity false.
    + unfold classMatches.
      rewrite <- (existsb_flat_map
                    (fun a => (canonicalize a =? canonicalize ch)%N)
                    (fun r : code_unit * code_unit => range (fst r) (snd r))).
      fold pathClassMembers.
      pose proof pathClassMembers_ascii as Hall.
      rewrite forallb_forall in Hall.
      destruct (existsb _ pathClassMembers) eqn:E; [|reflexivity].
      apply existsb_exists in E as (a & Hin & Heq).
      specialize (Hall a Hin). apply N.ltb_lt in Hall.
      apply canonicalize_below in Hall.
      rewrite (canonicalize_above ch Hge) in Heq.
      apply N.eqb_eq in Heq. lia.
    + unfold isPathChar.
      repeat match goal with
             | |- context [(?a <=? ?b)%N] => destruct (N.leb_spec a b)
             | |- context [(?a =? ?b)%N] => destruct (N.eqb_spec a b)
             end; simpl; try reflexivity; lia.
Qed.

Lemma tryRun_ext {A} (p q : code_unit -> bool)
    (c : jsstring -> captures -> option A) (caps : captures) (y : jsstring) :
  (forall ch, p ch = q ch) -> tryRun p c caps y = tryRun q c caps y.
Proof.
  intros H. induction y as [|ch y IH]; simpl; [reflexivity|].
  now rewrite H, IH.
Qed.

Lemma matchR_lit {A} (word s : jsstring) (caps : captures)
    (k : jsstring -> captures -> option A) :
  matchR (lit word) s caps k
  = match afterLiteral true word s with
    | Some rest => k rest caps
    | None => None
    end.
Proof.
  revert s. induction word as [|w word IH]; intros s; simpl; [reflexivity|].
  destruct s as [|ch s']; simpl; [reflexivity|].
  unfold sameChar.
  destruct (canonicalize ch =? canonicalize w)%N; [apply IH | reflexivity].
Qed.

Lemma span_cons_true (p : code_unit -> bool) (ch : code_unit) (y : jsstring) :
  p ch = true ->
  span p (ch :: y) = (ch :: fst (span p y), snd (span p y)).
Proof. intros H. simpl. rewrite H. now destruct (span p y). Qed.

Lemma span_cons_false (p : code_unit -> bool) (ch : code_unit) (y : jsstring) :
  p ch = false -> span p (ch :: y) = ([], ch :: y).
Proof. intros H. simpl. now rewrite H. Qed.

(** A group of digits: the group takes the longest run of digits when the
    continuation accepts what follows it. *)
Lemma matchR_digits {A} (i : nat) (s : jsstring) (caps : captures)
    (k : jsstring -> captures -> option A) :
  (forall ch s' c', isDigit ch = true -> k (ch :: s') c' = None)
  \/ (forall s' c', k s' c' <> None) ->
  matchR (Group i (Plus Digit)) s caps k
  = match digitsAt s with
    | Some (ds, rest) => k rest ((i, ds) :: caps)
    | None => None
    end.
Proof.
  intros Hk. simpl.
  change (plus (oneChar isDigit) s caps
            (fun s1 c1 =>
               k s1 ((i, firstn (List.length s - List.length s1) s) :: c1))
          = match digitsAt s with
            | Some (ds, rest) => k rest ((i, ds) :: caps)
            | None => None
            end).
  rewrite plus_oneChar. unfold digitsAt.
  destruct s as [|ch y]; [reflexivity|].
  destruct (isDigit ch) eqn:Hd.
  - rewrite (span_cons_true _ _ y Hd). cbv beta iota.
    assert (Hcons : firstn (List.length (ch :: y)
                            - List.length (snd (span isDigit y))) (ch :: y)
                    = ch :: fst (span isDigit y)).
    { rewrite <- (span_app isDigit y) at 1 3.
      apply (firstn_consumed (ch :: fst (span isDigit y))). }
    destruct Hk as [Hblocked|Halways].
    + rewrite tryRun_blocked by (intros; now apply Hblocked).
      now rewrite Hcons.
    + rewrite tryRun_longest by (rewrite Hcons; apply Halways).
      now rewrite Hcons.
  - now rewrite (span_cons_false _ _ y Hd).
Qed.

Lemma isPathChar_not_colon (ch : code_unit) :
  isPathChar ch = true -> (ch =? 58)%N = false.
Proof.
  intros H. destruct (N.eqb_spec ch 58) as [->|]; [discriminate H|reflexivity].
Qed.

Lemma isDigit_not_bracket (ch : code_unit) :
  isDigit ch = true -> (ch =? 93)%N = false.
Proof.
  intros H. destruct (N.eqb_spec ch 93) as [->|]; [discriminate H|reflexivity].
Qed.

Lemma matchR_seq {A} (r1 r2 : regex) (s : jsstring) (caps : captures)
    (k : jsstring -> captures -> option A) :
  matchR (Seq r1 r2) s caps k
  = matchR r1 s caps (fun s1 c1 => matchR r2 s1 c1 k).
Proof. reflexivity. Qed.

Lemma matchR_chr {A} (c : code_unit) (s : jsstring) (caps : captures)
    (k : jsstring -> captures -> option A) :
  matchR (Chr c) s caps k
  = match s with
    | ch :: s' =>
        if (canonicalize ch =? canonicalize c)%N then k s' caps else None
    | [] => None
    end.
Proof. reflexivity. Qed.

Lemma matchR_path (s : jsstring) :
  matchR (Seq (Plus (Class pathClass)) (Seq (Chr 58%N) (Group 1 (Plus Digit))))
    s [] finalContinuation
  = option_map (fun ds => [(1, ds)]) (shapePath s).
Proof.
  set (K := fun (s1 : jsstring) (c1 : captures) =>
              matchR (Seq (Chr 58%N) (Group 1 (Plus Digit))) s1 c1
                finalContinuation).
  change (plus (oneChar (classMatches pathClass)) s [] K
          = option_map (fun ds => [(1, ds)]) (shapePath s)).
  assert (HK : forall s1 c1,
             K s1 c1
             = match s1 with
               | colon :: rest =>
                   if (colon =? 58)%N then
                     match digitsAt rest with
                     | Some (ds, _) => Some ((1, ds) :: c1)
                     | None => None
                     end
                   else None
               | [] => None
               end).
  { intros [|colon rest] c1; [reflexivity|].
    unfold K. rewrite matchR_seq, matchR_chr, canonicalize_colon.
    destruct (colon =? 58)%N; [|reflexivity].
    rewrite matchR_digits by (right; discriminate).
    now destruct (digitsAt rest) as [[ds r]|]. }
  rewrite plus_oneChar. unfold shapePath.
  destruct s as [|ch y]; [reflexivity|].
  rewrite classMatches_pathClass.
  destruct (isPathChar ch) eqn:Hp.
  - rewrite (span_cons_true _ _ y Hp).
    rewrite (tryRun_ext _ _ K [] y classMatches_pathClass).
    rewrite tryRun_blocked.
    + rewrite HK. destruct (snd (span isPathChar y)) as [|colon rest];
        [reflexivity|].
      destruct (colon =? 58)%N; [|reflexivity].
      now destruct (digitsAt rest) as [[ds r]|].
    + intros c0 s' Hc0. rewrite HK. now rewrite isPathChar_not_colon.
  - now rewrite (span_cons_false _ _ y Hp).
Qed.

Lemma matchR_line (s : jsstring) :
  matchR (Seq (lit (js "line ")) (Group 2 (Plus Digit))) s [] finalContinuation
  = option_map (fun ds => [(2, ds)]) (shapeLine true s).
Proof.
  rewrite matchR_seq, matchR_lit. unfold shapeLine.
  destruct (afterLiteral true (js "line ") s) as [rest|]; [|reflexivity].
  rewrite matchR_digits by (right; discriminate).
  now destruct (digitsAt rest) as [[ds r]|].
Qed.

Lemma matchR_bracket (s : jsstring) :
  matchR (Seq (lit (js "[Line ")) (Seq (Group 3 (Plus Digit)) (Chr 93%N)))
    s [] finalContinuation
  = option_map (fun ds => [(3, ds)]) (shapeBracket true s).
Proof.
  rewrite matchR_seq, matchR_lit. unfold shapeBracket.
  destruct (afterLiteral true (js "[Line ") s) as [rest|]; [|reflexivity].
  rewrite matchR_seq.
  rewrite (matchR_digits 3 rest []
             (fun s1 c1 => matchR (Chr 93%N) s1 c1 finalContinuation)).
  - destruct (digitsAt rest) as [[ds [|close r]]|]; try reflexivity.
    rewrite matchR_chr, canonicalize_bracket.
    now destruct (close =? 93)%N.
  - left. intros ch s' c' Hd.
    now rewrite matchR_chr, canonicalize_bracket, isDigit_not_bracket.
Qed.

Lemma matchR_alt {A} (r1 r2 : regex) (s : jsstring) (caps : captures)
    (k : jsstring -> captures -> option A) :
  matchR (Alt r1 r2) s caps k
  = orElse (matchR r1 s caps k) (matchR r2 s caps k).
Proof. reflexivity. Qed.

(** The expression at one position of the text. *)
Lemma matchR_lineNumberRegex (s : jsstring) :
  matchR lineNumberRegex s [] finalContinuation = capturesAt s.
Proof.
  unfold lineNumberRegex, capturesAt.
  rewrite !matchR_alt, matchR_path, matchR_line, matchR_bracket.
  destruct (shapePath s); [reflexivity|].
  destruct (shapeLine true s); [reflexivity|].
  now destruct (shapeBracket true s).
Qed.

Lemma digitsAt_cons (s ds rest : jsstring) :
  digitsAt s = Some (ds, rest) -> exists d ds', ds = d :: ds'.
Proof.
  unfold digitsAt. destruct (span isDigit s) as [[|d ds'] r]; [discriminate|].
  intros H. injection H as <- _. now exists d, ds'.
Qed.

Lemma shapePath_cons (s ds : jsstring) :
  shapePath s = Some ds -> exists d ds', ds = d :: ds'.
Proof.
  unfold shapePath.
  destruct (span isPathChar s) as [[|p run] [|colon rest]]; try discriminate.
  destruct (colon =? 58)%N; [|discriminate].
  destruct (digitsAt rest) as [[ds0 r]|] eqn:E; [|discriminate].
  intros H. injection H as <-. exact (digitsAt_cons _ _ _ E).
Qed.

Lemma shapeLine_cons (fold : bool) (s ds : jsstring) :
  shapeLine fold s = Some ds -> exists d ds', ds = d :: ds'.
Proof.
  unfold shapeLine. destruct (afterLiteral fold _ s) as [rest|]; [|discriminate].
  destruct (digitsAt rest) as [[ds0 r]|] eqn:E; [|discriminate].
  intros H. injection H as <-. exact (digitsAt_cons _ _ _ E).
Qed.

Lemma shapeBracket_cons (fold : bool) (s ds : jsstring) :
  shapeBracket fold s = Some ds -> exists d ds', ds = d :: ds'.
Proof.
  unfold shapeBracket.
  destruct (afterLiteral fold _ s) as [rest|]; [|discriminate].
  destruct (digitsAt rest) as [[ds0 [|close r]]|] eqn:E; try discriminate.
  destruct (close =? 93)%N; [|discriminate].
  intros H. injection H as <-. exact (digitsAt_cons _ _ _ E).
Qed.

Lemma capturesAt_shapeAt (s : jsstring) :
  match capturesAt s with
  | Some m =>
      exists ds, shapeAt true s = Some ds /\ lineOf m = Num.ofZ (digitValue ds)
  | None => shapeAt true s = None
  end.
Proof.
  unfold capturesAt, shapeAt.
  destruct (shapePath s) as [ds|] eqn:Ea.
  { destruct (shapePath_cons _ _ Ea) as (d & ds' & ->).
    eexists. split; reflexivity. }
  destruct (shapeLine true s) as [ds|] eqn:Eb.
  { destruct (shapeLine_cons _ _ _ Eb) as (d & ds' & ->).
    eexists. split; reflexivity. }
  destruct (shapeBracket true s) as [ds|] eqn:Ec; [|reflexivity].
  destruct (shapeBracket_cons _ _ _ Ec) as (d & ds' & ->).
  eexists. split; reflexivity.
Qed.

Lemma exec_unfold (r : regex) (s : jsstring) :
  exec r s
  = match matchR r s [] finalContinuation with
    | Some caps => Some caps
    | None =>
        match s with
        | [] => None
        | _ :: s' => exec r s'
        end
    end.
Proof. destruct s; reflexivity. Qed.

Lemma firstShape_unfold (fold : bool) (s : jsstring) :
  firstShape fold s
  = match shapeAt fold s with
    | Some ds => Some ds
    | None =>
        match s with
        | [] => None
        | _ :: s' => firstShape fold s'
        end
    end.
Proof. destruct s; reflexivity. Qed.

(** The search of the expression through the text is the search of the
    first position with a shape. *)
Lemma exec_firstShape (s : jsstring) :
  match exec lineNumberRegex s with
  | Some m =>
      exists ds,
        firstShape true s = Some ds /\ lineOf m = Num.ofZ (digitValue ds)
  | None => firstShape true s = None
  end.
Proof.
  induction s as [|ch s IH];
    rewrite exec_unfold, firstShape_unfold, matchR_lineNumberRegex.
  - pose proof (capturesAt_shapeAt []) as Hnil.
    destruct (capturesAt []) as [m|].
    + destruct Hnil as (ds & -> & Hline). now exists ds.
    + now rewrite Hnil.
  - pose proof (capturesAt_shapeAt (ch :: s)) as Hcons.
    destruct (capturesAt (ch :: s)) as [m|].
    + destruct Hcons as (ds & -> & Hline). now exists ds.
    + rewrite Hcons. exact IH.
Qed.

Lemma parseError_extractReference (s : jsstring) :
  parseError s = extractReference true s.
Proof.
  unfold parseError, extractReference.
  destruct s as [|ch s]; [reflexivity|].
  cbn [truthy negb].
  pose proof (exec_firstShape (ch :: s)) as H. fold (lineOf).
  destruct (exec lineNumberRegex (ch :: s)) as [m|].
  - destruct H as (ds & -> & Hline). fold (lineOf m). now rewrite Hline.
  - now rewrite H.
Qed.

(** Against C7 as stated: on a text with the word [Line] in upper case
    [parseError] reads line 7, the extractor with the literal [line] reads
    line 1. *)
Lemma C7_counterexample_letter_case :
  parseError (js "Error on Line 7")
  = Some {| lineNumber := Num.ofZ 7; message := js "Error on Line 7" |}
  /\ extractReference false (js "Error on Line 7")
     = Some {| lineNumber := Num.ofZ 1; message := js "Error on Line 7" |}
  /\ parseError (js "Error on Line 7")
     <> extractReference false (js "Error on Line 7").
Proof.
  split; [vm_compute; reflexivity|].
  split; [vm_compute; reflexivity|].
  vm_compute. discriminate.
Qed.

(** C7: [parseError] is the reference extractor with the letters of the
    shapes compared without their case: no diagnostic for the empty text;
    otherwise the digits of the shape at the first position, from the left,
    where a shape is found, a path with a colon before the word [line] before
    the bracketed form at one position, and line 1 when there is none; the
    message is the whole text, trimmed.  The three texts of the
    specification give line 12, no diagnostic and line 1; a word [line]
    to the left of a path gives the line of the word. *)
Theorem C7_diagnostic_extractor :
  (forall s : jsstring, parseError s = extractReference true s)
  /\ (forall s : jsstring,
        s <> [] -> exists d, parseError s = Some d /\ message d = trim s)
  /\ parseError (js "script.py:12: SyntaxError: invalid syntax")
     = Some {| lineNumber := Num.ofZ 12;
               message := js "script.py:12: SyntaxError: invalid syntax" |}
  /\ parseError (js "") = None
  /\ parseError (js "Some generic failure with no location")
     = Some {| lineNumber := Num.ofZ 1;
               message := js "Some generic failure with no location" |}
  /\ parseError (js "line 5 of main.c:7")
     = Some {| lineNumber := Num.ofZ 5; message := js "line 5 of main.c:7" |}.
Proof.
  split; [exact parseError_extractReference|].
  split.
  { intros s Hs. rewrite parseError_extractReference.
    destruct s as [|ch s]; [contradiction|].
    eexists. split; reflexivity. }
  split; [vm_compute; reflexivity|].
  split; [reflexivity|].
  split; vm_compute; reflexivity.
Qed.

Lemma C7_diagnostic_extractor_witness :
  exists d,
    parseError (js "  File main.py, line 5  ") = Some d
    /\ message d = trim (js "  File main.py, line 5  ").
Proof.
  destruct C7_diagnostic_extractor as (_ & Hmessage & _).
  apply Hmessage. discriminate.
Defined.

(** * Further properties *)

(** ** [trim] and the lines of [extractInputValue] *)

Lemma trimStart_startsClean (s : jsstring) : startsClean (trimStart s).
Proof.
  induction s as [|ch r IH]; simpl; [exact I|].
  destruct (isWhiteSpace ch) eqn:E; [exact IH | exact E].
Qed.

Lemma trimStart_fixed (s : jsstring) : startsClean s -> trimStart s = s.
Proof.
  destruct s as [|ch r]; simpl; [reflexivity|]. now intros ->.
Qed.

Lemma trimStart_snoc (l : jsstring) (ch : code_unit) :
  isWhiteSpace ch = false -> trimStart (l ++ [ch]) = trimStart l ++ [ch].
Proof.
  intros Hch. induction l as [|x r IH]; simpl.
  - now rewrite Hch.
  - destruct (isWhiteSpace x); [exact IH | reflexivity].
Qed.

Lemma trimEnd_startsClean (s : jsstring) :
  startsClean s -> startsClean (trimEnd s).
Proof.
  unfold trimEnd. destruct s as [|ch r]; simpl; [trivial|].
  intros Hch. rewrite (trimStart_snoc _ _ Hch), rev_app_distr. exact Hch.
Qed.

Lemma trim_trimmedText (s : jsstring) : trimmedText (trim s).
Proof.
  unfold trim. split.
  - apply trimEnd_startsClean, trimStart_startsClean.
  - unfold trimEnd. rewrite rev_involutive. apply trimStart_startsClean.
Qed.

Lemma trim_fixed (s : jsstring) : trimmedText s -> trim s = s.
Proof.
  intros [Hs He]. unfold trim, trimEnd.
  rewrite (trimStart_fixed _ Hs), (trimStart_fixed _ He).
  apply rev_involutive.
Qed.

Lemma join_split (s : jsstring) : join [LF] (split LF s) = s.
Proof.
  induction s as [|ch r IH]; [reflexivity|].
  simpl split. destruct (N.eqb_spec ch LF) as [->|Hne].
  - rewrite join_cons by apply split_not_nil. now rewrite IH.
  - pose proof (split_not_nil LF r) as Hnil.
    destruct (split LF r) as [|l ls] eqn:E; [contradiction|].
    destruct ls as [|l2 ls].
    + simpl in *. now rewrite IH.
    + rewrite join_cons in * by discriminate. simpl. now rewrite <- IH.
Qed.

Lemma in_line_in_text (ch : code_unit) (lines : list jsstring) (line : jsstring) :
  In ch line -> In line lines -> In ch (join [LF] lines).
Proof.
  intros Hch. induction lines as [|p ps IH]; intros Hin; [contradiction|].
  destruct ps as [|q qs].
  - destruct Hin as [->|[]]. exact Hch.
  - rewrite join_cons by discriminate. apply in_or_app.
    destruct Hin as [->|Hin]; [now left|].
    right. apply in_or_app. right. now apply IH.
Qed.

Lemma forwardedLine_trimmedText (line : jsstring) :
  trimmedText (forwardedLine line).
Proof.
  unfold forwardedLine.
  destruct (valueAfterFirstEquals line); apply trim_trimmedText.
Qed.

Lemma extractInputValue_split (input : jsstring) :
  split LF (extractInputValue input)
  = List.map forwardedLine (split LF input).
Proof.
  rewrite extractInputValue_lines. apply split_join.
  - intros H. apply map_eq_nil in H. now apply split_not_nil in H.
  - pose proof (split_lineFree input) as Hall.
    induction Hall; simpl; constructor; auto using forwardedLine_lineFree.
Qed.

Lemma extractInputValue_trimmed (input : jsstring) :
  Forall trimmedText (split LF (extractInputValue input)).
Proof.
  rewrite extractInputValue_split.
  apply Forall_forall. intros line Hin.
  apply in_map_iff in Hin as (l & <- & _). apply forwardedLine_trimmedText.
Qed.

(** X1: every line that [extractInputValue] forwards is trimmed: it has no
    white space at its beginning and none at its end. *)
Theorem X1_forwarded_lines_are_trimmed :
  forall input : jsstring,
    Forall trimmedText (split LF (extractInputValue input)).
Proof.
  intros input. rewrite extractInputValue_split.
  apply Forall_forall. intros line Hin.
  apply in_map_iff in Hin as (l & <- & _). apply forwardedLine_trimmedText.
Qed.

Lemma extractInputValue_fixed (input : jsstring) :
  Forall (fun line => trimmedText line /\ ~ In EQUALS line) (split LF input) ->
  extractInputValue input = input.
Proof.
  intros Hall. rewrite extractInputValue_lines.
  rewrite <- (join_split input) at 2. f_equal.
  induction Hall as [|line rest [Ht Hne] _ IH]; simpl; [reflexivity|].
  rewrite IH. f_equal. unfold forwardedLine.
  rewrite (valueAfterFirstEquals_none _ Hne). now apply trim_fixed.
Qed.

(** X2: a text whose lines are trimmed and without [=] is forwarded as it
    is; so stripping twice is stripping once whenever the stripped text has
    no [=] left. *)
Theorem X2_stripping_bare_text :
  (forall input : jsstring,
     Forall (fun line => trimmedText line /\ ~ In EQUALS line)
       (split LF input) ->
     extractInputValue input = input)
  /\ (forall input : jsstring,
        ~ In EQUALS (extractInputValue input) ->
        extractInputValue (extractInputValue input) = extractInputValue input).
Proof.
  split; [exact extractInputValue_fixed|].
  intros input Hne. apply extractInputValue_fixed.
  pose proof (extractInputValue_trimmed input) as Htrim.
  rewrite Forall_forall in *. intros line Hin. split; [now apply Htrim|].
  intros Heq. apply Hne.
  rewrite <- (join_split (extractInputValue input)).
  now apply in_line_in_text with (line := line).
Qed.

Lemma X2_stripping_bare_text_witness :
  extractInputValue (js ("[1,2,3]" ++ nl ++ "5")) = js ("[1,2,3]" ++ nl ++ "5")
  /\ extractInputValue (extractInputValue (js " nums = [1,2,3] "))
     = extractInputValue (js " nums = [1,2,3] ").
Proof.
  destruct X2_stripping_bare_text as [Hfixed Hidem]. split.
  - apply Hfixed. vm_compute.
    repeat constructor; try discriminate;
      intros H; repeat (destruct H as [H|H]; [discriminate H|]); exact H.
  - apply Hidem. vm_compute.
    intros H; repeat (destruct H as [H|H]; [discriminate H|]); exact H.
Defined.

(** ** [truncateText] *)

Lemma slice_negative (k : nat) (s : jsstring) :
  0 < k ->
  slice (- Z.of_nat k) s = skipn (List.length s - k) s.
Proof.
  intros Hk. unfold slice.
  destruct (Z.ltb_spec (- Z.of_nat k) 0); [|lia].
  f_equal. lia.
Qed.

(** X3: with a positive limit [truncateText] keeps the end of the text: the
    result is the text without its beginning, as long as the limit when the
    text is longer and the whole text otherwise; truncating again changes
    nothing.  A limit of 0 truncates nothing.  The two versions of the
    function give the same result on every text and every limit. *)
Theorem X3_truncateText_keeps_the_end :
  (forall (text : jsstring) (maxLength : Z),
     (0 < maxLength)%Z ->
     truncateText text maxLength
     = skipn (List.length text - Z.to_nat maxLength) text
     /\ List.length (truncateText text maxLength)
        = Nat.min (List.length text) (Z.to_nat maxLength)
     /\ truncateText (truncateText text maxLength) maxLength
        = truncateText text maxLength)
  /\ (forall text : jsstring, truncateText text 0 = text)
  /\ (forall (text : jsstring) (maxLength : Z),
        truncateTextGuarded text maxLength = truncateText text maxLength).
Proof.
  split.
  { intros text maxLength Hpos.
    assert (Hskip : truncateText text maxLength
                    = skipn (List.length text - Z.to_nat maxLength) text).
    { unfold truncateText.
      destruct (Z.leb_spec (Z.of_nat (List.length text)) maxLength) as [Hle|Hgt].
      - replace (List.length text - Z.to_nat maxLength) with 0 by lia.
        reflexivity.
      - replace maxLength with (Z.of_nat (Z.to_nat maxLength)) at 1 by lia.
        apply slice_negative. lia. }
    assert (Hlen : List.length (truncateText text maxLength)
                   = Nat.min (List.length text) (Z.to_nat maxLength)).
    { rewrite Hskip, length_skipn. lia. }
    split; [exact Hskip|]. split; [exact Hlen|].
    unfold truncateText at 1.
    destruct (Z.leb_spec
                (Z.of_nat (List.length (truncateText text maxLength)))
                maxLength); [reflexivity | lia]. }
  split.
  { intros text. unfold truncateText.
    destruct (Z.leb_spec (Z.of_nat (List.length text)) 0); [reflexivity|].
    unfold slice. cbn [Z.opp Z.ltb Z.compare].
    replace (Z.to_nat (Z.min 0 (Z.of_nat (List.length text)))) with 0 by lia.
    reflexivity. }
  intros [|ch text] maxLength; [|reflexivity].
  unfold truncateTextGuarded, truncateText. simpl.
  destruct (0 <=? maxLength)%Z; [reflexivity|].
  unfold slice. simpl. now destruct (Z.to_nat _).
Qed.

Lemma X3_truncateText_keeps_the_end_witness :
  truncateText (js "knowledge base") 4 = js "base"
  /\ List.length (truncateText (js "knowledge base") 4) = 4.
Proof.
  destruct X3_truncateText_keeps_the_end as [Hend _].
  destruct (Hend (js "knowledge base") 4%Z ltac:(lia)) as (Hskip & Hlen & _).
  split; [rewrite Hskip; reflexivity | rewrite Hlen; reflexivity].
Defined.

(** ** Run: what it shows and what it leaves alone *)

Lemma mapWithIndex_nth {A B} (f : A -> nat -> Outcome B) (l : list A) :
  forall (index : nat) (ys : list B),
    mapWithIndex f l index = Returned ys ->
    List.length ys = List.length l
    /\ forall k x, nth_error l k = Some x ->
         exists y, f x (index + k) = Returned y /\ nth_error ys k = Some y.
Proof.
  induction l as [|x rest IH]; intros index ys H; simpl in H.
  - injection H as <-. split; [reflexivity|]. intros [|k] x Hx; discriminate.
  - destruct (f x index) as [y|] eqn:Hy; [|discriminate]. simpl in H.
    destruct (mapWithIndex f rest (S index)) as [ys'|] eqn:Hrest;
      [|discriminate].
    simpl in H. injection H as <-.
    destruct (IH _ _ Hrest) as [Hlen Hnth].
    split; [simpl; now rewrite Hlen|].
    intros [|k] z Hz; simpl in Hz.
    + injection Hz as <-. exists y. now rewrite Nat.add_0_r.
    + destruct (Hnth k z Hz) as (y' & Hf & Hy').
      exists y'. split; [|exact Hy'].
      now replace (index + S k) with (S index + k) by lia.
Qed.

Lemma mapWithIndex_returned_length {A B} (f : A -> nat -> Outcome B)
    (l : list A) (bound : nat) :
  (forall x i, bound <= i -> f x i = Thrown) ->
  forall index ys,
    index <= bound -> mapWithIndex f l index = Returned ys ->
    index + List.length l <= bound.
Proof.
  intros Hf index ys Hle H.
  destruct (Nat.le_gt_cases (index + List.length l) bound) as [|Hgt];
    [assumption|].
  rewrite (mapWithIndex_thrown f l bound Hf index Hle Hgt) in H. discriminate.
Qed.

Lemma runExamples_inv (judge : JudgeClient) (w w' : World)
    (reply : OracleReply) (completion : Completion) :
  runExamples judge w reply = Some (completion, w') ->
  exists st call,
    handleRunCode_start (ui w) = Some (st, call)
    /\ activeCodingProblem (ui w) = Some (call_problem call)
    /\ codeError st = None
    /\ submissionResults st = None
    /\ overallSubmissionStatus st = overallSubmissionStatus (ui w)
    /\ match
         judge (call_language call) (call_code call) (call_cases call)
           (call_problem call) reply
       with
       | Thrown => completion = Threw /\ w' = withUi w st
       | Returned results =>
           exists st',
             handleRunCode_resume call results st = (completion, st')
             /\ w' = withUi w st'
       end.
Proof.
  unfold runExamples. intros H.
  destruct (handleRunCode_start (ui w)) as [[st call]|] eqn:Hstart;
    [|discriminate].
  exists st, call. split; [reflexivity|].
  assert (Hfields : activeCodingProblem (ui w) = Some (call_problem call)
                    /\ codeError st = None /\ submissionResults st = None
                    /\ overallSubmissionStatus st
                       = overallSubmissionStatus (ui w)).
  { unfold handleRunCode_start in Hstart.
    destruct (activeCodingProblem (ui w)); [|discriminate].
    destruct (isExecuting (ui w)); [discriminate|].
    injection Hstart as <- <-. repeat split. }
  destruct Hfields as (Hp & Hce & Hsr & Hov).
  repeat (split; [assumption|]).
  destruct (judge _ _ _ _ reply) as [results|].
  - destruct (handleRunCode_resume call results st) as [c st'].
    injection H as <- <-. now exists st'.
  - injection H as <- <-. now split.
Qed.

(** X4: a Run, whether it ends or throws, records no attempt, asks for no
    explanation and starts nothing further; it leaves the overall status of
    the last submission as it was, while it discards the results of that
    submission. *)
Theorem X4_run_records_nothing :
  forall (judge : JudgeClient) (w w' : World) (reply : OracleReply)
         (completion : Completion),
    runExamples judge w reply = Some (completion, w') ->
    codingResults w' = codingResults w
    /\ explanationRequests w' = explanationRequests w
    /\ inflight w' = inflight w
    /\ overallSubmissionStatus (ui w') = overallSubmissionStatus (ui w)
    /\ submissionResults (ui w') = None.
Proof.
  intros judge w w' reply completion H.
  destruct (runExamples_inv judge w w' reply completion H)
    as (st & call & _ & _ & _ & Hsr & Hov & Hj).
  destruct (judge _ _ _ _ reply) as [results|].
  - destruct Hj as (st' & Hres & ->). simpl.
    repeat (split; [reflexivity|]).
    unfold handleRunCode_resume in Hres.
    destruct (mapWithIndex _ results 0); injection Hres as _ <-; simpl;
      now split.
  - destruct Hj as [_ ->]. simpl. repeat (split; [reflexivity|]). now split.
Qed.

Lemma X4_run_records_nothing_witness :
  exists w',
    runExamples JudgeWithFallback.evaluateCodeWithAI (idleWorld squares)
      (OracleResults [resultOf WrongAnswer]) = Some (Completed, w')
    /\ codingResults w' = codingResults (idleWorld squares)
    /\ submissionResults (ui w') = None.
Proof.
  eexists. split; [reflexivity|].
  destruct (X4_run_records_nothing JudgeWithFallback.evaluateCodeWithAI
              (idleWorld squares) _ (OracleResults [resultOf WrongAnswer])
              Completed eq_refl) as (Hrec & _ & _ & _ & Hsub).
  split; [exact Hrec | exact Hsub].
Defined.

(** X5: a Run that runs to its end shows one result per result of the judge,
    in the same order: the result at each index carries the input and the
    expected output of the example at that index, is Passed exactly when the
    status is Accepted, and shows the compile output before the standard
    error before the standard output.  The judge cannot have returned more
    results than the problem has examples. *)
Theorem X5_run_results_by_position :
  forall (judge : JudgeClient) (w w' : World) (reply : OracleReply),
    runExamples judge w reply = Some (Completed, w') ->
    exists problem call st results shown,
      activeCodingProblem (ui w) = Some problem
      /\ handleRunCode_start (ui w) = Some (st, call)
      /\ judge (call_language call) (call_code call) (call_cases call)
           problem reply = Returned results
      /\ runResults (ui w') = Some shown
      /\ List.length shown = List.length results
      /\ List.length results <= List.length (examples problem)
      /\ forall k res,
           nth_error results k = Some res ->
           exists example,
             nth_error (examples problem) k = Some example
             /\ nth_error shown k = Some (runResultOf example res).
Proof.
  intros judge w w' reply H.
  destruct (runExamples_inv judge w w' reply Completed H)
    as (st & call & Hstart & Hp & _ & _ & _ & Hj).
  destruct (judge _ _ _ _ reply) as [results|] eqn:Hjudge;
    [|destruct Hj as [Hj _]; discriminate].
  destruct Hj as (st' & Hres & ->).
  unfold handleRunCode_resume in Hres.
  destruct (mapWithIndex _ results 0) as [shown|] eqn:Hmap;
    [|discriminate].
  injection Hres as <-.
  exists (call_problem call), call, st, results, shown.
  destruct (mapWithIndex_nth _ _ _ _ Hmap) as [Hlen Hnth].
  repeat (split; [assumption || reflexivity|]).
  split.
  { pose proof (fun Hf =>
                  mapWithIndex_returned_length _ results
                    (List.length (examples (call_problem call))) Hf 0 shown
                    (Nat.le_0_l _) Hmap) as Hbound.
    apply Hbound. intros x i Hi. now rewrite element_out_of_range. }
  intros k res Hk. destruct (Hnth k res Hk) as (y & Hf & Hy).
  simpl in Hf. unfold element in Hf.
  destruct (nth_error (examples (call_problem call)) k) as [example|];
    [|discriminate].
  exists example. split; [reflexivity|].
  simpl in Hf. injection Hf as <-. exact Hy.
Qed.

Lemma X5_run_results_by_position_witness :
  exists w' shown,
    runExamples JudgeWithFallback.evaluateCodeWithAI (idleWorld squares)
      (OracleResults [resultOf RuntimeError]) = Some (Completed, w')
    /\ runResults (ui w') = Some shown
    /\ List.length shown = 1.
Proof.
  eexists.
  destruct (X5_run_results_by_position JudgeWithFallback.evaluateCodeWithAI
              (idleWorld squares) _ (OracleResults [resultOf RuntimeError])
              eq_refl)
    as (problem & call & st & results & shown & _ & Hstart & Hj & Hshown
        & Hlen & _).
  exists shown. split; [reflexivity|]. split; [exact Hshown|].
  injection Hstart as <- <-. injection Hj as <-. exact Hlen.
Defined.


(** ** Submit: the first failure in detail *)

Lemma find_first (results : list SubmissionResult) (r : SubmissionResult) :
  List.find (fun x => negb (accepted x)) results = Some r ->
  exists pre post,
    results = pre ++ r :: post
    /\ Forall (fun x => status x = Accepted) pre
    /\ status r <> Accepted
    /\ Z.to_nat (firstFailureIndex results) = List.length pre.
Proof.
  unfold firstFailureIndex, findIndex.
  assert (H : forall i,
             (0 <= i)%Z ->
             List.find (fun x => negb (accepted x)) results = Some r ->
             exists pre post,
               results = pre ++ r :: post
               /\ Forall (fun x => status x = Accepted) pre
               /\ status r <> Accepted
               /\ findIndex_from
                    (fun x => negb (SubmissionStatus_eqb (status x) Accepted))
                    results i
                  = (i + Z.of_nat (List.length pre))%Z).
  { induction results as [|x rest IH]; intros i Hi Hfind; [discriminate|].
    simpl in *. unfold accepted in Hfind at 1.
    destruct (SubmissionStatus_eqb (status x) Accepted) eqn:E; simpl in *.
    - destruct (IH (i + 1)%Z ltac:(lia) Hfind)
        as (pre & post & -> & Hpre & Hr & Hidx).
      exists (x :: pre), post. split; [reflexivity|].
      split; [constructor; [now apply SubmissionStatus_eqb_eq|exact Hpre]|].
      split; [exact Hr|]. rewrite Hidx. simpl List.length. lia.
    - injection Hfind as ->. exists [], rest.
      split; [reflexivity|]. split; [constructor|].
      split; [|simpl; lia].
      intros Hs. apply SubmissionStatus_eqb_eq in Hs. congruence. }
  intros Hfind.
  destruct (H 0%Z ltac:(lia) Hfind) as (pre & post & Hres & Hpre & Hr & Hidx).
  exists pre, post. repeat (split; [assumption|]). rewrite Hidx. lia.
Qed.

Lemma displayResults_nth (problem : CodingProblem)
    (results : list SubmissionResult) (ds : list SubmissionDisplay) :
  displayResults problem results = Returned ds ->
  List.length ds = List.length results
  /\ List.length results <= List.length (testCases problem)
  /\ forall k res,
       nth_error results k = Some res ->
       exists tc,
         nth_error (testCases problem) k = Some tc
         /\ nth_error ds k = Some (displayOf tc res).
Proof.
  unfold displayResults. intros Hmap.
  destruct (mapWithIndex_nth _ _ _ _ Hmap) as [Hlen Hnth].
  split; [exact Hlen|]. split.
  { pose proof (fun Hf =>
                  mapWithIndex_returned_length _ results
                    (List.length (testCases problem)) Hf 0 ds
                    (Nat.le_0_l _) Hmap) as Hbound.
    apply Hbound. intros x i Hi. now rewrite element_out_of_range. }
  intros k res Hk. destruct (Hnth k res Hk) as (y & Hf & Hy).
  simpl in Hf. unfold element in Hf.
  destruct (nth_error (testCases problem) k) as [tc|]; [|discriminate].
  exists tc. split; [reflexivity|].
  simpl in Hf. injection Hf as <-. exact Hy.
Qed.

(** The resumed [handleSubmitCode], cell by cell. *)
Lemma handleSubmitCode_resume_cells (call : PendingCall)
    (results : list SubmissionResult) (w w' : World) :
  handleSubmitCode_resume call results w = (Completed, w') ->
  exists ds,
    displayResults (call_problem call) results = Returned ds
    /\ submissionResults (ui w') = Some ds
    /\ runResults (ui w') = runResults (ui w)
    /\ isExecuting (ui w') = false
    /\ match List.find (fun x => negb (accepted x)) results with
       | None =>
           explanationRequests w' = explanationRequests w
           /\ isExplanationLoading (ui w') = isExplanationLoading (ui w)
           /\ codeError (ui w') = codeError (ui w)
           /\ isCodingTimerRunning (ui w') = false
       | Some r =>
           codeError (ui w')
           = match parseError (errorText r) with
             | Some d => Some d
             | None => codeError (ui w)
             end
           /\ isCodingTimerRunning (ui w') = isCodingTimerRunning (ui w)
           /\ if SubmissionStatus_eqb (status r) WrongAnswer then
                exists tc,
                  nth_error (testCases (call_problem call))
                    (Z.to_nat (firstFailureIndex results)) = Some tc
                  /\ explanationRequests w'
                     = explanationRequests w
                       ++ [{| failed_input := tc_input tc;
                              failed_expected := tc_output tc;
                              failed_actual := orString (stdout r) [] |}]
                  /\ isExplanationLoading (ui w') = true
              else
                explanationRequests w' = explanationRequests w
                /\ isExplanationLoading (ui w') = isExplanationLoading (ui w)
       end.
Proof.
  unfold handleSubmitCode_resume, errorText.
  destruct (displayResults (call_problem call) results) as [ds|];
    [|discriminate].
  intros H. exists ds. split; [reflexivity|].
  pose proof (firstFailureIndex_find results) as Hfind.
  destruct (List.find _ results) as [r|].
  - destruct Hfind as [Hidx Hnth]. rewrite Hidx, Hnth in H.
    destruct (SubmissionStatus_eqb (status r) WrongAnswer).
    + destruct (nth_error (testCases (call_problem call)) _) as [tc|];
        [|discriminate].
      injection H as <-. simpl. repeat (split; [reflexivity|]).
      exists tc. repeat split.
    + injection H as <-. simpl. repeat split.
  - rewrite Hfind in H. injection H as <-. simpl. repeat split.
Qed.

(** X7: a Submit that runs to its end asks for an explanation exactly when
    its overall status is Wrong Answer, and then for one only: for the hidden
    case at the position of the first result that is not Accepted, with the
    standard output of that result as the actual output.  Later failures
    are not explained. *)
Theorem X7_explanation_for_first_wrong_answer :
  forall (judge : JudgeClient) (w w' : World) (reply : OracleReply),
    submit judge w reply = Some (Completed, w') ->
    exists st call results,
      handleSubmitCode_start (ui w) = Some (st, call)
      /\ judge (call_language call) (call_code call) (call_cases call)
           (call_problem call) reply = Returned results
      /\ (firstFailureStatus results = WrongAnswer ->
          exists pre r post tc,
            results = pre ++ r :: post
            /\ Forall (fun x => status x = Accepted) pre
            /\ status r = WrongAnswer
            /\ nth_error (testCases (call_problem call)) (List.length pre)
               = Some tc
            /\ explanationRequests w'
               = explanationRequests w
                 ++ [{| failed_input := tc_input tc;
                        failed_expected := tc_output tc;
                        failed_actual := orString (stdout r) [] |}]
            /\ isExplanationLoading (ui w') = true)
      /\ (firstFailureStatus results <> WrongAnswer ->
          explanationRequests w' = explanationRequests w
          /\ isExplanationLoading (ui w') = isExplanationLoading (ui w)).
Proof.
  intros judge w w' reply H.
  unfold submit in H.
  destruct (handleSubmitCode_start (ui w)) as [[st call]|] eqn:Hstart;
    [|discriminate].
  destruct (judge _ _ _ _ reply) as [results|] eqn:Hjudge; [|discriminate].
  injection H as H.
  exists st, call, results. split; [reflexivity|]. split; [exact Hjudge|].
  destruct (handleSubmitCode_resume_cells _ _ _ _ H)
    as (ds & _ & _ & _ & _ & Hcells).
  assert (Hload : isExplanationLoading st = isExplanationLoading (ui w)).
  { unfold handleSubmitCode_start in Hstart.
    destruct (user (ui w)); [|discriminate].
    destruct (activeCodingProblem (ui w)); [|discriminate].
    destruct (isExecuting (ui w)); [discriminate|].
    now injection Hstart as <- <-. }
  unfold firstFailureStatus.
  destruct (List.find _ results) as [r|] eqn:Hfind.
  - destruct Hcells as (_ & _ & Hwa).
    destruct (find_first _ _ Hfind) as (pre & post & Hres & Hpre & Hr & Hidx).
    destruct (SubmissionStatus_eqb (status r) WrongAnswer) eqn:E.
    + apply SubmissionStatus_eqb_eq in E.
      destruct Hwa as (tc & Htc & Hreq & Hl). rewrite Hidx in Htc.
      split; [|congruence].
      intros _. exists pre, r, post, tc. simpl in Hreq.
      repeat (split; [assumption|]). exact Hl.
    + split.
      * intros Hs. apply SubmissionStatus_eqb_eq in Hs. congruence.
      * intros _. destruct Hwa as [Hreq Hl]. simpl in *. split; congruence.
  - destruct Hcells as (Hreq & Hl & _). split; [discriminate|].
    intros _. simpl in *. split; congruence.
Qed.

Lemma X7_explanation_for_first_wrong_answer_witness :
  exists w',
    submit JudgeWithFallback.evaluateCodeWithAI (idleWorld squares)
      (OracleResults
         [resultOf Accepted; resultOf RuntimeError; resultOf WrongAnswer])
    = Some (Completed, w')
    /\ explanationRequests w' = [].
Proof.
  eexists.
  destruct (X7_explanation_for_first_wrong_answer
              JudgeWithFallback.evaluateCodeWithAI (idleWorld squares) _
              (OracleResults
                 [resultOf Accepted; resultOf RuntimeError;
                  resultOf WrongAnswer]) eq_refl)
    as (st & call & results & Hstart & Hj & _ & Hother).
  split; [reflexivity|].
  injection Hstart as <- <-. injection Hj as <-.
  apply Hother. discriminate.
Defined.

(** X8: a Submit that runs to its end shows one entry per result of the
    judge, in the same order: the entry at each index is the result at that
    index, passed exactly when its status is Accepted, with the input and
    the expected output of the hidden case at that index. *)
Theorem X8_submission_results_by_position :
  forall (judge : JudgeClient) (w w' : World) (reply : OracleReply),
    submit judge w reply = Some (Completed, w') ->
    exists st call results shown,
      handleSubmitCode_start (ui w) = Some (st, call)
      /\ judge (call_language call) (call_code call) (call_cases call)
           (call_problem call) reply = Returned results
      /\ submissionResults (ui w') = Some shown
      /\ List.length shown = List.length results
      /\ forall k res,
           nth_error results k = Some res ->
           exists tc,
             nth_error (testCases (call_problem call)) k = Some tc
             /\ nth_error shown k = Some (displayOf tc res).
Proof.
  intros judge w w' reply H.
  unfold submit in H.
  destruct (handleSubmitCode_start (ui w)) as [[st call]|] eqn:Hstart;
    [|discriminate].
  destruct (judge _ _ _ _ reply) as [results|] eqn:Hjudge; [|discriminate].
  injection H as H.
  destruct (handleSubmitCode_resume_cells _ _ _ _ H)
    as (ds & Hds & Hshown & _).
  destruct (displayResults_nth _ _ _ Hds) as (Hlen & _ & Hnth).
  exists st, call, results, ds.
  split; [reflexivity|]. split; [exact Hjudge|]. split; [exact Hshown|].
  split; [exact Hlen | exact Hnth].
Qed.

Lemma X8_submission_results_by_position_witness :
  exists w' shown,
    submit JudgeWithFallback.evaluateCodeWithAI (idleWorld squares)
      (OracleResults [resultOf Accepted; resultOf WrongAnswer])
    = Some (Completed, w')
    /\ submissionResults (ui w') = Some shown
    /\ List.length shown = 2.
Proof.
  eexists.
  destruct (X8_submission_results_by_position
              JudgeWithFallback.evaluateCodeWithAI (idleWorld squares) _
              (OracleResults [resultOf Accepted; resultOf WrongAnswer])
              eq_refl)
    as (st & call & results & shown & Hstart & Hj & Hshown & Hlen & _).
  exists shown. split; [reflexivity|]. split; [exact Hshown|].
  injection Hstart as <- <-. injection Hj as <-. exact Hlen.
Defined.


(** ** Submit among the other events *)

Lemma edits_frame (judge : JudgeClient) (edits : list Event) :
  forall w : World,
    forallb isEdit edits = true ->
    inflight (run judge w edits) = inflight w
    /\ codingResults (run judge w edits) = codingResults w
    /\ explanationRequests (run judge w edits) = explanationRequests w.
Proof.
  unfold run. induction edits as [|e rest IH]; intros w Hall; simpl in *;
    [repeat split|].
  apply andb_prop in Hall as [He Hrest].
  destruct (IH (step judge w e) Hrest) as (Hi & Hc & Hx).
  rewrite Hi, Hc, Hx.
  destruct e; try discriminate He; repeat split.
Qed.

(** X10: the attempt that a Submit records carries the code and the language
    of the moment of the invocation: whatever is typed into the editor and
    whichever language is selected while the oracle has not answered, the
    document added is for the code, the language and the problem that were
    submitted. *)
Theorem X10_attempt_is_of_the_submitted_code :
  forall (judge : JudgeClient) (w : World) st call (edits : list Event)
         (reply : OracleReply) (results : list SubmissionResult),
    inflight w = [] ->
    handleSubmitCode_start (ui w) = Some (st, call) ->
    forallb isEdit edits = true ->
    judge (call_language call) (call_code call) (call_cases call)
      (call_problem call) reply = Returned results ->
    List.length results <= List.length (testCases (call_problem call)) ->
    exists doc,
      codingResults
        (run judge w (SubmitInvoked :: edits ++ [OracleReplied 0 reply]))
      = codingResults w ++ [doc]
      /\ codeSubmitted (doc_result doc) = code (ui w)
      /\ test_language (doc_result doc) = language (ui w)
      /\ activeCodingProblem (ui w) = Some (call_problem call)
      /\ testId (doc_result doc) = id (call_problem call).
Proof.
  intros judge w st call edits reply results Hnil Hstart Hedits Hjudge Hlen.
  destruct (submit_start_cases _ _ _ Hstart)
    as (uid & _ & Hproblem & _ & Hcu & Hkind & _).
  assert (Hcall : call_code call = code (ui w)
                  /\ call_language call = language (ui w)).
  { unfold handleSubmitCode_start in Hstart.
    destruct (user (ui w)); [|discriminate].
    destruct (activeCodingProblem (ui w)); [|discriminate].
    destruct (isExecuting (ui w)); [discriminate|].
    injection Hstart as <- <-. split; reflexivity. }
  destruct Hcall as [Hcode Hlang].
  unfold run. cbn [fold_left step]. rewrite Hstart. unfold started.
  rewrite Hnil. cbn [app]. rewrite fold_left_app. cbn [fold_left step].
  set (w1 := {| ui := st; inflight := [call];
                codingResults := codingResults w;
                explanationRequests := explanationRequests w |}).
  destruct (edits_frame judge edits w1 Hedits) as (Hin & Hrec & _).
  unfold run in Hin, Hrec.
  set (w2 := fold_left (step judge) edits w1) in *.
  unfold oracleReplied. rewrite Hin. cbn [w1 inflight nth_error].
  rewrite Hjudge. unfold resume. rewrite Hkind.
  match goal with
  | |- context [handleSubmitCode_resume call results ?w0] =>
      destruct (handleSubmitCode_resume_completed call results w0 Hlen)
        as (ds & w' & _ & Hres & _ & Hdoc & _)
  end.
  rewrite Hres. cbn [snd]. rewrite Hdoc, Hcu. cbn [codingResults].
  rewrite Hrec. cbn [w1 codingResults handleCodingAttempt_start].
  unfold saveCodingResult_start. eexists. split; [reflexivity|].
  cbn [doc_result resultData codeSubmitted test_language testId].
  repeat split; assumption.
Qed.

Lemma X10_attempt_is_of_the_submitted_code_witness :
  exists doc,
    codingResults
      (run JudgeWithFallback.evaluateCodeWithAI (idleWorld squares)
         (SubmitInvoked
          :: [CodeEdited (js "return 0;"); LanguageSelected python]
          ++ [OracleReplied 0 (OracleResults [resultOf Accepted])]))
    = codingResults (idleWorld squares) ++ [doc]
    /\ codeSubmitted (doc_result doc) = js "return n * n;"
    /\ test_language (doc_result doc) = javascript.
Proof.
  destruct (X10_attempt_is_of_the_submitted_code
              JudgeWithFallback.evaluateCodeWithAI (idleWorld squares) _ _
              [CodeEdited (js "return 0;"); LanguageSelected python]
              (OracleResults [resultOf Accepted]) _
              eq_refl eq_refl eq_refl eq_refl ltac:(simpl; lia))
    as (doc & Hrec & Hcode & Hlang & _).
  exists doc. split; [exact Hrec|]. split; [exact Hcode | exact Hlang].
Defined.





(** ** The problems solved *)

Lemma sameString_eq (a b : jsstring) : sameString a b = true <-> a = b.
Proof.
  unfold sameString. destruct (list_eq_dec N.eq_dec a b); split; intros H;
    try reflexivity; try assumption; try discriminate; contradiction.
Qed.

Lemma setSize_snoc (values : list jsstring) (x : jsstring) :
  setSize (values ++ [x])
  = setSize values + (if existsb (fun v => sameString v x) values then 0 else 1).
Proof.
  unfold setSize. induction values as [|a values IH]; [reflexivity|].
  cbn [app nodup existsb].
  destruct (in_dec (list_eq_dec N.eq_dec) a (values ++ [x])) as [Hin|Hnin];
    destruct (in_dec (list_eq_dec N.eq_dec) a values) as [Hin'|Hnin'].
  - rewrite IH. destruct (sameString a x) eqn:E; [|reflexivity].
    apply sameString_eq in E. subst a.
    destruct (existsb (fun v => sameString v x) values) eqn:Ex; [reflexivity|].
    exfalso. assert (Hex : existsb (fun v => sameString v x) values = true).
    { apply existsb_exists. exists x. split; [assumption|].
      now apply sameString_eq. }
    congruence.
  - rewrite IH. apply in_app_or in Hin as [Hin|[->|[]]]; [contradiction|].
    assert (E : sameString a a = true) by now apply sameString_eq.
    rewrite E. cbn [orb Datatypes.length].
    destruct (existsb (fun v => sameString v a) values) eqn:Ex; [|lia].
    exfalso. apply existsb_exists in Ex as (v & Hv & Hs).
    apply sameString_eq in Hs. subst v. contradiction.
  - exfalso. apply Hnin. apply in_or_app. now left.
  - cbn [Datatypes.length]. rewrite IH.
    destruct (sameString a x) eqn:E.
    + exfalso. apply sameString_eq in E. subst a. apply Hnin.
      apply in_or_app. right. now left.
    + reflexivity.
Qed.

Lemma problemsSolved_snoc (uid : Uid) (docs : list CodingResultDoc)
    (d : CodingResultDoc) :
  problemsSolved uid (docs ++ [d])
  = problemsSolved uid docs
    + (if sameString (doc_uid d) uid && isPassed (doc_result d)
          && negb (solvedBefore uid (testId (doc_result d)) docs)
       then 1 else 0).
Proof.
  unfold problemsSolved, solvedBefore, codingTestsOf.
  rewrite filter_app. cbn [filter].
  destruct (sameString (doc_uid d) uid); cbn [andb];
    [|rewrite app_nil_r; lia].
  rewrite map_app, filter_app. cbn [map filter].
  destruct (isPassed (doc_result d)); cbn [andb];
    [|rewrite app_nil_r; lia].
  rewrite map_app. cbn [map]. rewrite setSize_snoc. f_equal.
  set (tests := List.map doc_result _).
  assert (E : existsb (fun v => sameString v (testId (doc_result d)))
                (List.map testId (List.filter isPassed tests))
              = existsb
                  (fun test =>
                     isPassed test
                     && sameString (testId test) (testId (doc_result d)))
                  tests).
  { induction tests as [|t tests IH]; [reflexivity|].
    cbn [filter existsb]. destruct (isPassed t); cbn [andb orb map existsb];
      now rewrite IH. }
  rewrite E. now destruct (existsb _ tests).
Qed.


(** X12: what a Submit does to the number of problems solved that
    [getUserPerformanceSummary] reads from the collection.  A Submit that
    runs to its end hands one document to [add]; when the [add] is
    fulfilled, the number of the user goes up by one if the overall status
    is Accepted and the collection had no Passed attempt of the user at this
    problem, and stays otherwise; when the [add] is rejected the collection
    and the number stay, whatever the overall status.  The number of any
    other user stays too. *)
Theorem X12_problems_solved_after_submit :
  forall (judge : JudgeClient) (w w' : World) (reply : OracleReply)
         (uid : Uid) (problem : CodingProblem),
    submit judge w reply = Some (Completed, w') ->
    user (ui w) = Some uid ->
    activeCodingProblem (ui w) = Some problem ->
    exists doc,
      codingResults w' = codingResults w ++ [doc]
      /\ forall (outcome : WriteOutcome)
                (collection : list CodingResultDoc),
           problemsSolved uid
             (handleCodingAttempt_resume outcome doc collection)
           = problemsSolved uid collection
             + (match outcome, overallSubmissionStatus (ui w') with
                | Fulfilled, Some Accepted =>
                    if solvedBefore uid (id problem) collection then 0 else 1
                | _, _ => 0
                end)
           /\ (outcome = Rejected ->
               handleCodingAttempt_resume outcome doc collection = collection)
           /\ forall other : Uid,
                other <> uid ->
                problemsSolved other
                  (handleCodingAttempt_resume outcome doc collection)
                = problemsSolved other collection.
Proof.
  intros judge w w' reply uid problem H Huser Hproblem.
  destruct (submit_completed_inv judge w w' reply H)
    as (uid' & st & call & results & ds & Hstart & Huser' & _ & _ & Hrec & Hov).
  rewrite Huser in Huser'. injection Huser' as <-.
  destruct (submit_start_cases _ _ _ Hstart) as (_ & _ & Hp & _).
  rewrite Hproblem in Hp. injection Hp as Hp.
  eexists. split; [exact Hrec|].
  intros [|] collection; cbn [handleCodingAttempt_resume
                              saveCodingResult_resume tryCatch].
  - rewrite Hov. split; [|split; [discriminate|]].
    + rewrite problemsSolved_snoc.
      cbn [doc_uid doc_result resultData testId test_status isPassed].
      assert (E : sameString uid uid = true) by now apply sameString_eq.
      rewrite E. cbn [andb]. rewrite <- Hp. f_equal.
      destruct (firstFailureIndex results =? -1)%Z eqn:Hall.
      * apply passedAll_iff, firstFailureStatus_accepted_iff in Hall.
        rewrite Hall. unfold isPassed. cbn [test_status andb].
        now destruct (solvedBefore uid (id problem) collection).
      * assert (Hne : firstFailureStatus results <> Accepted).
        { intros Hacc.
          apply firstFailureStatus_accepted_iff, passedAll_iff in Hacc.
          congruence. }
        unfold isPassed. cbn [test_status andb].
        now destruct (firstFailureStatus results).
    + intros other Hother. rewrite problemsSolved_snoc. cbn [doc_uid].
      destruct (sameString uid other) eqn:E;
        [apply sameString_eq in E; congruence|].
      cbn [andb]. lia.
  - split; [lia|]. split; reflexivity.
Qed.

Lemma X12_problems_solved_after_submit_witness :
  exists w' doc,
    submit JudgeWithFallback.evaluateCodeWithAI (idleWorld squares)
      (OracleResults [resultOf Accepted; resultOf Accepted; resultOf Accepted])
    = Some (Completed, w')
    /\ codingResults w' = [doc]
    /\ problemsSolved (js "uid-1") (handleCodingAttempt_resume Fulfilled doc [])
       = 1
    /\ problemsSolved (js "uid-1") (handleCodingAttempt_resume Rejected doc [])
       = 0.
Proof.
  eexists.
  destruct (X12_problems_solved_after_submit
              JudgeWithFallback.evaluateCodeWithAI (idleWorld squares) _
              (OracleResults
                 [resultOf Accepted; resultOf Accepted; resultOf Accepted])
              (js "uid-1") squares eq_refl eq_refl eq_refl)
    as (doc & Hrec & Hcount).
  exists doc. split; [reflexivity|]. split; [exact Hrec|].
  split.
  - exact (proj1 (Hcount Fulfilled [])).
  - exact (proj1 (Hcount Rejected [])).
Defined.



(** ** The hint *)

Lemma handleSubmitCode_resume_keeps (call : PendingCall)
    (results : list SubmissionResult) (w : World) :
  activeCodingProblem (ui (snd (handleSubmitCode_resume call results w)))
  = activeCodingProblem (ui w)
  /\ code (ui (snd (handleSubmitCode_resume call results w))) = code (ui w)
  /\ language (ui (snd (handleSubmitCode_resume call results w)))
     = language (ui w).
Proof.
  unfold handleSubmitCode_resume.
  destruct (displayResults _ results) as [ds|]; [|now repeat split].
  destruct (firstFailureIndex results =? -1)%Z; [now repeat split|].
  destruct (nth_error results _) as [failedResult|]; [|now repeat split].
  destruct (SubmissionStatus_eqb _ _); [|now repeat split].
  destruct (nth_error (testCases _) _); now repeat split.
Qed.

Lemma find_failed_display (problem : CodingProblem)
    (results : list SubmissionResult) (ds : list SubmissionDisplay) :
  displayResults problem results = Returned ds ->
  List.find (fun d => negb (passed d)) ds
  = match List.find (fun x => negb (accepted x)) results with
    | None => None
    | Some r =>
        match nth_error (testCases problem)
                (Z.to_nat (firstFailureIndex results)) with
        | Some tc => Some (displayOf tc r)
        | None => None
        end
    end.
Proof.
  intros Hds.
  destruct (displayResults_nth problem results ds Hds) as (Hlen & _ & Hnth).
  destruct (List.find (fun x => negb (accepted x)) results) as [r|] eqn:Hfind.
  - destruct (find_first results r Hfind) as (pre & post & -> & Hpre & Hr & Hidx).
    rewrite Hidx.
    destruct (Hnth (List.length pre) r) as (tc & Htc & Hd).
    { rewrite nth_error_app2 by lia. now rewrite Nat.sub_diag. }
    rewrite Htc.
    assert (Hsplit : exists dpre dpost,
               ds = dpre ++ displayOf tc r :: dpost
               /\ List.length dpre = List.length pre).
    { apply nth_error_split in Hd as (dpre & dpost & -> & Hl).
      now exists dpre, dpost. }
    destruct Hsplit as (dpre & dpost & -> & Hl).
    assert (Hall : forall d, In d dpre -> negb (passed d) = false).
    { intros d Hin. apply In_nth_error in Hin as (k & Hk).
      assert (Hklt : k < List.length dpre)
        by (apply nth_error_Some; congruence).
      destruct (nth_error pre k) as [x|] eqn:Hx;
        [|apply nth_error_None in Hx; lia].
      destruct (Hnth k x) as (tcx & _ & Hdx).
      { now rewrite nth_error_app1 by lia. }
      rewrite nth_error_app1 in Hdx by lia. rewrite Hk in Hdx.
      injection Hdx as ->. unfold displayOf. cbn [passed].
      rewrite Forall_forall in Hpre.
      rewrite (Hpre x) by (eapply nth_error_In; eassumption). reflexivity. }
    clear - Hall Hr. induction dpre as [|d dpre IH].
    + cbn [app find]. unfold displayOf at 1. cbn [passed].
      destruct (SubmissionStatus_eqb (status r) Accepted) eqn:E;
        [apply SubmissionStatus_eqb_eq in E; contradiction|reflexivity].
    + cbn [app find]. rewrite (Hall d) by now left.
      apply IH. intros d' Hin. apply Hall. now right.
  - destruct (List.find (fun d => negb (passed d)) ds) as [d|] eqn:Hd;
      [|reflexivity].
    exfalso. apply find_some in Hd as [Hin Hfail].
    apply In_nth_error in Hin as (k & Hk).
    assert (Hklt : k < List.length results)
      by (rewrite <- Hlen; apply nth_error_Some; congruence).
    destruct (nth_error results k) as [x|] eqn:Hx;
      [|apply nth_error_None in Hx; lia].
    destruct (Hnth k x Hx) as (tcx & _ & Hdx).
    rewrite Hk in Hdx. injection Hdx as ->.
    unfold displayOf in Hfail. cbn [passed] in Hfail.
    pose proof (find_none _ _ Hfind x (nth_error_In _ _ Hx)) as Hacc.
    unfold accepted in Hacc. cbn beta in Hacc. rewrite Hfail in Hacc.
    discriminate.
Qed.

(** X14: the hint after a Submit.  Once a Submit has run to its end,
    [handleGetHint] asks for a hint about the hidden case of the first result
    that is not Accepted, the one that gave the overall status, with the
    standard output of that result as the actual output and the code of the
    editor; when every result is Accepted, or a hint is being loaded, it
    asks for nothing. *)
Theorem X14_hint_for_first_failure :
  forall (judge : JudgeClient) (w w' : World) (reply : OracleReply),
    submit judge w reply = Some (Completed, w') ->
    exists st call results,
      handleSubmitCode_start (ui w) = Some (st, call)
      /\ judge (call_language call) (call_code call) (call_cases call)
           (call_problem call) reply = Returned results
      /\ handleGetHint_start (ui w') true = None
      /\ (Forall (fun x => status x = Accepted) results ->
          handleGetHint_start (ui w') false = None)
      /\ (forall pre r post,
            results = pre ++ r :: post ->
            Forall (fun x => status x = Accepted) pre ->
            status r <> Accepted ->
            exists tc,
              nth_error (testCases (call_problem call)) (List.length pre)
              = Some tc
              /\ overallSubmissionStatus (ui w') = Some (status r)
              /\ handleGetHint_start (ui w') false
                 = Some
                     (setHint (ui w') (Some []), true,
                      {| hint_problem := call_problem call;
                         hint_userCode := call_code call;
                         hint_failedTest :=
                           {| failed_input := tc_input tc;
                              failed_expected := tc_output tc;
                              failed_actual := orString (stdout r) [] |} |})).
Proof.
  intros judge w w' reply H.
  pose proof H as H0. unfold submit in H.
  destruct (handleSubmitCode_start (ui w)) as [[st call]|] eqn:Hstart;
    [|discriminate].
  destruct (judge _ _ _ _ reply) as [results|] eqn:Hjudge; [|discriminate].
  injection H as H.
  exists st, call, results. split; [reflexivity|]. split; [exact Hjudge|].
  destruct (handleSubmitCode_resume_cells call results _ w' H)
    as (ds & Hds & Hsub & _).
  destruct (handleSubmitCode_resume_keeps call results (withUi w st))
    as (Hp & Hc & _).
  rewrite H in Hp, Hc. cbn [snd withUi ui] in Hp, Hc.
  assert (Hst : activeCodingProblem st = Some (call_problem call)
                /\ code st = call_code call).
  { unfold handleSubmitCode_start in Hstart.
    destruct (user (ui w)); [|discriminate].
    destruct (activeCodingProblem (ui w)); [|discriminate].
    destruct (isExecuting (ui w)); [discriminate|].
    injection Hstart as <- <-. split; reflexivity. }
  destruct Hst as [Hsp Hsc]. rewrite Hsp in Hp. rewrite Hsc in Hc.
  pose proof (find_failed_display _ _ _ Hds) as Hfind.
  destruct (displayResults_nth _ _ _ Hds) as (Hlen & _ & Hnth).
  split; [|split].
  - unfold handleGetHint_start. rewrite Hp. reflexivity.
  - intros Hall. unfold handleGetHint_start. rewrite Hp, Hsub.
    destruct (List.length ds =? 0)%nat; [reflexivity|].
    rewrite Hfind.
    rewrite (proj2 (find_none_all_accepted results)); [reflexivity|].
    exact Hall.
  - intros pre r post -> Hpre Hr.
    destruct (Hnth (List.length pre) r) as (tc & Htc & _).
    { rewrite nth_error_app2 by lia. now rewrite Nat.sub_diag. }
    exists tc. split; [exact Htc|]. split.
    + destruct (submit_completed_inv judge w w' reply H0)
        as (_ & st2 & call2 & results2 & _ & Hstart2 & _ & Hj2 & _ & _ & Hov).
      rewrite Hstart in Hstart2. injection Hstart2 as <- <-.
      rewrite Hjudge in Hj2. injection Hj2 as <-.
      rewrite Hov. f_equal. now apply firstFailureStatus_first.
    + unfold handleGetHint_start. rewrite Hp, Hsub, Hc.
      assert (Hn : (List.length ds =? 0)%nat = false).
      { apply Nat.eqb_neq. rewrite Hlen, length_app. cbn [Datatypes.length]. lia. }
      rewrite Hn, Hfind.
      assert (Hf : List.find (fun x => negb (accepted x)) (pre ++ r :: post)
                   = Some r).
      { clear - Hpre Hr. induction Hpre as [|x pre Hx _ IH].
        - cbn [app find]. unfold accepted.
          destruct (SubmissionStatus_eqb (status r) Accepted) eqn:E;
            [apply SubmissionStatus_eqb_eq in E; contradiction|reflexivity].
        - cbn [app find]. unfold accepted at 1. rewrite Hx. exact IH. }
      rewrite Hf.
      destruct (find_first _ _ Hf) as (pre' & post' & Heq & Hpre' & _ & Hidx).
      assert (Hsame : List.length pre' = List.length pre).
      { clear - Heq Hpre Hpre' Hr.
        revert pre' Heq Hpre'. induction Hpre as [|x pre Hx _ IH];
          intros pre' Heq Hpre'.
        - destruct pre' as [|y pre']; [reflexivity|].
          cbn [app] in Heq. injection Heq as <- _.
          inversion Hpre'; contradiction.
        - destruct pre' as [|y pre'].
          + cbn [app] in Heq. injection Heq as -> _. contradiction.
          + cbn [app] in Heq. injection Heq as _ Heq. cbn [Datatypes.length].
            f_equal. apply IH; [assumption|]. now inversion Hpre'. }
      rewrite Hidx, Hsame, Htc. reflexivity.
Qed.

Lemma X14_hint_for_first_failure_witness :
  exists w' st' call,
    submit JudgeWithFallback.evaluateCodeWithAI (idleWorld squares)
      (OracleResults
         [resultOf Accepted; resultOf RuntimeError; resultOf WrongAnswer])
    = Some (Completed, w')
    /\ handleGetHint_start (ui w') false = Some (st', true, call)
    /\ failed_input (hint_failedTest call) = js "n = 3".
Proof.
  eexists.
  destruct (X14_hint_for_first_failure JudgeWithFallback.evaluateCodeWithAI
              (idleWorld squares) _
              (OracleResults
                 [resultOf Accepted; resultOf RuntimeError;
                  resultOf WrongAnswer]) eq_refl)
    as (st & call & results & Hstart & Hjudge & _ & _ & Hfail).
  injection Hstart as <- <-. injection Hjudge as <-.
  destruct (Hfail [_] _ [_] eq_refl) as (tc & Htc & _ & Hhint).
  { constructor; [reflexivity | constructor]. }
  { discriminate. }
  injection Htc as <-.
  eexists. eexists. split; [reflexivity|]. split; [exact Hhint | reflexivity].
Defined.

(** ** The multiple-choice test *)

Lemma answeredUpTo_from (answers : Answers) :
  forall start count key value,
    List.map fst answers = seq start count ->
    key = start + count ->
    withAnswer answers key value = answers ++ [(key, value)].
Proof.
  induction answers as [|[k v] rest IH]; intros start count key value Hkeys ->;
    [reflexivity|].
  destruct count as [|count]; [discriminate|].
  cbn [map fst seq] in Hkeys. injection Hkeys as -> Hrest.
  cbn [withAnswer app].
  destruct (start + S count <? start) eqn:E1;
    [apply Nat.ltb_lt in E1; lia|].
  destruct (start + S count =? start) eqn:E2;
    [apply Nat.eqb_eq in E2; lia|].
  f_equal. apply (IH (S start) count); [assumption | lia].
Qed.

Lemma withAnswer_next (answers : Answers) (count : nat)
    (value : option jsstring) :
  answeredUpTo answers count ->
  answeredUpTo (withAnswer answers count value) (S count).
Proof.
  unfold answeredUpTo. intros H.
  rewrite (answeredUpTo_from answers 0 count count value H eq_refl).
  rewrite map_app, H, seq_S. reflexivity.
Qed.

Lemma answeredUpTo_length (answers : Answers) (count : nat) :
  answeredUpTo answers count -> List.length answers = count.
Proof.
  unfold answeredUpTo. intros H.
  rewrite <- (length_map fst), H. apply length_seq.
Qed.

Lemma answerAt_from (answers : Answers) :
  forall start count i,
    List.map fst answers = seq start count ->
    answerAt answers (start + i) = nth_error (objectValues answers) i.
Proof.
  unfold objectValues.
  induction answers as [|[k v] rest IH]; intros start count i Hkeys.
  - now destruct i.
  - destruct count as [|count]; [discriminate|].
    cbn [map fst seq] in Hkeys. injection Hkeys as -> Hrest.
    cbn [answerAt map snd]. destruct i as [|i].
    + rewrite Nat.add_0_r, Nat.eqb_refl. reflexivity.
    + destruct (start + S i =? start) eqn:E;
        [apply Nat.eqb_eq in E; lia|].
      cbn [nth_error]. rewrite <- (IH (S start) count i Hrest).
      f_equal. lia.
Qed.

Lemma skipn_nth_error {A} (l : list A) (i : nat) :
  skipn i l
  = match nth_error l i with
    | Some x => x :: skipn (S i) l
    | None => []
    end.
Proof.
  revert i. induction l as [|x l IH]; intros [|i]; try reflexivity.
  cbn [skipn nth_error]. rewrite IH. now destruct (nth_error l i).
Qed.

Lemma skipn_past {A} (l : list A) (i : nat) :
  nth_error l i = None -> skipn (S i) l = [].
Proof.
  intros H. apply skipn_all2. apply nth_error_None in H. lia.
Qed.

Lemma matching_le (values : list (option jsstring)) :
  forall remaining, matching values remaining <= List.length remaining.
Proof.
  induction values as [|a values IH]; intros [|q rest]; cbn; try lia.
  specialize (IH rest). destruct (isAnswer a (correctAnswer q)); lia.
Qed.

Lemma countCorrect_matching (answers : Answers) (count : nat) :
  answeredUpTo answers count ->
  forall remaining index score,
    countCorrect remaining index answers score
    = score + matching (skipn index (objectValues answers)) remaining.
Proof.
  intros Hkeys. induction remaining as [|q rest IH]; intros index score.
  - cbn [countCorrect]. destruct (skipn index (objectValues answers)); cbn; lia.
  - cbn [countCorrect]. rewrite IH.
    rewrite (answerAt_from answers 0 count index Hkeys : answerAt answers index = _).
    rewrite (skipn_nth_error (objectValues answers) index).
    destruct (nth_error (objectValues answers) index) as [a|] eqn:E.
    + cbn [matching]. destruct (isAnswer a (correctAnswer q)); lia.
    + rewrite (skipn_past _ _ E). cbn [matching]. lia.
Qed.

Lemma filterWithIndex_matching (all : list QuizQuestion)
    (values : list (option jsstring)) :
  forall index,
    index + List.length values <= List.length all ->
    exists kept,
      filterWithIndex
        (fun answer i =>
           q <- element all i ;;
           Returned (isAnswer answer (correctAnswer q)))
        values index
      = Returned kept
      /\ List.length kept = matching values (skipn index all).
Proof.
  induction values as [|a values IH]; intros index Hlen.
  - exists []. split; [reflexivity|]. now destruct (skipn index all).
  - cbn [Datatypes.length] in Hlen. cbn [filterWithIndex].
    rewrite (skipn_nth_error all index).
    destruct (nth_error all index) as [q|] eqn:E;
      [|apply nth_error_None in E; lia].
    assert (Hq : element all index = Returned q)
      by (unfold element; now rewrite E).
    rewrite Hq. cbn [bindOutcome].
    destruct (IH (S index)) as (kept & -> & Hk); [lia|].
    cbn [bindOutcome matching]. eexists. split; [reflexivity|].
    destruct (isAnswer a (correctAnswer q)); cbn [Datatypes.length]; lia.
Qed.

Lemma score_shown (st : McqState) (count : nat) :
  answeredUpTo (userAnswers st) count ->
  count <= List.length (mcqQuestions st) ->
  renderMcqResults_score st
  = Returned (countCorrect (mcqQuestions st) 0 (userAnswers st) 0)
  /\ countCorrect (mcqQuestions st) 0 (userAnswers st) 0
     <= List.length (mcqQuestions st).
Proof.
  intros Hkeys Hcount. unfold renderMcqResults_score.
  destruct (filterWithIndex_matching (mcqQuestions st)
              (objectValues (userAnswers st)) 0) as (kept & -> & Hk).
  { unfold objectValues. rewrite length_map.
    rewrite (answeredUpTo_length _ _ Hkeys). lia. }
  cbn [bindOutcome]. rewrite Hk.
  rewrite (countCorrect_matching _ _ Hkeys). cbn [skipn Nat.add].
  split; [reflexivity | apply matching_le].
Qed.

Lemma questionShown_some (st : McqState) (q : QuizQuestion) :
  questionShown st = Some q ->
  view st = mcq /\ currentMcqIndex st < List.length (mcqQuestions st).
Proof.
  unfold questionShown. intros H.
  destruct (view st); try discriminate.
  destruct (mcqQuestions st) as [|q0 rest] eqn:E; [discriminate|].
  split; [reflexivity|]. apply nth_error_Some. congruence.
Qed.

Lemma mounted_consistent (user : option Uid) :
  mcqConsistent (mcq_ui (mounted user)).
Proof. exact I. Qed.

Lemma mcqStep_consistent (w : McqWorld) (e : McqEvent) :
  mcqConsistent (mcq_ui w) -> mcqConsistent (mcq_ui (mcqStep w e)).
Proof.
  intros Hc. destruct e as [generated topic d now|option|now|now|];
    cbn [mcqStep].
  - unfold mcqConsistent. cbn. split; [reflexivity|].
    destruct generated; [now left | right; cbn; lia].
  - destruct (questionShown (mcq_ui w)) as [q|] eqn:Hq; [|exact Hc].
    destruct (existsb _ _); [|exact Hc].
    destruct (questionShown_some _ _ Hq) as [Hv _].
    unfold mcqConsistent in *. cbn. rewrite Hv in *. exact Hc.
  - destruct (questionShown (mcq_ui w)) as [q|] eqn:Hq; [|exact Hc].
    destruct (truthyAnswer _); [|exact Hc].
    destruct (questionShown_some _ _ Hq) as [Hv Hlt].
    unfold mcqConsistent in Hc. rewrite Hv in Hc. destruct Hc as [Hkeys _].
    unfold handleNextQuestion.
    destruct (_ <? _)%Z eqn:E.
    + apply Z.ltb_lt in E. unfold mcqConsistent. cbn. rewrite Hv.
      split; [now apply withAnswer_next | right; lia].
    + unfold finishMcq, mcqConsistent. cbn.
      exists (S (currentMcqIndex (mcq_ui w))).
      split; [now apply withAnswer_next | lia].
  - destruct (questionShown (mcq_ui w)) as [q|] eqn:Hq; [|exact Hc].
    destruct (isMcqTimerRunning _); [|exact Hc].
    destruct (questionShown_some _ _ Hq) as [Hv Hlt].
    unfold mcqConsistent in Hc. rewrite Hv in Hc. destruct Hc as [Hkeys _].
    unfold finishMcq, mcqConsistent. cbn.
    exists (currentMcqIndex (mcq_ui w)). split; [assumption | lia].
  - destruct (view (mcq_ui w)) eqn:Hv; try exact Hc. exact I.
Qed.

Lemma mcqRun_consistent (events : list McqEvent) :
  forall w : McqWorld,
    mcqConsistent (mcq_ui w) -> mcqConsistent (mcq_ui (mcqRun w events)).
Proof.
  unfold mcqRun. induction events as [|e events IH]; intros w Hc;
    [exact Hc|].
  cbn [fold_left]. apply IH. now apply mcqStep_consistent.
Qed.

Lemma mcqStep_user (w : McqWorld) (e : McqEvent) :
  mcq_user (mcq_ui (mcqStep w e)) = mcq_user (mcq_ui w).
Proof.
  destruct e; cbn [mcqStep]; try reflexivity.
  - destruct (questionShown _); [|reflexivity].
    now destruct (existsb _ _).
  - destruct (questionShown _); [|reflexivity].
    destruct (truthyAnswer _); [|reflexivity].
    unfold handleNextQuestion. now destruct (_ <? _)%Z.
  - destruct (questionShown _); [|reflexivity].
    now destruct (isMcqTimerRunning _).
  - now destruct (view _).
Qed.

Lemma mcqRun_user (events : list McqEvent) :
  forall w : McqWorld,
    mcq_user (mcq_ui (mcqRun w events)) = mcq_user (mcq_ui w).
Proof.
  unfold mcqRun. induction events as [|e events IH]; intros w;
    [reflexivity|].
  cbn [fold_left]. rewrite IH. apply mcqStep_user.
Qed.

(** X15: the results page of the multiple-choice test.  In every session
    from the mounting of TestBuddy, whenever the results page is shown its
    score is computed without an exception, and it is the number of
    questions whose recorded answer is the correct one, the count of
    [finishMcq]; it never exceeds the number of questions. *)
Theorem X15_results_page_score :
  forall (user : option Uid) (events : list McqEvent),
    view (mcq_ui (mcqRun (mounted user) events)) = mcq_results ->
    renderMcqResults_score (mcq_ui (mcqRun (mounted user) events))
    = Returned
        (countCorrect
           (mcqQuestions (mcq_ui (mcqRun (mounted user) events))) 0
           (userAnswers (mcq_ui (mcqRun (mounted user) events))) 0)
    /\ countCorrect
         (mcqQuestions (mcq_ui (mcqRun (mounted user) events))) 0
         (userAnswers (mcq_ui (mcqRun (mounted user) events))) 0
       <= List.length (mcqQuestions (mcq_ui (mcqRun (mounted user) events))).
Proof.
  intros user events Hv.
  pose proof (mcqRun_consistent events (mounted user)
                (mounted_consistent user)) as Hc.
  unfold mcqConsistent in Hc. rewrite Hv in Hc.
  destruct Hc as (count & Hkeys & Hcount).
  exact (score_shown _ count Hkeys Hcount).
Qed.

Lemma X15_results_page_score_witness :
  renderMcqResults_score
    (mcq_ui
       (mcqRun (mounted (Some (js "uid-1")))
          [QuizGenerated [questionWith "a"; questionWith "b"; questionWith "c"]
             (js "Lists") Medium 1000;
           OptionSelected (js "a"); NextClicked 5000;
           OptionSelected (js "c"); NextClicked 9000;
           McqTimedOut 601000]))
  = Returned 1.
Proof.
  apply (X15_results_page_score (Some (js "uid-1"))
           [QuizGenerated [questionWith "a"; questionWith "b"; questionWith "c"]
              (js "Lists") Medium 1000;
            OptionSelected (js "a"); NextClicked 5000;
            OptionSelected (js "c"); NextClicked 9000;
            McqTimedOut 601000] eq_refl).
Defined.

Lemma finish_record (w : McqWorld) (uid : Uid) (count : nat) (now : Z) :
  mcq_user (mcq_ui w) = Some uid ->
  answeredUpTo (userAnswers (mcq_ui w)) count ->
  count <= List.length (mcqQuestions (mcq_ui w)) ->
  exists doc,
    quizResults (finishMcq (userAnswers (mcq_ui w)) now w)
    = quizResults w ++ [doc]
    /\ quiz_uid doc = uid
    /\ quiz_title (quiz_result doc) = mcqTopic (mcq_ui w)
    /\ questions (quiz_result doc) = List.length (mcqQuestions (mcq_ui w))
    /\ renderMcqResults_score (mcq_ui (finishMcq (userAnswers (mcq_ui w)) now w))
       = Returned (correctAnswers (quiz_result doc))
    /\ (Z.of_nat (correctAnswers (quiz_result doc))
        + wrongAnswers (quiz_result doc)
        = Z.of_nat (questions (quiz_result doc)))%Z
    /\ (0 <= wrongAnswers (quiz_result doc))%Z
    /\ quiz_score (quiz_result doc)
       = scoreOf (correctAnswers (quiz_result doc))
           (questions (quiz_result doc)).
Proof.
  intros Huser Hkeys Hcount.
  destruct (score_shown (mcq_ui w) count Hkeys Hcount) as [Hshown Hle].
  unfold finishMcq. rewrite Huser. cbn [handleMcqCompletion_start saveQuizResult_start].
  eexists. split; [reflexivity|].
  cbn [quiz_uid quiz_result quiz_title questions correctAnswers wrongAnswers
       quiz_score mcq_ui].
  split; [reflexivity|]. split; [reflexivity|]. split; [reflexivity|].
  split.
  { rewrite <- Hshown. unfold renderMcqResults_score, mcqCells.
    cbn [mcqQuestions userAnswers]. reflexivity. }
  split; [lia|]. split; [lia|]. reflexivity.
Qed.

(** X16: what the end of a test records.  In every session from the
    mounting of TestBuddy, the event that takes the test to its results
    page, the last Next or the time-out, adds for a signed-in user exactly
    one quiz result: for the topic of the test, with the number of its
    questions, with the very count of correct answers that the results page
    shows, and with a number of wrong answers that is not negative and adds
    up with the correct ones to the number of questions; the score is
    computed from these two counts.  Without a user nothing is recorded. *)
Theorem X16_finished_test_is_recorded :
  forall (user : option Uid) (events : list McqEvent) (e : McqEvent),
    let w := mcqRun (mounted user) events in
    let w' := mcqStep w e in
    view (mcq_ui w) = mcq ->
    view (mcq_ui w') = mcq_results ->
    match user with
    | None => quizResults w' = quizResults w
    | Some uid =>
        exists doc,
          quizResults w' = quizResults w ++ [doc]
          /\ quiz_uid doc = uid
          /\ quiz_title (quiz_result doc) = mcqTopic (mcq_ui w)
          /\ questions (quiz_result doc)
             = List.length (mcqQuestions (mcq_ui w))
          /\ renderMcqResults_score (mcq_ui w')
             = Returned (correctAnswers (quiz_result doc))
          /\ (Z.of_nat (correctAnswers (quiz_result doc))
              + wrongAnswers (quiz_result doc)
              = Z.of_nat (questions (quiz_result doc)))%Z
          /\ (0 <= wrongAnswers (quiz_result doc))%Z
          /\ quiz_score (quiz_result doc)
             = scoreOf (correctAnswers (quiz_result doc))
                 (questions (quiz_result doc))
    end.
Proof.
  intros user events e w w' Hv Hv'.
  pose proof (mcqRun_consistent events (mounted user)
                (mounted_consistent user)) as Hc.
  pose proof (mcqRun_user events (mounted user)) as Hu.
  fold w in Hc, Hu. cbn [mounted mcq_ui mcq_user] in Hu.
  unfold mcqConsistent in Hc. rewrite Hv in Hc. destruct Hc as [Hkeys _].
  subst w'. destruct e as [generated topic d now|option|now|now|];
    cbn [mcqStep] in *.
  - discriminate Hv'.
  - destruct (questionShown (mcq_ui w)) as [q|];
      [destruct (existsb _ _)|]; cbn in Hv'; congruence.
  - destruct (questionShown (mcq_ui w)) as [q|] eqn:Hq; [|congruence].
    destruct (truthyAnswer _); [|congruence].
    destruct (questionShown_some _ _ Hq) as [_ Hlt].
    unfold handleNextQuestion in *.
    destruct (_ <? _)%Z eqn:E; [cbn in Hv'; congruence|].
    set (w1 := {| mcq_ui := mcqCells (mcq_ui w) _ _ _ _ _;
                  quizResults := quizResults w |}) in *.
    destruct user as [uid|].
    + destruct (finish_record w1 uid (S (currentMcqIndex (mcq_ui w))) now)
        as (doc & Hdoc); [exact Hu | | exact Hlt |].
      { cbn [w1 mcq_ui mcqCells userAnswers]. now apply withAnswer_next. }
      exists doc. exact Hdoc.
    + unfold finishMcq. cbn [w1 mcq_ui mcqCells mcq_user]. rewrite Hu.
      reflexivity.
  - destruct (questionShown (mcq_ui w)) as [q|] eqn:Hq; [|congruence].
    destruct (isMcqTimerRunning _); [|congruence].
    destruct (questionShown_some _ _ Hq) as [_ Hlt].
    destruct user as [uid|].
    + destruct (finish_record w uid (currentMcqIndex (mcq_ui w)) now)
        as (doc & Hdoc); [exact Hu | exact Hkeys | lia |].
      exists doc. exact Hdoc.
    + unfold finishMcq. rewrite Hu. reflexivity.
  - rewrite Hv in Hv'. congruence.
Qed.

Lemma X16_finished_test_is_recorded_witness :
  exists doc,
    quizResults
      (mcqStep
         (mcqRun (mounted (Some (js "uid-1")))
            [QuizGenerated [questionWith "a"; questionWith "b"] (js "Lists")
               Medium 1000;
             OptionSelected (js "a"); NextClicked 5000;
             OptionSelected (js "c")])
         (NextClicked 9000))
    = [doc]
    /\ correctAnswers (quiz_result doc) = 1
    /\ wrongAnswers (quiz_result doc) = 1%Z.
Proof.
  destruct (X16_finished_test_is_recorded (Some (js "uid-1"))
              [QuizGenerated [questionWith "a"; questionWith "b"] (js "Lists")
                 Medium 1000;
               OptionSelected (js "a"); NextClicked 5000;
               OptionSelected (js "c")]
              (NextClicked 9000) eq_refl eq_refl)
    as (doc & Hrec & _ & _ & Hq & Hshown & Hsum & _).
  exists doc. split; [exact Hrec|].
  assert (Hone : correctAnswers (quiz_result doc) = 1).
  { match type of Hshown with
    | ?shown = _ =>
        assert (E : shown = Returned 1) by (vm_compute; reflexivity)
    end.
    rewrite E in Hshown. now injection Hshown. }
  split; [exact Hone|].
  match type of Hq with
  | _ = ?count => assert (E : count = 2) by (vm_compute; reflexivity)
  end.
  rewrite Hone, Hq, E in Hsum. lia.
Defined.

Lemma mcqStep_records (w : McqWorld) (e : McqEvent) :
  let pending (x : McqWorld) :=
    match view (mcq_ui x) with mcq => 1 | _ => 0 end in
  List.length (quizResults (mcqStep w e)) + pending (mcqStep w e)
  <= List.length (quizResults w) + pending w
     + (if isQuizGenerated e then 1 else 0).
Proof.
  intros pending. unfold pending.
  destruct e as [generated topic d now|option|now|now|];
    cbn [mcqStep isQuizGenerated].
  - cbn. destruct (view (mcq_ui w)); lia.
  - destruct (questionShown (mcq_ui w)) as [q|] eqn:Hq; [|lia].
    destruct (existsb _ _); [|lia]. cbn. lia.
  - destruct (questionShown (mcq_ui w)) as [q|] eqn:Hq; [|lia].
    destruct (truthyAnswer _); [|lia].
    destruct (questionShown_some _ _ Hq) as [Hv _]. rewrite Hv.
    unfold handleNextQuestion. destruct (_ <? _)%Z.
    + cbn. rewrite Hv. lia.
    + unfold finishMcq. cbn.
      destruct (mcq_user (mcq_ui w)); cbn;
        [unfold saveQuizResult_start; rewrite length_app; cbn|]; lia.
  - destruct (questionShown (mcq_ui w)) as [q|] eqn:Hq; [|lia].
    destruct (isMcqTimerRunning _); [|lia].
    destruct (questionShown_some _ _ Hq) as [Hv _]. rewrite Hv.
    unfold finishMcq. cbn.
    destruct (mcq_user (mcq_ui w)); cbn;
        [unfold saveQuizResult_start; rewrite length_app; cbn|]; lia.
  - destruct (view (mcq_ui w)) eqn:Hv; try rewrite Hv; cbn; lia.
Qed.

(** X17: no test is recorded twice.  In every session from the mounting of
    TestBuddy the number of quiz results recorded, plus one while a test is
    running, is at most the number of tests that [handleStartMcq] has
    started: neither the last Next followed by the time-out nor a repeated
    event records a test a second time. *)
Theorem X17_one_record_per_test :
  forall (user : option Uid) (events : list McqEvent),
    List.length (quizResults (mcqRun (mounted user) events))
    + match view (mcq_ui (mcqRun (mounted user) events)) with
      | mcq => 1
      | _ => 0
      end
    <= List.length (List.filter isQuizGenerated events).
Proof.
  intros user events.
  assert (H : forall w,
             List.length (quizResults (mcqRun w events))
             + match view (mcq_ui (mcqRun w events)) with mcq => 1 | _ => 0 end
             <= List.length (quizResults w)
                + match view (mcq_ui w) with mcq => 1 | _ => 0 end
                + List.length (List.filter isQuizGenerated events)).
  { unfold mcqRun. induction events as [|e events IH]; intros w;
      [cbn; lia|].
    cbn [fold_left filter]. specialize (IH (mcqStep w e)).
    pose proof (mcqStep_records w e) as Hs. cbn zeta in Hs.
    destruct (isQuizGenerated e); cbn [Datatypes.length]; lia. }
  specialize (H (mounted user)). cbn in H. lia.
Qed.

(** X18: the time that [finishMcq] records.  For a signed-in user and a test
    that started at a time other than 0 and not after the present time, the
    recorded text is [minutes]m [seconds]s with the elapsed time cut down to
    whole seconds: the seconds are below 60, and the two together are the
    whole seconds elapsed. *)
Theorem X18_time_taken :
  forall (w : McqWorld) (finalAnswers : Answers) (uid : Uid)
         (startTime endTime : Z),
    mcq_user (mcq_ui w) = Some uid ->
    mcqStartTime (mcq_ui w) = Some startTime ->
    (startTime <> 0)%Z ->
    (startTime <= endTime)%Z ->
    exists doc minutes seconds,
      quizResults (finishMcq finalAnswers endTime w) = quizResults w ++ [doc]
      /\ timeTaken (quiz_result doc) = timeTakenText minutes seconds
      /\ (0 <= minutes)%Z
      /\ (0 <= seconds < 60)%Z
      /\ (60 * minutes + seconds = (endTime - startTime) / 1000)%Z.
Proof.
  intros w finalAnswers uid startTime endTime Huser Hstart Hne Hle.
  destruct (startTime =? 0)%Z eqn:E; [apply Z.eqb_eq in E; contradiction|].
  unfold finishMcq, timeDiffOf. rewrite Huser, Hstart, E.
  cbn [handleMcqCompletion_start saveQuizResult_start].
  set (timeDiff := (endTime - startTime)%Z).
  assert (Hpos : (0 <= timeDiff)%Z) by (unfold timeDiff; lia).
  eexists. exists (timeDiff / 60000)%Z, (Z.rem timeDiff 60000 / 1000)%Z.
  split; [reflexivity|]. split; [reflexivity|].
  rewrite Z.rem_mod_nonneg by lia.
  pose proof (Z.mod_pos_bound timeDiff 60000 ltac:(lia)) as Hm.
  split; [apply Z.div_pos; lia|].
  split.
  - split; [apply Z.div_pos; lia|].
    apply Z.div_lt_upper_bound; lia.
  - pose proof (Z.div_mod timeDiff 60000 ltac:(lia)) as Hd.
    replace timeDiff with (timeDiff / 60000 * 60 * 1000 + timeDiff mod 60000)%Z
      at 3 by lia.
    rewrite Z.div_add_l by lia. lia.
Qed.

Lemma X18_time_taken_witness :
  exists doc,
    quizResults
      (finishMcq [] 126500
         (mcqRun (mounted (Some (js "uid-1")))
            [QuizGenerated [questionWith "a"] (js "Lists") Medium 1000]))
    = [doc]
    /\ timeTaken (quiz_result doc) = js "2m 5s".
Proof.
  destruct (X18_time_taken
              (mcqRun (mounted (Some (js "uid-1")))
                 [QuizGenerated [questionWith "a"] (js "Lists") Medium 1000])
              [] (js "uid-1") 1000 126500 eq_refl eq_refl
              ltac:(discriminate) ltac:(discriminate))
    as (doc & minutes & seconds & Hrec & Htime & _ & Hs & Hsum).
  exists doc. split; [exact Hrec|].
  rewrite Htime. change ((126500 - 1000) / 1000)%Z with 125%Z in Hsum.
  assert (minutes = 2 /\ seconds = 5)%Z as [-> ->] by lia.
  reflexivity.
Defined.

(** ** The clock of the timer *)

Lemma twoDigits_below_100 : forallb twoDigits (seq 0 100) = true.
Proof. vm_compute. reflexivity. Qed.

Lemma padStart2_twoDigits (n : Z) :
  (0 <= n < 100)%Z ->
  padStart2 (integerText n) = [digit (n / 10); digit (n mod 10)].
Proof.
  intros Hn. rewrite <- (Z2Nat.id n) by lia.
  apply sameString_eq. change (twoDigits (Z.to_nat n) = true).
  apply (forallb_seq_spec twoDigits 0 100 twoDigits_below_100). lia.
Qed.

(** X19: the clock that [Timer] shows.  For a remaining time below 100
    minutes, and not negative, [formatTime] gives five characters: the
    minutes in two digits, a colon, and the seconds of the minute in two
    digits; so the remaining time can be read back from the clock, and two
    remaining times never show the same. *)
Theorem X19_formatTime_clock :
  forall seconds : Z,
    (0 <= seconds < 6000)%Z ->
    let m := (seconds / 60)%Z in
    let s := (seconds mod 60)%Z in
    formatTime seconds
    = [digit (m / 10); digit (m mod 10); COLON;
       digit (s / 10); digit (s mod 10)]
    /\ (0 <= m < 100)%Z /\ (0 <= s < 60)%Z
    /\ seconds = (60 * m + s)%Z
    /\ forall other : Z,
         (0 <= other < 6000)%Z ->
         formatTime other = formatTime seconds -> other = seconds.
Proof.
  assert (Hshape : forall t : Z,
             (0 <= t < 6000)%Z ->
             formatTime t
             = [digit (t / 60 / 10); digit ((t / 60) mod 10); COLON;
                digit (t mod 60 / 10); digit ((t mod 60) mod 10)]).
  { intros t Ht. unfold formatTime. rewrite Z.rem_mod_nonneg by lia.
    pose proof (Z.mod_pos_bound t 60 ltac:(lia)) as Hr.
    assert (Hq : (0 <= t / 60 < 100)%Z).
    { split; [apply Z.div_pos; lia | apply Z.div_lt_upper_bound; lia]. }
    rewrite (padStart2_twoDigits _ Hq), (padStart2_twoDigits (t mod 60))
      by lia.
    reflexivity. }
  intros seconds Hs m s.
  pose proof (Z.mod_pos_bound seconds 60 ltac:(lia)) as Hr.
  assert (Hq : (0 <= m < 100)%Z).
  { unfold m. split; [apply Z.div_pos; lia | apply Z.div_lt_upper_bound; lia]. }
  pose proof (Z.div_mod seconds 60 ltac:(lia)) as Hd.
  split; [exact (Hshape seconds Hs)|].
  split; [exact Hq|]. split; [exact Hr|]. split; [exact Hd|].
  intros other Ho Heq.
  rewrite (Hshape other Ho), (Hshape seconds Hs) in Heq.
  fold m s in Heq.
  pose proof (Z.mod_pos_bound other 60 ltac:(lia)) as Hr'.
  assert (Hq' : (0 <= other / 60 < 100)%Z).
  { split; [apply Z.div_pos; lia | apply Z.div_lt_upper_bound; lia]. }
  pose proof (Z.div_mod other 60 ltac:(lia)) as Hd'.
  set (m' := (other / 60)%Z) in *. set (s' := (other mod 60)%Z) in *.
  injection Heq as H1 H2 H3 H4.
  unfold digit in H1, H2, H3, H4.
  pose proof (Z.div_mod m 10 ltac:(lia)) as Em.
  pose proof (Z.div_mod m' 10 ltac:(lia)) as Em'.
  pose proof (Z.div_mod s 10 ltac:(lia)) as Es.
  pose proof (Z.div_mod s' 10 ltac:(lia)) as Es'.
  pose proof (Z.mod_pos_bound m 10 ltac:(lia)).
  pose proof (Z.mod_pos_bound m' 10 ltac:(lia)).
  pose proof (Z.mod_pos_bound s 10 ltac:(lia)).
  pose proof (Z.mod_pos_bound s' 10 ltac:(lia)).
  assert (0 <= m / 10)%Z by (apply Z.div_pos; lia).
  assert (0 <= m' / 10)%Z by (apply Z.div_pos; lia).
  assert (0 <= s / 10)%Z by (apply Z.div_pos; lia).
  assert (0 <= s' / 10)%Z by (apply Z.div_pos; lia).
  apply Z2N.inj in H1, H2, H3, H4; lia.
Qed.

Lemma X19_formatTime_clock_witness :
  formatTime 1500 = js "25:00" /\ formatTime 59 = js "00:59".
Proof.
  split.
  - destruct (X19_formatTime_clock 1500 ltac:(lia)) as [H _].
    rewrite H. reflexivity.
  - destruct (X19_formatTime_clock 59 ltac:(lia)) as [H _].
    rewrite H. reflexivity.
Defined.

(** ** The answers of the multiple-choice test *)

Lemma withAnswer_In (answers : Answers) (key : nat) (value : option jsstring) :
  forall k answer,
    In (k, answer) (withAnswer answers key value) ->
    In (k, answer) answers \/ (k, answer) = (key, value).
Proof.
  induction answers as [|[k0 v0] rest IH]; intros k answer Hin.
  - destruct Hin as [<-|[]]. now right.
  - cbn [withAnswer] in Hin. destruct (key <? k0).
    + destruct Hin as [<-|Hin]; [now right | now left].
    + destruct (key =? k0).
      * destruct Hin as [<-|Hin]; [now right | left; now right].
      * destruct Hin as [<-|Hin]; [left; now left|].
        destruct (IH k answer Hin) as [H|H]; [left; now right | now right].
Qed.

Lemma mcqStep_answersValid (w : McqWorld) (e : McqEvent) :
  answersValid (mcq_ui w) -> answersValid (mcq_ui (mcqStep w e)).
Proof.
  intros [Hans Hsel].
  destruct e as [generated topic d now|option|now|now|]; cbn [mcqStep].
  - split; cbn; [intros k answer [] | discriminate].
  - destruct (questionShown (mcq_ui w)) as [q|] eqn:Hq; [|now split].
    destruct (existsb _ _) eqn:Hex; [|now split].
    split; [exact Hans|]. cbn. intros _ s Hs. injection Hs as <-.
    exists q. split.
    + unfold questionShown in Hq. destruct (view (mcq_ui w)); try discriminate.
      now destruct (mcqQuestions (mcq_ui w)).
    + apply existsb_exists in Hex as (x & Hx & Heq).
      apply sameString_eq in Heq. now subst.
  - destruct (questionShown (mcq_ui w)) as [q|] eqn:Hq; [|now split].
    destruct (selectedAnswer (mcq_ui w)) as [s|] eqn:Hs; cbn [truthyAnswer];
      [|now split; [|rewrite Hs in *]].
    destruct (truthy s) eqn:Ht; [|split; [exact Hans | now rewrite Hs]].
    destruct (questionShown_some _ _ Hq) as [Hv _].
    destruct (Hsel Hv s eq_refl) as (q' & Hq' & Hin).
    assert (Hnew : forall k answer,
               In (k, answer)
                 (withAnswer (userAnswers (mcq_ui w))
                    (currentMcqIndex (mcq_ui w)) (Some s)) ->
               exists q0 s0,
                 nth_error (mcqQuestions (mcq_ui w)) k = Some q0
                 /\ answer = Some s0 /\ s0 <> [] /\ In s0 (options q0)).
    { intros k answer Hk. apply withAnswer_In in Hk as [Hk|Hk];
        [now apply Hans|].
      injection Hk as -> ->. exists q', s. repeat split; try assumption.
      intros ->. discriminate Ht. }
    unfold handleNextQuestion. rewrite Hs.
    destruct (_ <? _)%Z; (split; cbn; [exact Hnew | discriminate]).
  - destruct (questionShown (mcq_ui w)) as [q|] eqn:Hq; [|now split].
    destruct (isMcqTimerRunning _); [|now split].
    split; cbn; [exact Hans | discriminate].
  - destruct (view (mcq_ui w)) eqn:Hv;
      (split; cbn; [exact Hans|]; intros Hv'; try discriminate Hv';
       try (rewrite Hv in Hv'; discriminate Hv'); exact (Hsel eq_refl)).
Qed.

(** X20: the answers of a test.  In every session from the mounting of
    TestBuddy, every answer that [userAnswers] holds is a string, not
    [null] and not empty, that is one of the options of the question at its
    key: [handleNextQuestion] never stores the [null] that the type of
    [selectedAnswer] allows. *)
Theorem X20_answers_are_options :
  forall (user : option Uid) (events : list McqEvent) (k : nat)
         (answer : option jsstring),
    In (k, answer) (userAnswers (mcq_ui (mcqRun (mounted user) events))) ->
    exists q s,
      nth_error (mcqQuestions (mcq_ui (mcqRun (mounted user) events))) k
      = Some q
      /\ answer = Some s /\ s <> [] /\ In s (options q).
Proof.
  intros user events.
  assert (H : forall w, answersValid (mcq_ui w) ->
                        answersValid (mcq_ui (mcqRun w events))).
  { unfold mcqRun. induction events as [|e events IH]; intros w Hw;
      [exact Hw|].
    cbn [fold_left]. apply IH. now apply mcqStep_answersValid. }
  assert (H0 : answersValid (mcq_ui (mounted user))).
  { split; cbn; [intros k answer [] | discriminate]. }
  exact (proj1 (H (mounted user) H0)).
Qed.

Lemma X20_answers_are_options_witness :
  exists q s,
    nth_error [questionWith "a"; questionWith "b"] 0 = Some q
    /\ Some (js "c") = Some s /\ s <> [] /\ In s (options q).
Proof.
  exact (X20_answers_are_options (Some (js "uid-1"))
           [QuizGenerated [questionWith "a"; questionWith "b"] (js "Lists")
              Medium 1000;
            OptionSelected (js "c"); NextClicked 5000]
           0 (Some (js "c")) (or_introl eq_refl)).
Defined.
